(** * LogFocus: the match cache, the view composition and the line index mapping

    A shallow embedding of the core of the LogFocus extension
    (src/filter.ts, src/focusProvider.ts, src/commands.ts, src/utils.ts)
    and the proofs of its specified properties.

    Conventions of the embedding.
    - A method of a class takes the receiver ([this]) and the world and
      returns its result together with the receiver and the world as it
      leaves them.
    - The host (the JavaScript engine and the editor) is an interface,
      [Host]: regular expressions, the UTF-8 byte length, the MD5 digest,
      the clock and the random source.
    - A [Map] is an association list in insertion order ([JsMap]), a
      [Set] of numbers a duplicate-free list in insertion order ([JsSet]).
    - Line numbers, sizes of collections and counters are [nat];
      timestamps, document versions and byte sizes are [Z].
    - Colours and icons of a filter are data of the rendering side only
      and are left out of the [Filter] record. *)

From Stdlib Require Import String Ascii DecimalString.
From Stdlib Require Import List ZArith Bool Arith Lia.
From Stdlib Require Import Sorted Permutation.
Import ListNotations.

Set Implicit Arguments.
Local Open Scope Z_scope.

(* ================================================================== *)
(** * The host interface *)
(* ================================================================== *)

(** What the code takes from the JavaScript engine and the editor.
    - [RegExp_new s] is [new RegExp(s)]: the compiled expression, or the
      message of the [SyntaxError] it throws.
    - [RegExp_test r line] is [r.test(line)].  Every filter is built by
      [new RegExp(str)] without flags (addFilter, editFilter,
      readSettings), so [test] keeps no [lastIndex] state.
    - [byteLength s] is [Buffer.byteLength(s, 'utf8')], [md5 s] is
      [crypto.createHash('md5').update(s).digest('hex')].
    - [clock i] is the value of the [i]-th reading of [Date.now()],
      [random36 i] the text of the [i]-th
      [Math.random().toString(36).slice(2, 11)]. *)
Class Host : Type := {
  RegExp : Type;
  RegExp_new : string -> string + RegExp;
  RegExp_source : RegExp -> string;
  RegExp_test : RegExp -> string -> bool;
  byteLength : string -> Z;
  md5 : string -> string;
  clock : nat -> Z;
  random36 : nat -> string
}.

(* ================================================================== *)
(** * JavaScript collections *)
(* ================================================================== *)

(** [Array.prototype.sort(compare)]: a stable sort; [x] goes before [y]
    when [compare x y <= 0]. *)
Module JsArray.
Section Sort.
Variable A : Type.
Variable compare : A -> A -> Z.

Fixpoint insert (x : A) (l : list A) : list A :=
  match l with
  | [] => [x]
  | y :: l' => if compare x y <=? 0 then x :: y :: l' else y :: insert x l'
  end.

Definition sort (l : list A) : list A := fold_right insert [] l.
End Sort.

(** [a.indexOf(x)] on an array of numbers: the first index, or -1. *)
Fixpoint indexOf (l : list nat) (x : nat) : Z :=
  match l with
  | [] => -1
  | y :: l' =>
      if Nat.eqb y x then 0
      else let i := indexOf l' x in if i =? -1 then -1 else i + 1
  end.

(** [a.slice(0, n)] for [0 <= n]. *)
Definition slice0 (A : Type) (n : nat) (l : list A) : list A := firstn n l.

(** [a.join(sep)] on an array of strings. *)
Fixpoint join (sep : string) (l : list string) : string :=
  match l with
  | [] => EmptyString
  | [s] => s
  | s :: l' => (s ++ sep ++ join sep l')%string
  end.
End JsArray.

(** [Map<string, V>], iterated in insertion order. *)
Module JsMap.
Definition t (V : Type) : Type := list (string * V).

Section Ops.
Variable V : Type.

Definition empty : t V := [].

Fixpoint get (k : string) (m : t V) : option V :=
  match m with
  | [] => None
  | (k', v) :: m' => if String.eqb k k' then Some v else get k m'
  end.

(** [m.set(k, v)]: an existing key keeps its place. *)
Fixpoint set (k : string) (v : V) (m : t V) : t V :=
  match m with
  | [] => [(k, v)]
  | (k', v') :: m' =>
      if String.eqb k k' then (k, v) :: m' else (k', v') :: set k v m'
  end.

Definition delete (k : string) (m : t V) : t V :=
  filter (fun kv => negb (String.eqb k (fst kv))) m.

Definition size (m : t V) : nat := length m.

Definition entries (m : t V) : list (string * V) := m.

Definition keys (m : t V) : list string := map fst m.

Definition values (m : t V) : list V := map snd m.

(** The keys of a map are distinct. *)
Definition wf (m : t V) : Prop := NoDup (keys m).
End Ops.
End JsMap.

(** [Set<number>], iterated in insertion order. *)
Module JsSet.
Definition t : Type := list nat.

Definition empty : t := [].

Definition has (n : nat) (s : t) : bool := existsb (Nat.eqb n) s.

Definition add (n : nat) (s : t) : t := if has n s then s else s ++ [n].

Definition delete (n : nat) (s : t) : t :=
  filter (fun m => negb (Nat.eqb n m)) s.

(** [Array.from(s)]. *)
Definition toArray (s : t) : list nat := s.
End JsSet.

(** [text.split('\n')]. *)
Definition newline : ascii := ascii_of_nat 10.

Fixpoint split_newline (text : string) : list string :=
  match text with
  | EmptyString => [EmptyString]
  | String c rest =>
      if Ascii.eqb c newline then EmptyString :: split_newline rest
      else match split_newline rest with
           | line :: lines => String c line :: lines
           | [] => [String c EmptyString]
           end
  end.

(* ================================================================== *)
(** * The data model (src/filter.ts, src/utils.ts) *)
(* ================================================================== *)

(** [vscode.Range] with its two [vscode.Position]s. *)
Record Range : Type := mkRange {
  start_line : nat; start_character : nat;
  end_line : nat; end_character : nat
}.

(** [vscode.TextDocument] as the code reads it: [getText()] is [text],
    [lineCount] and [lineAt] are taken from [lines].  [lineAt] throws
    for a line that is not in the document. *)
Module TextDocument.
Record t : Type := mk {
  uri : string;
  version : Z;
  text : string;
  lines : list string
}.

Definition getText (d : t) : string := text d.
Definition lineCount (d : t) : nat := length (lines d).
Definition lineAt (n : nat) (d : t) : option string := nth_error (lines d) n.
End TextDocument.

Module EditorMetaData.
Record t : Type := mk {
  lineCount : nat;
  isLargeFile : bool;
  isFocusMode : bool;
  isSelected : bool
}.
End EditorMetaData.

(** [EditorInfo]: [editor] is the handle of a [vscode.TextEditor]; its
    document is read from the world each time the code reads
    [editorInfo.editor.document]. *)
Module EditorInfo.
Record t : Type := mk {
  editor : nat;
  uri : string;
  metaData : EditorMetaData.t
}.
End EditorInfo.

Module EditorCacheEntry.
Record t : Type := mk {
  uri : string;
  version : Z;
  size : Z;
  contentHash : string;
  lastModified : Z;
  matchedRanges : list Range;
  matchedLineNumbers : list nat;
  count : nat;
  lastAnalyzed : Z
}.

Definition set_lastAnalyzed (v : Z) (e : t) : t :=
  mk (uri e) (version e) (size e) (contentHash e) (lastModified e)
     (matchedRanges e) (matchedLineNumbers e) (count e) v.
End EditorCacheEntry.

(** What the code does to the user interface and to the storage. *)
Inductive Event : Type :=
| CreateDecoration (filterId : string)
| DisposeDecoration (filterId : string)
| SetDecorations (editor : nat) (filterId : string) (ranges : list Range)
| ShowErrorMessage (message : string)
| Refresh (editor : nat)
| UpdateFilterTreeView
| SaveSettings.

(** The world outside the objects of the extension. *)
Module World.
Record t : Type := mk {
  tick : nat;
  draws : nat;
  tests : nat;
  documents : nat -> TextDocument.t;
  visibleTextEditors : list nat;
  activeTextEditor : option nat;
  trace : list Event
}.

Definition document (editor : nat) (w : t) : TextDocument.t :=
  documents w editor.

Definition next_tick (w : t) : t :=
  mk (S (tick w)) (draws w) (tests w) (documents w)
     (visibleTextEditors w) (activeTextEditor w) (trace w).

Definition next_draw (w : t) : t :=
  mk (tick w) (S (draws w)) (tests w) (documents w)
     (visibleTextEditors w) (activeTextEditor w) (trace w).

Definition next_test (w : t) : t :=
  mk (tick w) (draws w) (S (tests w)) (documents w)
     (visibleTextEditors w) (activeTextEditor w) (trace w).

Definition emit (ev : Event) (w : t) : t :=
  mk (tick w) (draws w) (tests w) (documents w)
     (visibleTextEditors w) (activeTextEditor w) (trace w ++ [ev]).
End World.

(* ================================================================== *)
(** * The filter (src/filter.ts) *)
(* ================================================================== *)

(** [Date.now()]: the next reading of the clock. *)
Definition Date_now {host : Host} (w : World.t) : Z * World.t :=
  (clock (World.tick w), World.next_tick w).

(** The text of a number in a template literal. *)
Definition string_of_Z (z : Z) : string := NilZero.string_of_int (Z.to_int z).

(** [generateId] of src/utils.ts. *)
Definition generateId {host : Host} (category : string) (w : World.t)
  : string * World.t :=
  let '(timestamp, w) := Date_now w in
  let randomString := random36 (World.draws w) in
  let w := World.next_draw w in
  ((category ++ "-" ++ string_of_Z timestamp ++ "-" ++ randomString)%string, w).

(** An optional string argument as [if (arg)] sees it: [undefined] and
    the empty string are both falsy. *)
Definition truthy (arg : option string) : option string :=
  match arg with
  | Some EmptyString => None
  | _ => arg
  end.

Module Filter.
Section WithHost.
Context {host : Host}.

(** The fields of the class.  [decoration] tells whether [_decoration]
    is set; [cacheMaxSize] and [cacheMaxAge] are the initial values of
    [_cacheMaxSize] and [_cacheMaxAge], which nothing assigns. *)
Record t : Type := mk {
  regex : RegExp;
  id : string;
  isHighlighted : bool;
  isShown : bool;
  isExclude : bool;
  count : nat;
  decoration : bool;
  activeEditors : JsMap.t EditorInfo.t;
  editorDecorations : JsMap.t (list Range);
  editorCache : JsMap.t EditorCacheEntry.t;
  regexVersion : nat
}.

Definition cacheMaxSize : nat := 10.
Definition cacheMaxAge : Z := 300000.

Definition with_regex (v : RegExp) (f : t) : t :=
  mk v (id f) (isHighlighted f) (isShown f) (isExclude f) (count f)
     (decoration f) (activeEditors f) (editorDecorations f) (editorCache f)
     (regexVersion f).
Definition with_isHighlighted (v : bool) (f : t) : t :=
  mk (regex f) (id f) v (isShown f) (isExclude f) (count f)
     (decoration f) (activeEditors f) (editorDecorations f) (editorCache f)
     (regexVersion f).
Definition with_isShown (v : bool) (f : t) : t :=
  mk (regex f) (id f) (isHighlighted f) v (isExclude f) (count f)
     (decoration f) (activeEditors f) (editorDecorations f) (editorCache f)
     (regexVersion f).
Definition with_isExclude (v : bool) (f : t) : t :=
  mk (regex f) (id f) (isHighlighted f) (isShown f) v (count f)
     (decoration f) (activeEditors f) (editorDecorations f) (editorCache f)
     (regexVersion f).
Definition with_count (v : nat) (f : t) : t :=
  mk (regex f) (id f) (isHighlighted f) (isShown f) (isExclude f) v
     (decoration f) (activeEditors f) (editorDecorations f) (editorCache f)
     (regexVersion f).
Definition with_decoration (v : bool) (f : t) : t :=
  mk (regex f) (id f) (isHighlighted f) (isShown f) (isExclude f) (count f)
     v (activeEditors f) (editorDecorations f) (editorCache f)
     (regexVersion f).
Definition with_activeEditors (v : JsMap.t EditorInfo.t) (f : t) : t :=
  mk (regex f) (id f) (isHighlighted f) (isShown f) (isExclude f) (count f)
     (decoration f) v (editorDecorations f) (editorCache f)
     (regexVersion f).
Definition with_editorDecorations (v : JsMap.t (list Range)) (f : t) : t :=
  mk (regex f) (id f) (isHighlighted f) (isShown f) (isExclude f) (count f)
     (decoration f) (activeEditors f) v (editorCache f)
     (regexVersion f).
Definition with_editorCache (v : JsMap.t EditorCacheEntry.t) (f : t) : t :=
  mk (regex f) (id f) (isHighlighted f) (isShown f) (isExclude f) (count f)
     (decoration f) (activeEditors f) (editorDecorations f) v
     (regexVersion f).
Definition with_regexVersion (v : nat) (f : t) : t :=
  mk (regex f) (id f) (isHighlighted f) (isShown f) (isExclude f) (count f)
     (decoration f) (activeEditors f) (editorDecorations f) (editorCache f)
     v.

(** [new Filter(regex)]. *)
Definition new (regex : RegExp) (w : World.t) : t * World.t :=
  let '(id, w) := generateId "filter" w in
  (mk regex id true true false 0%nat false
      (JsMap.empty _) (JsMap.empty _) (JsMap.empty _) 0%nat, w).

(** [test]: one call of [regex.test], counted in the world. *)
Definition test (line : string) (this : t) (w : World.t) : bool * World.t :=
  (RegExp_test (regex this) line, World.next_test w).

Definition calculateContentHash (content : string) : string := md5 content.

(** The range the code builds for a matching line. *)
Definition wholeLineRange (lineIndex : nat) : Range :=
  mkRange lineIndex 0 lineIndex 0.

(** ** Decorations *)

Definition createDecoration (this : t) (w : World.t) : t * World.t :=
  (with_decoration true this, World.emit (CreateDecoration (id this)) w).

Definition applyDecorationsToEditor (editorInfo : EditorInfo.t)
    (matchedRanges : list Range) (this : t) (w : World.t) : World.t :=
  if negb (decoration this) then w
  else
    let isFocusMode :=
      EditorMetaData.isFocusMode (EditorInfo.metaData editorInfo)
      || String.prefix "focus:" (EditorInfo.uri editorInfo) in
    let isLargeFile :=
      EditorMetaData.isLargeFile (EditorInfo.metaData editorInfo) in
    let shouldHighlight :=
      isHighlighted this
      && (negb isFocusMode || isShown this)
      && negb (isExclude this)
      && (negb isLargeFile || (isShown this && Nat.ltb (count this) 1000)) in
    if shouldHighlight
    then World.emit
           (SetDecorations (EditorInfo.editor editorInfo) (id this) matchedRanges) w
    else World.emit
           (SetDecorations (EditorInfo.editor editorInfo) (id this) []) w.

Definition applyDecorationsToAllEditors (this : t) (w : World.t) : World.t :=
  fold_left
    (fun w '(uri, editorInfo) =>
       let decorations :=
         match JsMap.get uri (editorDecorations this) with
         | Some d => d
         | None => []
         end in
       applyDecorationsToEditor editorInfo decorations this w)
    (JsMap.entries (activeEditors this)) w.

Definition updateDecoration (this : t) (w : World.t) : t * World.t :=
  let w := if decoration this
           then World.emit (DisposeDecoration (id this)) w else w in
  let '(this, w) := createDecoration this w in
  (this, applyDecorationsToAllEditors this w).

(** ** The cache *)

(** [clearCache(editorUri?)]. *)
Definition clearCache (editorUri : option string) (this : t) : t :=
  match truthy editorUri with
  | Some u => with_editorCache (JsMap.delete u (editorCache this)) this
  | None => with_editorCache (JsMap.empty _) this
  end.

(** [setRegex]. *)
Definition setRegex (newRegex : RegExp) (this : t) (w : World.t)
  : t * World.t :=
  let this := with_regex newRegex this in
  let this := with_regexVersion (S (regexVersion this)) this in
  let this := clearCache None this in
  updateDecoration this w.

(** The setters of [isHighlighted], [isShown] and [isExclude]. *)
Definition set_isHighlighted (value : bool) (this : t) (w : World.t)
  : t * World.t :=
  updateDecoration (with_isHighlighted value this) w.

Definition set_isShown (value : bool) (this : t) (w : World.t)
  : t * World.t :=
  let this := with_isShown value this in
  (this, applyDecorationsToAllEditors this w).

Definition set_isExclude (value : bool) (this : t) (w : World.t)
  : t * World.t :=
  updateDecoration (with_isExclude value this) w.

(** [isCacheValid(cacheEntry, document, metaData?)]. *)
Definition isCacheValid (cacheEntry : EditorCacheEntry.t)
    (document : TextDocument.t) (metaData : option EditorMetaData.t)
    (w : World.t) : bool * World.t :=
  if negb (EditorCacheEntry.version cacheEntry =? TextDocument.version document)
  then (false, w)
  else if negb (EditorCacheEntry.size cacheEntry
                =? byteLength (TextDocument.getText document))
  then (false, w)
  else if negb (String.eqb (EditorCacheEntry.contentHash cacheEntry)
                  (calculateContentHash (TextDocument.getText document)))
  then (false, w)
  else
    let isLarge := match metaData with
                   | Some m => EditorMetaData.isLargeFile m
                   | None => false
                   end in
    let maxAge := if isLarge then cacheMaxAge / 2 else cacheMaxAge in
    let '(now, w) := Date_now w in
    let cacheAge := now - EditorCacheEntry.lastAnalyzed cacheEntry in
    (cacheAge <=? maxAge, w).

(** The loop of [computeAnalysis]; the accumulator holds
    [matchedRanges], [matchedLineNumbers] and [count]. *)
Fixpoint analysisLoop (this : t) (lines : list string) (lineIndex : nat)
    (acc : list Range * list nat * nat) (w : World.t)
  : (list Range * list nat * nat) * World.t :=
  match lines with
  | [] => (acc, w)
  | line :: rest =>
      let '(matchedRanges, matchedLineNumbers, count) := acc in
      let '(matched, w) := test line this w in
      let acc :=
        if matched
        then (matchedRanges ++ [wholeLineRange lineIndex],
              matchedLineNumbers ++ [lineIndex], S count)
        else acc in
      analysisLoop this rest (S lineIndex) acc w
  end.

Definition computeAnalysis (editorInfo : EditorInfo.t) (this : t)
    (w : World.t) : EditorCacheEntry.t * World.t :=
  let document := World.document (EditorInfo.editor editorInfo) w in
  let text := TextDocument.getText document in
  let lines := split_newline text in
  let '(matchedRanges, matchedLineNumbers, count, w) :=
    analysisLoop this lines 0%nat ([], [], 0%nat) w in
  let '(now, w) := Date_now w in
  (EditorCacheEntry.mk (TextDocument.uri document)
     (TextDocument.version document) (byteLength text)
     (calculateContentHash text) now
     matchedRanges matchedLineNumbers count 0, w).

Definition maxRanges : nat := 500.

(** The loop of [computeOptimizedAnalysis]. *)
Fixpoint optimizedLoop (this : t) (lines : list string) (lineIndex : nat)
    (acc : list Range * list nat * nat) (w : World.t)
  : (list Range * list nat * nat) * World.t :=
  match lines with
  | [] => (acc, w)
  | line :: rest =>
      let '(matchedRanges, matchedLineNumbers, count) := acc in
      let '(matched, w) := test line this w in
      let acc :=
        if matched
        then ((if Nat.ltb (length matchedRanges) maxRanges
               then matchedRanges ++ [wholeLineRange lineIndex]
               else matchedRanges),
              matchedLineNumbers ++ [lineIndex], S count)
        else acc in
      optimizedLoop this rest (S lineIndex) acc w
  end.

Definition computeOptimizedAnalysis (editorInfo : EditorInfo.t) (this : t)
    (w : World.t) : EditorCacheEntry.t * World.t :=
  let document := World.document (EditorInfo.editor editorInfo) w in
  let text := TextDocument.getText document in
  let lines := split_newline text in
  let '(matchedRanges, matchedLineNumbers, count, w) :=
    optimizedLoop this lines 0%nat ([], [], 0%nat) w in
  let '(now, w) := Date_now w in
  (EditorCacheEntry.mk (TextDocument.uri document)
     (TextDocument.version document) (byteLength text)
     (calculateContentHash text) now
     matchedRanges matchedLineNumbers count 0, w).

(** [cleanupExpiredCache]: the loop deletes from the map it iterates;
    an entry that is deleted is not visited later, every other entry
    is visited once. *)
Definition cleanupExpiredCache (this : t) (w : World.t) : t * World.t :=
  let '(now, w) := Date_now w in
  let cache :=
    fold_left
      (fun cache '(uri, entry) =>
         if now - EditorCacheEntry.lastAnalyzed entry >? cacheMaxAge
         then JsMap.delete uri cache else cache)
      (JsMap.entries (editorCache this)) (editorCache this) in
  (with_editorCache cache this, w).

(** [enforceMaxCacheSize]. *)
Definition enforceMaxCacheSize (this : t) : t :=
  if Nat.leb (JsMap.size (editorCache this)) cacheMaxSize then this
  else
    let entries :=
      JsArray.sort
        (fun a b => EditorCacheEntry.lastAnalyzed (snd a)
                    - EditorCacheEntry.lastAnalyzed (snd b))
        (JsMap.entries (editorCache this)) in
    let toRemove :=
      JsArray.slice0 (JsMap.size (editorCache this) - cacheMaxSize) entries in
    with_editorCache
      (fold_left (fun cache '(uri, _) => JsMap.delete uri cache)
         toRemove (editorCache this))
      this.

(** [getCachedAnalysisOrCompute]. *)
Definition getCachedAnalysisOrCompute (editorInfo : EditorInfo.t) (this : t)
    (w : World.t) : EditorCacheEntry.t * t * World.t :=
  let document := World.document (EditorInfo.editor editorInfo) w in
  let editorUri := TextDocument.uri document in
  let '(this, w) := cleanupExpiredCache this w in
  let cachedEntry := JsMap.get editorUri (editorCache this) in
  let '(valid, w) :=
    match cachedEntry with
    | Some e =>
        isCacheValid e document (Some (EditorInfo.metaData editorInfo)) w
    | None => (false, w)
    end in
  match cachedEntry, valid with
  | Some e, true => (e, this, w)
  | _, _ =>
      let '(newEntry, w) :=
        if EditorMetaData.isLargeFile (EditorInfo.metaData editorInfo)
        then computeOptimizedAnalysis editorInfo this w
        else computeAnalysis editorInfo this w in
      let '(now, w) := Date_now w in
      let newEntry := EditorCacheEntry.set_lastAnalyzed now newEntry in
      let this :=
        with_editorCache (JsMap.set editorUri newEntry (editorCache this))
          this in
      let this := enforceMaxCacheSize this in
      (newEntry, this, w)
  end.

(** [getMatchedLineNumbers(editorUri)] with an argument. *)
Definition getMatchedLineNumbersOf (editorUri : string) (this : t)
    (w : World.t) : list nat * t * World.t :=
  match JsMap.get editorUri (activeEditors this) with
  | None => ([], this, w)
  | Some editorInfo =>
      let cacheEntry := JsMap.get editorUri (editorCache this) in
      let '(valid, w) :=
        match cacheEntry with
        | Some e =>
            isCacheValid e
              (World.document (EditorInfo.editor editorInfo) w)
              (Some (EditorInfo.metaData editorInfo)) w
        | None => (false, w)
        end in
      match cacheEntry, valid with
      | Some e, true => (EditorCacheEntry.matchedLineNumbers e, this, w)
      | _, _ =>
          let '(e, this, w) := getCachedAnalysisOrCompute editorInfo this w in
          (EditorCacheEntry.matchedLineNumbers e, this, w)
      end
  end.

(** [getMatchedLineNumbers(editorUri?)]. *)
Definition getMatchedLineNumbers (editorUri : option string) (this : t)
    (w : World.t) : list nat * t * World.t :=
  match truthy editorUri with
  | Some u => getMatchedLineNumbersOf u this w
  | None =>
      fold_left
        (fun '(allLineNumbers, this, w) '(uri, _) =>
           let '(ns, this, w) := getMatchedLineNumbersOf uri this w in
           (allLineNumbers ++ ns, this, w))
        (JsMap.entries (activeEditors this)) ([], this, w)
  end.

(** [processEditor]. *)
Definition processEditor (editorInfo : EditorInfo.t) (this : t)
    (w : World.t) : t * World.t :=
  let '(this, w) :=
    if negb (decoration this) then createDecoration this w else (this, w) in
  let editorUri := EditorInfo.uri editorInfo in
  let this :=
    with_activeEditors (JsMap.set editorUri editorInfo (activeEditors this))
      this in
  let '(cacheEntry, this, w) := getCachedAnalysisOrCompute editorInfo this w in
  let this :=
    with_editorDecorations
      (JsMap.set editorUri (EditorCacheEntry.matchedRanges cacheEntry)
         (editorDecorations this)) this in
  let this :=
    if EditorMetaData.isSelected (EditorInfo.metaData editorInfo)
    then with_count (EditorCacheEntry.count cacheEntry) this else this in
  (this,
   applyDecorationsToEditor editorInfo
     (EditorCacheEntry.matchedRanges cacheEntry) this w).

(** [clearProcessing(editorUri?)]. *)
Definition clearProcessing (editorUri : option string) (this : t)
    (w : World.t) : t * World.t :=
  let '(this, w) :=
    match truthy editorUri with
    | Some u =>
        let w :=
          match decoration this, JsMap.get u (activeEditors this) with
          | true, Some editorInfo =>
              World.emit
                (SetDecorations (EditorInfo.editor editorInfo) (id this) []) w
          | _, _ => w
          end in
        (with_editorDecorations (JsMap.delete u (editorDecorations this))
           (with_activeEditors (JsMap.delete u (activeEditors this)) this), w)
    | None =>
        let w :=
          if decoration this
          then fold_left
                 (fun w editorInfo =>
                    World.emit
                      (SetDecorations (EditorInfo.editor editorInfo)
                         (id this) []) w)
                 (JsMap.values (activeEditors this)) w
          else w in
        (with_editorDecorations (JsMap.empty _)
           (with_activeEditors (JsMap.empty _) this), w)
    end in
  (with_count 0%nat this, w).

(** [removeEditor]. *)
Definition removeEditor (editorUri : string) (this : t) (w : World.t)
  : t * World.t :=
  let '(this, w) := clearProcessing (Some editorUri) this w in
  (clearCache (Some editorUri) this, w).

(** [dispose]. *)
Definition dispose (this : t) (w : World.t) : t * World.t :=
  let '(this, w) := clearProcessing None this w in
  let this := clearCache None this in
  if decoration this
  then (with_decoration false this,
        World.emit (DisposeDecoration (id this)) w)
  else (this, w).
End WithHost.
End Filter.

Arguments Filter.maxRanges : simpl never.
Arguments Filter.cacheMaxSize : simpl never.
Arguments Filter.cacheMaxAge : simpl never.

(* ================================================================== *)
(** * Projects and groups (src/utils.ts) *)
(* ================================================================== *)

(** A [Group] and its [Project] hold the same [Filter] objects.  The
    objects live in the map of the project, keyed by their id; the map
    of a group is kept as its keys, which refer into the project. *)
Module Group.
Record t : Type := mk {
  filters : list string;
  isHighlighted : bool;
  isShown : bool;
  name : string;
  id : string
}.

(** [group.filters.set(id, filter)]. *)
Definition filters_set (filterId : string) (g : t) : t :=
  mk (if existsb (String.eqb filterId) (filters g)
      then filters g else filters g ++ [filterId])
     (isHighlighted g) (isShown g) (name g) (id g).

(** [group.filters.delete(id)]. *)
Definition filters_delete (filterId : string) (g : t) : t :=
  mk (filter (fun key => negb (String.eqb filterId key)) (filters g))
     (isHighlighted g) (isShown g) (name g) (id g).

Definition with_isHighlighted (v : bool) (g : t) : t :=
  mk (filters g) v (isShown g) (name g) (id g).
Definition with_isShown (v : bool) (g : t) : t :=
  mk (filters g) (isHighlighted g) v (name g) (id g).
Definition with_name (v : string) (g : t) : t :=
  mk (filters g) (isHighlighted g) (isShown g) v (id g).
End Group.

(** [createGroup] of src/utils.ts. *)
Definition createGroup {host : Host} (name : string) (w : World.t)
  : Group.t * World.t :=
  let '(id, w) := generateId "group" w in
  (Group.mk [] true true name id, w).

Module Project.
Section WithHost.
Context {host : Host}.

Record t : Type := mk {
  filters : JsMap.t Filter.t;
  groups : JsMap.t Group.t;
  name : string;
  id : string;
  selected : bool
}.

Definition with_filters (v : JsMap.t Filter.t) (p : t) : t :=
  mk v (groups p) (name p) (id p) (selected p).
Definition with_groups (v : JsMap.t Group.t) (p : t) : t :=
  mk (filters p) v (name p) (id p) (selected p).

(** A call of a method on the filter object that [key] refers to; the
    object is updated in place.  A key taken from the map always
    finds its object; [default] is the result for a key that does
    not. *)
Definition call (A : Type) (default : A) (key : string)
    (method : Filter.t -> World.t -> A * Filter.t * World.t)
    (p : t) (w : World.t) : A * t * World.t :=
  match JsMap.get key (filters p) with
  | Some filter =>
      let '(a, filter, w) := method filter w in
      (a, with_filters (JsMap.set key filter (filters p)) p, w)
  | None => (default, p, w)
  end.
End WithHost.
End Project.

(* ================================================================== *)
(** * The focus provider (src/focusProvider.ts) *)
(* ================================================================== *)

Module FocusProvider.
Section WithHost.
Context {host : Host}.

(** The provider holds [project], a project or [null]. *)
Definition t : Type := option Project.t.

(** A method call on a filter of the provider's project. *)
Definition call (A : Type) (default : A) (key : string)
    (method : Filter.t -> World.t -> A * Filter.t * World.t)
    (this : t) (w : World.t) : A * t * World.t :=
  match this with
  | Some p =>
      let '(a, p, w) := Project.call default key method p w in (a, Some p, w)
  | None => (default, None, w)
  end.

(** [getActiveFilters]: the shown filters, the positive ones and the
    exclude ones, each in the order of the project's map.  The
    filters are given by their keys. *)
Definition getActiveFilters (this : t) : list string * list string :=
  match this with
  | None => ([], [])
  | Some p =>
      fold_left
        (fun '(positiveFilters, excludeFilters) '(key, filter) =>
           if Filter.isShown filter then
             if Filter.isExclude filter
             then (positiveFilters, excludeFilters ++ [key])
             else (positiveFilters ++ [key], excludeFilters)
           else (positiveFilters, excludeFilters))
        (JsMap.entries (Project.filters p)) ([], [])
  end.

(** [filters.forEach(filter => filter.getMatchedLineNumbers(uri)
    .forEach(lineNum => step(lineNum)))] on a set of line numbers. *)
Definition forEachMatchedLine (step : nat -> JsSet.t -> JsSet.t)
    (originalUri : string) (filters : list string)
    (resultLines : JsSet.t) (this : t) (w : World.t)
  : JsSet.t * t * World.t :=
  fold_left
    (fun '(resultLines, this, w) key =>
       let '(lineNumbers, this, w) :=
         call [] key (Filter.getMatchedLineNumbers (Some originalUri))
           this w in
       (fold_left (fun s lineNum => step lineNum s) lineNumbers resultLines,
        this, w))
    filters (resultLines, this, w).

(** The two branches that [getVisibleLines] and
    [generateFilteredContent] share word for word. *)
Definition collectResultLines (originalUri : string)
    (document : TextDocument.t) (this : t) (w : World.t)
  : JsSet.t * t * World.t :=
  let '(positiveFilters, excludeFilters) := getActiveFilters this in
  if Nat.ltb 0 (length positiveFilters) then
    forEachMatchedLine JsSet.add originalUri positiveFilters
      JsSet.empty this w
  else
    let resultLines :=
      fold_left (fun s i => JsSet.add i s)
        (seq 0 (TextDocument.lineCount document)) JsSet.empty in
    forEachMatchedLine JsSet.delete originalUri excludeFilters
      resultLines this w.

Definition compareNumbers (a b : nat) : Z := Z.of_nat a - Z.of_nat b.

(** [getVisibleLines]. *)
Definition getVisibleLines (originalUri : string)
    (originalDoc : TextDocument.t) (this : t) (w : World.t)
  : list nat * t * World.t :=
  let '(resultLines, this, w) :=
    collectResultLines originalUri originalDoc this w in
  (JsArray.sort compareNumbers (JsSet.toArray resultLines), this, w).

(** [generateFilteredContent]; [None] when [lineAt] throws. *)
Definition generateFilteredContent (originalUri : string)
    (document : TextDocument.t) (this : t) (w : World.t)
  : option string * t * World.t :=
  let '(resultLines, this, w) :=
    collectResultLines originalUri document this w in
  let sortedLines :=
    JsArray.sort compareNumbers (JsSet.toArray resultLines) in
  let resultArr :=
    fold_left
      (fun resultArr lineNum =>
         match resultArr with
         | None => None
         | Some arr =>
             if Nat.ltb lineNum (TextDocument.lineCount document) then
               match TextDocument.lineAt lineNum document with
               | Some text => Some (arr ++ [text])
               | None => None
               end
             else Some arr
         end)
      sortedLines (Some [EmptyString]) in
  (option_map (JsArray.join (String newline EmptyString)) resultArr, this, w).

(** [isFocusUri]: the scheme of the uri is [focus]. *)
Definition isFocusUri (uri : string) : bool := String.prefix "focus:" uri.
End WithHost.
End FocusProvider.

(* ================================================================== *)
(** * The commands (src/commands.ts) *)
(* ================================================================== *)

(** [LARGE_FILE_CONFIG.SIZE_THRESHOLD] of src/utils.ts. *)
Definition SIZE_THRESHOLD : nat := 10 * 1024 * 1024.

(** The body of the loop of [buildFocusDecorationRanges]: the line of
    the focus document that shows [originalLineNum], if there is one.
    Line 0 of the focus document is the empty header line. *)
Definition focusLineNum (visibleLines : list nat) (originalLineNum : nat)
  : option Z :=
  let focusLineIndex := JsArray.indexOf visibleLines originalLineNum in
  if negb (focusLineIndex =? -1) then Some (focusLineIndex + 1) else None.

(** [buildFocusDecorationRanges]. *)
Definition buildFocusDecorationRanges (matchedLines visibleLines : list nat)
  : list Range :=
  fold_left
    (fun ranges originalLineNum =>
       match focusLineNum visibleLines originalLineNum with
       | Some focusLine =>
           ranges ++ [mkRange (Z.to_nat focusLine) 0 (Z.to_nat focusLine) 0]
       | None => ranges
       end)
    matchedLines [].

(** Modelled from the spec: the reverse mapping of section 4.4, from a
    line of the focus view to the line of the original document,
    [V[f - 1]] for [f >= 1].  The code has the forward mapping only. *)
Definition originalLineNum (visibleLines : list nat) (f : Z) : option nat :=
  if 1 <=? f then nth_error visibleLines (Z.to_nat (f - 1)) else None.

Module Commands.
Section WithHost.
Context {host : Host}.

(** The part of the global [State] that the commands below use. *)
Record State : Type := mkState {
  selectedProject : option Project.t
}.

(** How a command ends: it returns, or an exception leaves it. *)
Inductive Outcome : Type :=
| Returned
| Thrown (error : string).

(** The [EditorInfo] that [refreshEditors] builds for a visible
    editor. *)
Definition editorInfoOf (editor : nat) (w : World.t) : EditorInfo.t :=
  let document := World.document editor w in
  EditorInfo.mk editor (TextDocument.uri document)
    (EditorMetaData.mk
       (TextDocument.lineCount document)
       (Nat.ltb SIZE_THRESHOLD (String.length (TextDocument.getText document)))
       (FocusProvider.isFocusUri (TextDocument.uri document))
       (match World.activeTextEditor w with
        | Some activated =>
            String.eqb (TextDocument.uri document)
              (TextDocument.uri (World.document activated w))
        | None => false
        end)).

(** [applyFilterHighlights], up to its [await]: every filter of the
    project processes every editor. *)
Definition applyFilterHighlights (editors : list EditorInfo.t)
    (p : Project.t) (w : World.t) : Project.t * World.t :=
  if Nat.eqb (JsMap.size (Project.filters p)) 0 then (p, w)
  else
    fold_left
      (fun '(p, w) editor =>
         fold_left
           (fun '(p, w) key =>
              let '(_, p, w) :=
                Project.call tt key
                  (fun filter w =>
                     let '(filter, w) := Filter.processEditor editor filter w in
                     (tt, filter, w))
                  p w in
              (p, w))
           (JsMap.keys (Project.filters p)) (p, w))
      editors (p, w).

(** [refreshEditors], the part that runs before it returns.  The
    callback that it gives to [then] (the refresh of the focus
    documents, the update of the tree view) runs from the event loop
    after the command has returned: it is
    [EventLoop.refreshEditorsThen] below. *)
Definition refreshEditors (state : State) (w : World.t) : State * World.t :=
  match selectedProject state with
  | None => (state, w)
  | Some p =>
      if Nat.eqb (JsMap.size (Project.filters p)) 0 then (state, w)
      else
        let editorInfos :=
          map (fun editor => editorInfoOf editor w)
            (World.visibleTextEditors w) in
        let '(p, w) := applyFilterHighlights editorInfos p w in
        (mkState (Some p), w)
  end.

Definition saveSettings (w : World.t) : World.t := World.emit SaveSettings w.

(** [addFilter]: [regexStr] is what the input box resolves to, [None]
    for [undefined]. *)
Definition addFilter (treeItemId : string) (regexStr : option string)
    (state : State) (w : World.t) : Outcome * State * World.t :=
  match selectedProject state with
  | None => (Returned, state, w)
  | Some p =>
      match truthy regexStr, JsMap.get treeItemId (Project.groups p) with
      | Some regexStr, Some group =>
          match RegExp_new regexStr with
          | inl error => (Thrown error, state, w)
          | inr regex =>
              let '(filter, w) := Filter.new regex w in
              let group := Group.filters_set (Filter.id filter) group in
              let p :=
                Project.with_groups
                  (JsMap.set treeItemId group (Project.groups p)) p in
              let p :=
                Project.with_filters
                  (JsMap.set (Filter.id filter) filter (Project.filters p)) p in
              let '(state, w) := refreshEditors (mkState (Some p)) w in
              (Returned, state, saveSettings w)
          end
      | _, _ => (Returned, state, w)
      end
  end.

(** [editFilter]: [regexStr] is what the input box resolves to. *)
Definition editFilter (treeItemId : string) (regexStr : option string)
    (state : State) (w : World.t) : Outcome * State * World.t :=
  match selectedProject state with
  | None => (Returned, state, w)
  | Some p =>
      match JsMap.get treeItemId (Project.filters p) with
      | None => (Returned, state, w)
      | Some filter =>
          match regexStr with
          | None => (Returned, state, w)
          | Some regexStr =>
              if String.eqb regexStr (RegExp_source (Filter.regex filter))
              then (Returned, state, w)
              else
                match RegExp_new regexStr with
                | inl error =>
                    (Returned, state,
                     World.emit
                       (ShowErrorMessage ("Invalid Regex: " ++ error)%string)
                       w)
                | inr regex =>
                    let '(filter, w) := Filter.setRegex regex filter w in
                    let p :=
                      Project.with_filters
                        (JsMap.set treeItemId filter (Project.filters p)) p in
                    let '(state, w) := refreshEditors (mkState (Some p)) w in
                    (Returned, state, saveSettings w)
                end
          end
      end
  end.

(** A call of a method without a result on the filter object that
    [key] refers to. *)
Definition invoke (key : string)
    (method : Filter.t -> World.t -> Filter.t * World.t)
    (p : Project.t) (w : World.t) : Project.t * World.t :=
  let '(_, p, w) :=
    Project.call tt key
      (fun filter w => let '(filter, w) := method filter w in (tt, filter, w))
      p w in
  (p, w).

(** [group.filters.forEach(filter => filter.method())]. *)
Definition invokeEach (keys : list string)
    (method : Filter.t -> World.t -> Filter.t * World.t)
    (p : Project.t) (w : World.t) : Project.t * World.t :=
  fold_left (fun '(p, w) key => invoke key method p w) keys (p, w).

(** [setVisibility]: [id] is [treeItem.id]. *)
Definition setVisibility (isShown : bool) (id : string) (state : State)
    (w : World.t) : State * World.t :=
  let '(state, w) :=
    match selectedProject state with
    | None => (state, w)
    | Some p =>
        if String.prefix "group-" id then
          match JsMap.get id (Project.groups p) with
          | Some group =>
              let p :=
                Project.with_groups
                  (JsMap.set id (Group.with_isShown isShown group)
                     (Project.groups p)) p in
              let '(p, w) :=
                invokeEach (Group.filters group) (Filter.set_isShown isShown)
                  p w in
              (mkState (Some p), w)
          | None => (state, w)
          end
        else if String.prefix "filter-" id then
          let '(p, w) := invoke id (Filter.set_isShown isShown) p w in
          (mkState (Some p), w)
        else (state, w)
    end in
  refreshEditors state w.

(** [setHighlight]. *)
Definition setHighlight (isHighlighted : bool) (id : string) (state : State)
    (w : World.t) : State * World.t :=
  let '(state, w) :=
    match selectedProject state with
    | None => (state, w)
    | Some p =>
        if String.prefix "group-" id then
          match JsMap.get id (Project.groups p) with
          | Some group =>
              let p :=
                Project.with_groups
                  (JsMap.set id (Group.with_isHighlighted isHighlighted group)
                     (Project.groups p)) p in
              let '(p, w) :=
                invokeEach (Group.filters group)
                  (Filter.set_isHighlighted isHighlighted) p w in
              (mkState (Some p), w)
          | None => (state, w)
          end
        else if String.prefix "filter-" id then
          let '(p, w) :=
            invoke id (Filter.set_isHighlighted isHighlighted) p w in
          (mkState (Some p), w)
        else (state, w)
    end in
  refreshEditors state w.

(** [setExclude]. *)
Definition setExclude (isExclude : bool) (id : string) (state : State)
    (w : World.t) : State * World.t :=
  match selectedProject state with
  | None => (state, w)
  | Some p =>
      match JsMap.get id (Project.filters p) with
      | None => (state, w)
      | Some _ =>
          let '(p, w) := invoke id (Filter.set_isExclude isExclude) p w in
          refreshEditors (mkState (Some p)) w
      end
  end.

(** [deleteFilter]. *)
Definition deleteFilter (treeItemId : string) (state : State) (w : World.t)
  : State * World.t :=
  match selectedProject state with
  | None => (state, w)
  | Some p =>
      match JsMap.get treeItemId (Project.filters p) with
      | None => (state, w)
      | Some filter =>
          let p :=
            Project.with_filters
              (JsMap.delete treeItemId (Project.filters p)) p in
          let p :=
            Project.with_groups
              (map (fun '(key, group) =>
                      (key, Group.filters_delete treeItemId group))
                 (Project.groups p)) p in
          let '(_, w) := Filter.dispose filter w in
          let '(state, w) := refreshEditors (mkState (Some p)) w in
          (state, saveSettings w)
      end
  end.

(** [updateFilterTreeView]. *)
Definition updateFilterTreeView (state : State) (w : World.t) : World.t :=
  match selectedProject state with
  | None => w
  | Some _ => World.emit UpdateFilterTreeView w
  end.

(** [addGroup]: [name] is what the input box resolves to. *)
Definition addGroup (name : option string) (state : State) (w : World.t)
  : State * World.t :=
  match name with
  | None => (state, w)
  | Some name =>
      let '(group, w) := createGroup name w in
      let state :=
        match selectedProject state with
        | None => state
        | Some p =>
            mkState
              (Some (Project.with_groups
                       (JsMap.set (Group.id group) group (Project.groups p))
                       p))
        end in
      (state, saveSettings (updateFilterTreeView state w))
  end.

(** [editGroup]: [name] is what the input box resolves to. *)
Definition editGroup (treeItemId : string) (name : option string)
    (state : State) (w : World.t) : State * World.t :=
  match selectedProject state with
  | None => (state, w)
  | Some p =>
      match JsMap.get treeItemId (Project.groups p), name with
      | Some group, Some name =>
          let state :=
            mkState
              (Some (Project.with_groups
                       (JsMap.set treeItemId (Group.with_name name group)
                          (Project.groups p)) p)) in
          (state, saveSettings (updateFilterTreeView state w))
      | _, _ => (state, w)
      end
  end.

(** [deleteGroup].  The loop visits the filter objects that the group
    holds when the command starts. *)
Definition deleteGroup (treeItemId : string) (state : State) (w : World.t)
  : State * World.t :=
  match selectedProject state with
  | None => (state, w)
  | Some p0 =>
      match JsMap.get treeItemId (Project.groups p0) with
      | None => (state, w)
      | Some group =>
          let '(p, w) :=
            fold_left
              (fun '(p, w) key =>
                 match JsMap.get key (Project.filters p0) with
                 | Some filter =>
                     let p :=
                       Project.with_filters
                         (JsMap.delete (Filter.id filter) (Project.filters p))
                         p in
                     let '(_, w) := Filter.dispose filter w in
                     (p, w)
                 | None => (p, w)
                 end)
              (Group.filters group) (p0, w) in
          let p :=
            Project.with_groups
              (JsMap.delete treeItemId (Project.groups p)) p in
          let '(state, w) := refreshEditors (mkState (Some p)) w in
          (state, saveSettings w)
      end
  end.
End WithHost.
End Commands.

(* ================================================================== *)
(** * What a command leaves to the event loop *)
(* ================================================================== *)

(** [refreshEditors] does not wait for [applyFilterHighlights]: it
    gives the rest of its work to [then] and returns.  The callback
    runs once the function that called [refreshEditors] has returned,
    which for [deleteFilter], [addFilter], [editFilter] and
    [deleteGroup] is after [saveSettings].  The functions of this
    module are those of [Commands] that call [refreshEditors], with
    the callbacks that they leave behind. *)
Module EventLoop.
Section WithHost.
Context {host : Host}.

(** A callback that waits for its turn.  It reads the state as it is
    when it runs. *)
Definition Callback : Type := Commands.State -> World.t -> World.t.

(** [refreshFocusModeEditors]: [focusProvider.refresh(editor)] fires
    [onDidChange] for the document of the editor. *)
Definition refreshFocusModeEditors (editors : list EditorInfo.t)
    (w : World.t) : World.t :=
  fold_left
    (fun w editorInfo =>
       if EditorMetaData.isFocusMode (EditorInfo.metaData editorInfo)
       then World.emit (Refresh (EditorInfo.editor editorInfo)) w
       else w)
    editors w.

(** The callback of [then] in [refreshEditors], with the
    [editorInfos] that [refreshEditors] has built.  The timer that
    the callback sets, for [applyFocusModeDecorations] of the focus
    editors 10 ms later, is not part of the model: its handler reads
    the query of the focus uri and opens the original document. *)
Definition refreshEditorsThen (editorInfos : list EditorInfo.t) : Callback :=
  fun state w =>
    let w := refreshFocusModeEditors editorInfos w in
    Commands.updateFilterTreeView state w.

(** [refreshEditors]. *)
Definition refreshEditors (state : Commands.State) (w : World.t)
  : Commands.State * World.t * list Callback :=
  match Commands.selectedProject state with
  | None => (state, w, [])
  | Some p =>
      if Nat.eqb (JsMap.size (Project.filters p)) 0 then (state, w, [])
      else
        let editorInfos :=
          map (fun editor => Commands.editorInfoOf editor w)
            (World.visibleTextEditors w) in
        let '(p, w) := Commands.applyFilterHighlights editorInfos p w in
        (Commands.mkState (Some p), w, [refreshEditorsThen editorInfos])
  end.

(** [setVisibility]. *)
Definition setVisibility (isShown : bool) (id : string)
    (state : Commands.State) (w : World.t)
  : Commands.State * World.t * list Callback :=
  let '(state, w) :=
    match Commands.selectedProject state with
    | None => (state, w)
    | Some p =>
        if String.prefix "group-" id then
          match JsMap.get id (Project.groups p) with
          | Some group =>
              let p :=
                Project.with_groups
                  (JsMap.set id (Group.with_isShown isShown group)
                     (Project.groups p)) p in
              let '(p, w) :=
                Commands.invokeEach (Group.filters group)
                  (Filter.set_isShown isShown) p w in
              (Commands.mkState (Some p), w)
          | None => (state, w)
          end
        else if String.prefix "filter-" id then
          let '(p, w) := Commands.invoke id (Filter.set_isShown isShown) p w in
          (Commands.mkState (Some p), w)
        else (state, w)
    end in
  refreshEditors state w.

(** [setHighlight]. *)
Definition setHighlight (isHighlighted : bool) (id : string)
    (state : Commands.State) (w : World.t)
  : Commands.State * World.t * list Callback :=
  let '(state, w) :=
    match Commands.selectedProject state with
    | None => (state, w)
    | Some p =>
        if String.prefix "group-" id then
          match JsMap.get id (Project.groups p) with
          | Some group =>
              let p :=
                Project.with_groups
                  (JsMap.set id (Group.with_isHighlighted isHighlighted group)
                     (Project.groups p)) p in
              let '(p, w) :=
                Commands.invokeEach (Group.filters group)
                  (Filter.set_isHighlighted isHighlighted) p w in
              (Commands.mkState (Some p), w)
          | None => (state, w)
          end
        else if String.prefix "filter-" id then
          let '(p, w) :=
            Commands.invoke id (Filter.set_isHighlighted isHighlighted) p w in
          (Commands.mkState (Some p), w)
        else (state, w)
    end in
  refreshEditors state w.

(** [setExclude]. *)
Definition setExclude (isExclude : bool) (id : string)
    (state : Commands.State) (w : World.t)
  : Commands.State * World.t * list Callback :=
  match Commands.selectedProject state with
  | None => (state, w, [])
  | Some p =>
      match JsMap.get id (Project.filters p) with
      | None => (state, w, [])
      | Some _ =>
          let '(p, w) :=
            Commands.invoke id (Filter.set_isExclude isExclude) p w in
          refreshEditors (Commands.mkState (Some p)) w
      end
  end.

(** [deleteFilter]. *)
Definition deleteFilter (treeItemId : string) (state : Commands.State)
    (w : World.t) : Commands.State * World.t * list Callback :=
  match Commands.selectedProject state with
  | None => (state, w, [])
  | Some p =>
      match JsMap.get treeItemId (Project.filters p) with
      | None => (state, w, [])
      | Some filter =>
          let p :=
            Project.with_filters
              (JsMap.delete treeItemId (Project.filters p)) p in
          let p :=
            Project.with_groups
              (map (fun '(key, group) =>
                      (key, Group.filters_delete treeItemId group))
                 (Project.groups p)) p in
          let '(_, w) := Filter.dispose filter w in
          let '(state, w, callbacks) :=
            refreshEditors (Commands.mkState (Some p)) w in
          (state, Commands.saveSettings w, callbacks)
      end
  end.

(** [addFilter]. *)
Definition addFilter (treeItemId : string) (regexStr : option string)
    (state : Commands.State) (w : World.t)
  : Commands.Outcome * Commands.State * World.t * list Callback :=
  match Commands.selectedProject state with
  | None => (Commands.Returned, state, w, [])
  | Some p =>
      match truthy regexStr, JsMap.get treeItemId (Project.groups p) with
      | Some regexStr, Some group =>
          match RegExp_new regexStr with
          | inl error => (Commands.Thrown error, state, w, [])
          | inr regex =>
              let '(filter, w) := Filter.new regex w in
              let group := Group.filters_set (Filter.id filter) group in
              let p :=
                Project.with_groups
                  (JsMap.set treeItemId group (Project.groups p)) p in
              let p :=
                Project.with_filters
                  (JsMap.set (Filter.id filter) filter (Project.filters p)) p in
              let '(state, w, callbacks) :=
                refreshEditors (Commands.mkState (Some p)) w in
              (Commands.Returned, state, Commands.saveSettings w, callbacks)
          end
      | _, _ => (Commands.Returned, state, w, [])
      end
  end.

(** [editFilter]. *)
Definition editFilter (treeItemId : string) (regexStr : option string)
    (state : Commands.State) (w : World.t)
  : Commands.Outcome * Commands.State * World.t * list Callback :=
  match Commands.selectedProject state with
  | None => (Commands.Returned, state, w, [])
  | Some p =>
      match JsMap.get treeItemId (Project.filters p) with
      | None => (Commands.Returned, state, w, [])
      | Some filter =>
          match regexStr with
          | None => (Commands.Returned, state, w, [])
          | Some regexStr =>
              if String.eqb regexStr (RegExp_source (Filter.regex filter))
              then (Commands.Returned, state, w, [])
              else
                match RegExp_new regexStr with
                | inl error =>
                    (Commands.Returned, state,
                     World.emit
                       (ShowErrorMessage ("Invalid Regex: " ++ error)%string)
                       w, [])
                | inr regex =>
                    let '(filter, w) := Filter.setRegex regex filter w in
                    let p :=
                      Project.with_filters
                        (JsMap.set treeItemId filter (Project.filters p)) p in
                    let '(state, w, callbacks) :=
                      refreshEditors (Commands.mkState (Some p)) w in
                    (Commands.Returned, state, Commands.saveSettings w,
                     callbacks)
                end
          end
      end
  end.

(** [deleteGroup]. *)
Definition deleteGroup (treeItemId : string) (state : Commands.State)
    (w : World.t) : Commands.State * World.t * list Callback :=
  match Commands.selectedProject state with
  | None => (state, w, [])
  | Some p0 =>
      match JsMap.get treeItemId (Project.groups p0) with
      | None => (state, w, [])
      | Some group =>
          let '(p, w) :=
            fold_left
              (fun '(p, w) key =>
                 match JsMap.get key (Project.filters p0) with
                 | Some filter =>
                     let p :=
                       Project.with_filters
                         (JsMap.delete (Filter.id filter) (Project.filters p))
                         p in
                     let '(_, w) := Filter.dispose filter w in
                     (p, w)
                 | None => (p, w)
                 end)
              (Group.filters group) (p0, w) in
          let p :=
            Project.with_groups
              (JsMap.delete treeItemId (Project.groups p)) p in
          let '(state, w, callbacks) :=
            refreshEditors (Commands.mkState (Some p)) w in
          (state, Commands.saveSettings w, callbacks)
      end
  end.

(** The event loop runs the callbacks that a command has left, in the
    order in which it has left them. *)
Definition settle (callbacks : list Callback) (state : Commands.State)
    (w : World.t) : World.t :=
  fold_left (fun w callback => callback state w) callbacks w.
End WithHost.
End EventLoop.

(* ================================================================== *)
(** * A small host to run the model on *)
(* ================================================================== *)

(** A host for the worked examples.  Its expressions are literal
    texts: [test] looks for the text in the line, and a pattern with
    an opening parenthesis does not compile.  The byte length is the
    length, the digest is the content, the clock advances by one
    second a reading. *)
Module ToyHost.
Fixpoint contains (needle hay : string) : bool :=
  String.prefix needle hay
  || match hay with
     | EmptyString => false
     | String _ rest => contains needle rest
     end.

Definition compile (s : string) : string + string :=
  if contains "(" s
  then inl ("SyntaxError: Invalid regular expression: /" ++ s
            ++ "/: Unterminated group")%string
  else inr s.

Definition host : Host := {|
  RegExp := string;
  RegExp_new := compile;
  RegExp_source := fun r => r;
  RegExp_test := contains;
  byteLength := fun s => Z.of_nat (String.length s);
  md5 := fun s => s;
  clock := fun i => (1000 * Z.of_nat i)%Z;
  random36 := fun _ => "x"%string
|}.

Definition document (uri text : string) (lines : list string)
  : TextDocument.t :=
  TextDocument.mk uri 1 text lines.

(** A world with one editor for every handle, all on [d]. *)
Definition world (d : TextDocument.t) : World.t :=
  World.mk 0 0 0 (fun _ => d) [0%nat] (Some 0%nat) [].
End ToyHost.

(* ================================================================== *)
(** * The vocabulary of the statements *)
(* ================================================================== *)

(** The comparators of the code are differences of a numeric key. *)
Definition compareBy (A : Type) (key : A -> Z) (a b : A) : Z :=
  (key a - key b)%Z.

(** The order that such a comparator sorts by. *)
Definition key_le (A : Type) (key : A -> Z) (a b : A) : Prop :=
  (key a <= key b)%Z.

Section Vocabulary.
Context {host : Host}.

Implicit Types (this : Filter.t) (w : World.t) (e : EditorCacheEntry.t).
Implicit Types (m : JsMap.t EditorCacheEntry.t) (k uri : string).
Local Open Scope nat_scope.

(** The numbers of the lines that [regex] matches, the first line
    being line [lineIndex]. *)
Fixpoint matchingFrom (regex : RegExp) (lines : list string) (lineIndex : nat)
  : list nat :=
  match lines with
  | [] => []
  | line :: rest =>
      if RegExp_test regex line
      then lineIndex :: matchingFrom regex rest (S lineIndex)
      else matchingFrom regex rest (S lineIndex)
  end.

(** The result of a scan of [text] from scratch. *)
Definition matchingLines (regex : RegExp) (text : string) : list nat :=
  matchingFrom regex (split_newline text) 0.

(** The world after [n] more calls of [regex.test]. *)
Definition tested (n : nat) (w : World.t) : World.t :=
  Nat.iter n World.next_test w.

(** What [getMatchedLineNumbers(originalUri)] answers when it is asked
    of each filter of [filters] in turn, in the order of the calls of
    [getVisibleLines]. *)
Definition matchedLinesOfEach (originalUri : string) (filters : list string)
    (this : FocusProvider.t) (w : World.t)
  : list (list nat) * FocusProvider.t * World.t :=
  fold_left
    (fun '(results, this, w) key =>
       let '(lineNumbers, this, w) :=
         FocusProvider.call [] key
           (Filter.getMatchedLineNumbers (Some originalUri)) this w in
       (results ++ [lineNumbers], this, w))
    filters ([], this, w).

(** The filters that the provider can ask, with their keys, in the
    order of the map of its project; none when the project is
    [null]. *)
Definition filtersOf (this : FocusProvider.t) : list (string * Filter.t) :=
  match this with
  | Some p => JsMap.entries (Project.filters p)
  | None => []
  end.

(** The keys of the filters of the provider that pass [test], in the
    order of the map. *)
Definition keysWhere (test : Filter.t -> bool) (this : FocusProvider.t)
  : list string :=
  map fst (filter (fun kv => test (snd kv)) (filtersOf this)).

(** [step] applied to every number of every result, in order. *)
Definition applyAll (step : nat -> JsSet.t -> JsSet.t)
    (results : list (list nat)) (s : JsSet.t) : JsSet.t :=
  fold_left (fun s lineNumbers => fold_left (fun s n => step n s) lineNumbers s)
    results s.

(** The test of [cleanupExpiredCache] at the reading [now]. *)
Definition expired (now : Z) e : bool :=
  (now - EditorCacheEntry.lastAnalyzed e >? Filter.cacheMaxAge)%Z.

(** Some entry of [es] under the key [k] has expired. *)
Definition expiredKey (now : Z) (es : JsMap.t EditorCacheEntry.t) k : bool :=
  existsb (fun kv => String.eqb (fst kv) k && expired now (snd kv)) es.

Definition maxAgeOf (isLargeFile : bool) : Z :=
  if isLargeFile then (Filter.cacheMaxAge / 2)%Z else Filter.cacheMaxAge.

(** The entry carries the version, the byte size and the digest of
    the document. *)
Definition fingerprintOf (document : TextDocument.t) e : Prop :=
  EditorCacheEntry.version e = TextDocument.version document
  /\ EditorCacheEntry.size e = byteLength (TextDocument.getText document)
  /\ EditorCacheEntry.contentHash e = md5 (TextDocument.getText document).

Definition stamp (kv : string * EditorCacheEntry.t) : Z :=
  EditorCacheEntry.lastAnalyzed (snd kv).

(** The entries of the cache, oldest first, as [enforceMaxCacheSize]
    sorts them. *)
Definition oldestFirst this : list (string * EditorCacheEntry.t) :=
  JsArray.sort (fun a b => (stamp a - stamp b)%Z)
    (JsMap.entries (Filter.editorCache this)).

(** The entries that [enforceMaxCacheSize] removes. *)
Definition evicted this : list (string * EditorCacheEntry.t) :=
  if Nat.leb (JsMap.size (Filter.editorCache this)) Filter.cacheMaxSize
  then []
  else firstn (JsMap.size (Filter.editorCache this) - Filter.cacheMaxSize)
         (oldestFirst this).

Definition kept this (key : string) : bool :=
  negb (existsb (String.eqb key) (map fst (evicted this))).

(** What [getCachedAnalysisOrCompute] does after the lookup has
    failed: the analysis, the stamp, the store and the eviction. *)
Definition recompute (editorUri : string) (editorInfo : EditorInfo.t)
    this w : EditorCacheEntry.t * Filter.t * World.t :=
  let '(newEntry, w) :=
    if EditorMetaData.isLargeFile (EditorInfo.metaData editorInfo)
    then Filter.computeOptimizedAnalysis editorInfo this w
    else Filter.computeAnalysis editorInfo this w in
  let '(now, w) := Date_now w in
  let newEntry := EditorCacheEntry.set_lastAnalyzed now newEntry in
  let this :=
    Filter.with_editorCache
      (JsMap.set editorUri newEntry (Filter.editorCache this)) this in
  let this := Filter.enforceMaxCacheSize this in
  (newEntry, this, w).

(** The entry that a recomputation in the world [w] builds. *)
Definition freshEntry (editorInfo : EditorInfo.t) this w : EditorCacheEntry.t :=
  let document := World.document (EditorInfo.editor editorInfo) w in
  let text := TextDocument.getText document in
  let found := matchingLines (Filter.regex this) text in
  EditorCacheEntry.mk (TextDocument.uri document)
    (TextDocument.version document) (byteLength text) (md5 text)
    (clock (World.tick w))
    (if EditorMetaData.isLargeFile (EditorInfo.metaData editorInfo)
     then firstn Filter.maxRanges (map Filter.wholeLineRange found)
     else map Filter.wholeLineRange found)
    found (length found) (clock (S (World.tick w))).

(** [e] is the result of a scan of [text] under [regex]. *)
Definition captured (regex : RegExp) e (text : string) : Prop :=
  EditorCacheEntry.contentHash e = md5 text
  /\ EditorCacheEntry.size e = byteLength text
  /\ EditorCacheEntry.matchedLineNumbers e = matchingLines regex text
  /\ EditorCacheEntry.count e = length (matchingLines regex text).

(** Every entry of the cache is the result of a scan under the
    current pattern. *)
Definition cache_sound this : Prop :=
  forall uri e,
    JsMap.get uri (Filter.editorCache this) = Some e ->
    exists text, captured (Filter.regex this) e text.

(** The invariant: the keys are distinct, there are at most
    [cacheMaxSize] entries, every entry is sound. *)
Definition cache_ok this : Prop :=
  JsMap.wf (Filter.editorCache this)
  /\ JsMap.size (Filter.editorCache this) <= Filter.cacheMaxSize
  /\ cache_sound this.

(** The queries of a filter, each in the world it is made in. *)
Inductive Query : Type :=
| Analyse (editorInfo : EditorInfo.t) (w : World.t)
| MatchedLines (editorUri : option string) (w : World.t)
| Process (editorInfo : EditorInfo.t) (w : World.t).

(** The filter after a query. *)
Definition afterQuery this (q : Query) : Filter.t :=
  match q with
  | Analyse editorInfo w =>
      snd (fst (Filter.getCachedAnalysisOrCompute editorInfo this w))
  | MatchedLines editorUri w =>
      snd (fst (Filter.getMatchedLineNumbers editorUri this w))
  | Process editorInfo w => fst (Filter.processEditor editorInfo this w)
  end.

(** The filters that the public methods of the class produce from
    [new Filter(regex)]. *)
Inductive reachable : Filter.t -> Prop :=
| reach_new regex w : reachable (fst (Filter.new regex w))
| reach_query this q : reachable this -> reachable (afterQuery this q)
| reach_setRegex this regex w :
    reachable this -> reachable (fst (Filter.setRegex regex this w))
| reach_clearCache this editorUri :
    reachable this -> reachable (Filter.clearCache editorUri this)
| reach_clearProcessing this editorUri w :
    reachable this -> reachable (fst (Filter.clearProcessing editorUri this w))
| reach_removeEditor this editorUri w :
    reachable this -> reachable (fst (Filter.removeEditor editorUri this w))
| reach_dispose this w :
    reachable this -> reachable (fst (Filter.dispose this w))
| reach_isHighlighted this value w :
    reachable this -> reachable (fst (Filter.set_isHighlighted value this w))
| reach_isShown this value w :
    reachable this -> reachable (fst (Filter.set_isShown value this w))
| reach_isExclude this value w :
    reachable this -> reachable (fst (Filter.set_isExclude value this w)).

End Vocabulary.

(** ** The vocabulary of the further statements: the filter *)

Section FilterVocabulary.
Context {host : Host}.

Implicit Types (this : Filter.t) (w : World.t) (e : EditorCacheEntry.t).
Local Open Scope nat_scope.

(** In [w] the text of a document is the one that [content] gives for
    its uri and its version: the editor changes the version of a
    document whenever it changes its text. *)
Definition versioned (content : string -> Z -> string) w : Prop :=
  forall editor,
    TextDocument.getText (World.document editor w)
    = content (TextDocument.uri (World.document editor w))
        (TextDocument.version (World.document editor w)).

(** [e] holds the result of a scan of [text] under [regex]: the line
    numbers, their count, and the ranges of all the matching lines or
    of the first [maxRanges] of them. *)
Definition exactFor (regex : RegExp) e (text : string) : Prop :=
  EditorCacheEntry.matchedLineNumbers e = matchingLines regex text
  /\ EditorCacheEntry.count e = length (matchingLines regex text)
  /\ (EditorCacheEntry.matchedRanges e
      = map Filter.wholeLineRange (matchingLines regex text)
      \/ EditorCacheEntry.matchedRanges e
         = firstn Filter.maxRanges
             (map Filter.wholeLineRange (matchingLines regex text))).

(** Every entry of the cache holds the result of a scan of the text
    that [content] gives for its key and its version. *)
Definition cache_exact (content : string -> Z -> string) this : Prop :=
  forall uri e,
    JsMap.get uri (Filter.editorCache this) = Some e ->
    exactFor (Filter.regex this) e (content uri (EditorCacheEntry.version e)).

(** The world that a query is made in. *)
Definition queryWorld (q : Query) : World.t :=
  match q with
  | Analyse _ w => w
  | MatchedLines _ w => w
  | Process _ w => w
  end.

(** [w'] is [w] after readings of the clock and calls of
    [regex.test]: nothing else has changed. *)
Definition advanced w w' : Prop :=
  World.draws w' = World.draws w
  /\ World.documents w' = World.documents w
  /\ World.visibleTextEditors w' = World.visibleTextEditors w
  /\ World.activeTextEditor w' = World.activeTextEditor w
  /\ World.trace w' = World.trace w.

(** [f'] is [f] but for the content of its cache. *)
Definition cache_only (f f' : Filter.t) : Prop :=
  f' = Filter.with_editorCache (Filter.editorCache f') f.

(** An event that colours lines: [setDecorations] with a range. *)
Definition highlights (ev : Event) : bool :=
  match ev with
  | SetDecorations _ _ (_ :: _) => true
  | _ => false
  end.

(** [w'] is [w] after events that colour no line, readings of the
    clock and calls of [regex.test]. *)
Definition quietly w w' : Prop :=
  World.draws w' = World.draws w
  /\ World.documents w' = World.documents w
  /\ World.visibleTextEditors w' = World.visibleTextEditors w
  /\ World.activeTextEditor w' = World.activeTextEditor w
  /\ exists events,
       World.trace w' = World.trace w ++ events
       /\ Forall (fun ev => highlights ev = false) events.

(** The calls of the public methods of a filter. *)
Inductive Call : Type :=
| CallProcessEditor (editorInfo : EditorInfo.t)
| CallGetMatchedLineNumbers (editorUri : option string)
| CallSetRegex (newRegex : RegExp)
| CallSetIsHighlighted (value : bool)
| CallSetIsShown (value : bool)
| CallSetIsExclude (value : bool)
| CallClearProcessing (editorUri : option string)
| CallRemoveEditor (editorUri : string)
| CallClearCache (editorUri : option string)
| CallDispose.

Definition perform (c : Call) this w : Filter.t * World.t :=
  match c with
  | CallProcessEditor editorInfo => Filter.processEditor editorInfo this w
  | CallGetMatchedLineNumbers editorUri =>
      let '(_, this, w) := Filter.getMatchedLineNumbers editorUri this w in
      (this, w)
  | CallSetRegex newRegex => Filter.setRegex newRegex this w
  | CallSetIsHighlighted value => Filter.set_isHighlighted value this w
  | CallSetIsShown value => Filter.set_isShown value this w
  | CallSetIsExclude value => Filter.set_isExclude value this w
  | CallClearProcessing editorUri => Filter.clearProcessing editorUri this w
  | CallRemoveEditor editorUri => Filter.removeEditor editorUri this w
  | CallClearCache editorUri => (Filter.clearCache editorUri this, w)
  | CallDispose => Filter.dispose this w
  end.

(** An event on a decoration type: its creation, its disposal, its
    application to an editor. *)
Definition isDecoration (ev : Event) : bool :=
  match ev with
  | CreateDecoration _ | DisposeDecoration _ | SetDecorations _ _ _ => true
  | _ => false
  end.

(** [w'] is [w] after events on decoration types only. *)
Definition decorating w w' : Prop :=
  exists events,
    World.trace w' = World.trace w ++ events
    /\ Forall (fun ev => isDecoration ev = true) events.
End FilterVocabulary.

(** ** The vocabulary of the further statements: the project *)

Section ProjectVocabulary.
Context {host : Host}.

Implicit Types (p : Project.t) (w : World.t).
Local Open Scope nat_scope.

(** [p'] is [p] but for the caches of the filters under the keys of
    [asked]. *)
Definition caches_only (asked : list string) (p p' : Project.t) : Prop :=
  Project.groups p' = Project.groups p
  /\ Project.name p' = Project.name p
  /\ Project.id p' = Project.id p
  /\ Project.selected p' = Project.selected p
  /\ JsMap.keys (Project.filters p') = JsMap.keys (Project.filters p)
  /\ forall key f,
       JsMap.get key (Project.filters p) = Some f ->
       exists f',
         JsMap.get key (Project.filters p') = Some f'
         /\ cache_only f f'
         /\ (~ In key asked -> f' = f).

(** What the user has set on a filter: its pattern and its three
    flags, with the id of the filter. *)
Definition settings (f : Filter.t) : string * RegExp * bool * bool * bool :=
  (Filter.id f, Filter.regex f, Filter.isHighlighted f, Filter.isShown f,
   Filter.isExclude f).

(** The settings of the filter under [key], if the project has one. *)
Definition settingsOf (p : Project.t) (key : string)
  : option (string * RegExp * bool * bool * bool) :=
  option_map settings (JsMap.get key (Project.filters p)).

(** [p'] has the groups and the keys of [p]. *)
Definition same_shape (p p' : Project.t) : Prop :=
  Project.groups p' = Project.groups p
  /\ Project.name p' = Project.name p
  /\ Project.id p' = Project.id p
  /\ Project.selected p' = Project.selected p
  /\ JsMap.keys (Project.filters p') = JsMap.keys (Project.filters p).

(** The filters that a command on the tree item [id] applies to: the
    members of the group when [id] is the id of a group, the filter
    itself when it is the id of a filter. *)
Definition targetsOf (p : Project.t) (id : string) : list string :=
  if String.prefix "group-" id then
    match JsMap.get id (Project.groups p) with
    | Some group => Group.filters group
    | None => []
    end
  else if String.prefix "filter-" id then [id]
  else [].

(** The groups of [p] after [update] has been applied to the group
    that [id] names, if it names one. *)
Definition groupsAfter (update : Group.t -> Group.t) (p : Project.t)
    (id : string) : JsMap.t Group.t :=
  if String.prefix "group-" id then
    match JsMap.get id (Project.groups p) with
    | Some group => JsMap.set id (update group) (Project.groups p)
    | None => Project.groups p
    end
  else Project.groups p.

(** The commands on the selected project. *)
Inductive Command : Type :=
| RefreshEditors
| SetVisibility (isShown : bool) (id : string)
| SetHighlight (isHighlighted : bool) (id : string)
| SetExclude (isExclude : bool) (id : string)
| AddFilter (treeItemId : string) (regexStr : option string)
| EditFilter (treeItemId : string) (regexStr : option string)
| DeleteFilter (treeItemId : string)
| AddGroup (name : option string)
| EditGroup (treeItemId : string) (name : option string)
| DeleteGroup (treeItemId : string).

(** The state and the world after a command. *)
Definition run (c : Command) (state : Commands.State) (w : World.t)
  : Commands.State * World.t :=
  match c with
  | RefreshEditors => Commands.refreshEditors state w
  | SetVisibility isShown id => Commands.setVisibility isShown id state w
  | SetHighlight isHighlighted id =>
      Commands.setHighlight isHighlighted id state w
  | SetExclude isExclude id => Commands.setExclude isExclude id state w
  | AddFilter treeItemId regexStr =>
      let '(_, state, w) := Commands.addFilter treeItemId regexStr state w in
      (state, w)
  | EditFilter treeItemId regexStr =>
      let '(_, state, w) := Commands.editFilter treeItemId regexStr state w in
      (state, w)
  | DeleteFilter treeItemId => Commands.deleteFilter treeItemId state w
  | AddGroup name => Commands.addGroup name state w
  | EditGroup treeItemId name => Commands.editGroup treeItemId name state w
  | DeleteGroup treeItemId => Commands.deleteGroup treeItemId state w
  end.

(** The state and the world when a command returns, with the
    callbacks that it has left to the event loop. *)
Definition scheduled (c : Command) (state : Commands.State) (w : World.t)
  : Commands.State * World.t * list EventLoop.Callback :=
  match c with
  | RefreshEditors => EventLoop.refreshEditors state w
  | SetVisibility isShown id => EventLoop.setVisibility isShown id state w
  | SetHighlight isHighlighted id =>
      EventLoop.setHighlight isHighlighted id state w
  | SetExclude isExclude id => EventLoop.setExclude isExclude id state w
  | AddFilter treeItemId regexStr =>
      let '(_, state, w, callbacks) :=
        EventLoop.addFilter treeItemId regexStr state w in
      (state, w, callbacks)
  | EditFilter treeItemId regexStr =>
      let '(_, state, w, callbacks) :=
        EventLoop.editFilter treeItemId regexStr state w in
      (state, w, callbacks)
  | DeleteFilter treeItemId => EventLoop.deleteFilter treeItemId state w
  | AddGroup name => (Commands.addGroup name state w, [])
  | EditGroup treeItemId name =>
      (Commands.editGroup treeItemId name state w, [])
  | DeleteGroup treeItemId => EventLoop.deleteGroup treeItemId state w
  end.

(** Every callback of [callbacks] is a callback of [refreshEditors]. *)
Definition fromRefresh (callbacks : list EventLoop.Callback) : Prop :=
  forall callback,
    In callback callbacks ->
    exists editorInfos, callback = EventLoop.refreshEditorsThen editorInfos.

(** Events of the views only: the refresh of a focus document, the
    update of the tree of the filters. *)
Definition ofViews (events : list Event) : Prop :=
  Forall (fun ev => ev = UpdateFilterTreeView \/ exists editor, ev = Refresh editor)
    events.

(** The id that [generateId] gives to a new filter or group is not
    the id of one that the project has. *)
Definition freshId (c : Command) (state : Commands.State) (w : World.t)
  : Prop :=
  match c, Commands.selectedProject state with
  | AddFilter _ _, Some p =>
      JsMap.get (fst (generateId "filter" w)) (Project.filters p) = None
  | AddGroup _, Some p =>
      JsMap.get (fst (generateId "group" w)) (Project.groups p) = None
  | _, _ => True
  end.

(** The filters of a project are the filters of its groups: every
    filter is stored under its id, with a cache that satisfies its
    invariant, and is a member of one group; every group is stored
    under its id, and its members are filters of the project. *)
Definition consistent (p : Project.t) : Prop :=
  JsMap.wf (Project.filters p)
  /\ JsMap.wf (Project.groups p)
  /\ (forall key f,
         JsMap.get key (Project.filters p) = Some f ->
         Filter.id f = key /\ cache_ok f)
  /\ (forall groupId group,
         JsMap.get groupId (Project.groups p) = Some group ->
         Group.id group = groupId /\ NoDup (Group.filters group))
  /\ (forall key,
         JsMap.get key (Project.filters p) <> None
         <-> exists groupId group,
               JsMap.get groupId (Project.groups p) = Some group
               /\ In key (Group.filters group))
  /\ (forall groupId1 group1 groupId2 group2 key,
         JsMap.get groupId1 (Project.groups p) = Some group1 ->
         JsMap.get groupId2 (Project.groups p) = Some group2 ->
         In key (Group.filters group1) ->
         In key (Group.filters group2) ->
         groupId1 = groupId2).

Definition consistentState (state : Commands.State) : Prop :=
  match Commands.selectedProject state with
  | Some p => consistent p
  | None => True
  end.

(** The commands that change what is stored in the settings: the
    filters, their patterns and the groups. *)
Definition structural (c : Command) : bool :=
  match c with
  | AddFilter _ _ | EditFilter _ _ | DeleteFilter _
  | AddGroup _ | EditGroup _ _ | DeleteGroup _ => true
  | _ => false
  end.
End ProjectVocabulary.

(* ================================================================== *)
(** * Worked examples on the small host *)
(* ================================================================== *)

Module Example.
Local Open Scope nat_scope.
Local Open Scope string_scope.

Definition nl : string := String newline EmptyString.

(** A document of four lines, 0 to 3. *)
Definition uri : string := "file:///a.log".
Definition text : string := "x" ++ nl ++ "a b" ++ nl ++ "b" ++ nl ++ "x".
Definition document : TextDocument.t :=
  ToyHost.document uri text (split_newline text).
Definition world : World.t := ToyHost.world document.
Definition editorInfo : EditorInfo.t :=
  EditorInfo.mk 0 uri (EditorMetaData.mk 4 false false true).

(** The same editor, taken as a large file. *)
Definition largeEditorInfo : EditorInfo.t :=
  EditorInfo.mk 0 uri (EditorMetaData.mk 4 true false true).

(** A filter for [pattern] that has processed the editor. *)
Definition filter (id pattern : string) (exclude : bool)
  : @Filter.t ToyHost.host :=
  fst (Filter.processEditor editorInfo
         (@Filter.mk ToyHost.host pattern id true true exclude 0 false [] [] [] 0)
         world).

(** The entry that the filter for "a" holds for the document. *)
Definition entry : EditorCacheEntry.t :=
  EditorCacheEntry.mk uri 1 9 text 1000 [mkRange 1 0 1 0] [1] 1 2000.

Definition project (filters : JsMap.t (@Filter.t ToyHost.host))
  : @Project.t ToyHost.host :=
  Project.mk filters [("group-1", Group.mk [] true true "group" "group-1")]
    "p" "p" true.

(** "a" matches line 1, "b" matches the lines 1 and 2. *)
Definition mixed : @FocusProvider.t ToyHost.host :=
  Some (project [("f1", filter "f1" "a" false); ("f2", filter "f2" "b" true)]).

Definition excludeOnly : @FocusProvider.t ToyHost.host :=
  Some (project [("f2", filter "f2" "b" true)]).

Definition includeOnly : @FocusProvider.t ToyHost.host :=
  Some (project [("f1", filter "f1" "a" false); ("f2", filter "f2" "b" false)]).

Definition hidden : @FocusProvider.t ToyHost.host :=
  Some (project
          [("f1", Filter.with_isShown false (filter "f1" "a" false));
           ("f2", Filter.with_isShown false (filter "f2" "b" true))]).

(** The document after it has lost its last two lines, while the
    filters still hold what they found in four. *)
Definition shrunk : TextDocument.t :=
  TextDocument.mk uri 2 ("x" ++ nl ++ "a b") ["x"; "a b"].

(** A second document, in a second editor, three minutes and twenty
    seconds after the first was analysed. *)
Definition otherDocument : TextDocument.t :=
  ToyHost.document "file:///b.log" "b" ["b"].
Definition otherEditorInfo : EditorInfo.t :=
  EditorInfo.mk 1 "file:///b.log" (EditorMetaData.mk 1 false false false).
Definition laterWorld : World.t :=
  World.mk 202 0 0
    (fun editor => if Nat.eqb editor 0 then document else otherDocument)
    [0; 1] (Some 1) [].

(** A filter whose cache holds eleven entries, the stamps 1000 to
    11000. *)
Definition crowded : @Filter.t ToyHost.host :=
  @Filter.mk ToyHost.host "a" "f" true true false 0 false [] []
    (map (fun i =>
            (string_of_Z (Z.of_nat i),
             EditorCacheEntry.mk (string_of_Z (Z.of_nat i)) 1 0 "" 0 [] [] 0
               (1000 * Z.of_nat i)%Z))
       (rev (seq 1 11)))
    0.

Definition state : @Commands.State ToyHost.host :=
  Commands.mkState (Some (project [("f1", filter "f1" "a" false)])).

(** A large document: ten thousand lines, each a match. *)
Definition manyLines : TextDocument.t :=
  ToyHost.document "file:///big.log" (JsArray.join nl (repeat "e" (100 * 100))) [].
End Example.

(** Inputs for the theorems on the commands. *)
Module Sample.
Local Open Scope nat_scope.
Local Open Scope string_scope.

(** A new filter for "a": it has processed no editor. *)
Definition fresh : @Filter.t ToyHost.host :=
  fst (@Filter.new ToyHost.host "a" Example.world).

(** The text that every document of [Example.world] has. *)
Definition content (uri : string) (version : Z) : string := Example.text.

(** A project with one group and no filter. *)
Definition emptyProject : @Project.t ToyHost.host := Example.project [].

(** A project whose group holds its two filters. *)
Definition project : @Project.t ToyHost.host :=
  Project.mk
    [("f1", Example.filter "f1" "a" false); ("f2", Example.filter "f2" "b" true)]
    [("group-1", Group.mk ["f1"; "f2"] true true "group" "group-1")]
    "p" "p" true.

(** A document that no editor shows. *)
Definition unseen : string := "file:///c.log".
End Sample.

(* ================================================================== *)
(** * Facts about the collections *)
(* ================================================================== *)

Local Open Scope nat_scope.

Section SortFacts.
Variable A : Type.
Variable key : A -> Z.

Lemma insert_perm (x : A) (l : list A) :
  Permutation (JsArray.insert (compareBy key) x l) (x :: l).
Proof.
  induction l as [|y l IH]; simpl; [reflexivity|].
  destruct ((compareBy key) x y <=? 0)%Z; [reflexivity|].
  rewrite IH. apply perm_swap.
Qed.

Lemma sort_perm (l : list A) : Permutation (JsArray.sort (compareBy key) l) l.
Proof.
  induction l as [|x l IH]; simpl; [reflexivity|].
  rewrite insert_perm. now apply perm_skip.
Qed.

Lemma sort_length (l : list A) :
  length (JsArray.sort (compareBy key) l) = length l.
Proof. apply Permutation_length, sort_perm. Qed.

Lemma sort_In (l : list A) (x : A) :
  In x (JsArray.sort (compareBy key) l) <-> In x l.
Proof.
  split; apply Permutation_in; [apply sort_perm|].
  apply Permutation_sym, sort_perm.
Qed.

Lemma insert_sorted (x : A) (l : list A) :
  StronglySorted (key_le key) l ->
  StronglySorted (key_le key) (JsArray.insert (compareBy key) x l).
Proof.
  induction 1 as [|y l Hl IH Hy]; simpl.
  - repeat constructor.
  - unfold compareBy at 1.
    destruct (Z.leb_spec (key x - key y) 0) as [Hle|Hgt].
    + constructor; [now constructor|].
      constructor; [unfold key_le; lia|].
      eapply Forall_impl; [|exact Hy]. unfold key_le. intros; lia.
    + constructor; [exact IH|].
      rewrite Forall_forall. intros z Hz.
      apply (Permutation_in _ (insert_perm x l)) in Hz.
      destruct Hz as [<-|Hz]; [unfold key_le; lia|].
      rewrite Forall_forall in Hy. now apply Hy.
Qed.

Lemma sort_sorted (l : list A) :
  StronglySorted (key_le key) (JsArray.sort (compareBy key) l).
Proof.
  induction l as [|x l IH]; simpl; [constructor|].
  now apply insert_sorted.
Qed.

End SortFacts.

Lemma StronglySorted_impl (A : Type) (R S : A -> A -> Prop) (l : list A) :
  (forall a b, R a b -> S a b) -> StronglySorted R l -> StronglySorted S l.
Proof.
  intros HRS. induction 1 as [|a l Hl IH Ha]; constructor; [exact IH|].
  eapply Forall_impl; [|exact Ha]. auto.
Qed.

(** Sorting numbers with [(a, b) => a - b]. *)
Lemma sort_numbers_perm (l : list nat) :
  Permutation (JsArray.sort FocusProvider.compareNumbers l) l.
Proof. apply (sort_perm Z.of_nat). Qed.

Lemma sort_numbers_In (l : list nat) (n : nat) :
  In n (JsArray.sort FocusProvider.compareNumbers l) <-> In n l.
Proof. apply (sort_In Z.of_nat). Qed.

Lemma sort_numbers_sorted (l : list nat) :
  StronglySorted le (JsArray.sort FocusProvider.compareNumbers l).
Proof.
  eapply StronglySorted_impl; [|apply (sort_sorted Z.of_nat l)].
  unfold key_le. intros; lia.
Qed.

Lemma sorted_le_NoDup_lt (l : list nat) :
  StronglySorted le l -> NoDup l -> StronglySorted lt l.
Proof.
  induction 1 as [|a l Hl IH Ha]; intros Hnd; constructor.
  - apply IH. now inversion Hnd.
  - inversion Hnd as [|? ? Hnotin _]; subst.
    rewrite Forall_forall in *. intros x Hx.
    specialize (Ha x Hx).
    assert (a <> x) by (intros ->; contradiction). lia.
Qed.

Lemma sort_numbers_strict (l : list nat) :
  NoDup l -> StronglySorted lt (JsArray.sort FocusProvider.compareNumbers l).
Proof.
  intros Hnd. apply sorted_le_NoDup_lt; [apply sort_numbers_sorted|].
  eapply Permutation_NoDup; [|exact Hnd].
  apply Permutation_sym, sort_numbers_perm.
Qed.

(** Two strictly ascending arrays with the same elements are equal. *)
Lemma strict_sorted_ext (l1 l2 : list nat) :
  StronglySorted lt l1 -> StronglySorted lt l2 ->
  (forall n, In n l1 <-> In n l2) -> l1 = l2.
Proof.
  intros H1. revert l2.
  induction H1 as [|a l1 Hl1 IH Ha]; intros l2 H2 Hin.
  - destruct l2 as [|b l2]; [reflexivity|].
    exfalso. apply (Hin b). now left.
  - destruct H2 as [|b l2 Hl2 Hb].
    + exfalso. apply (Hin a). now left.
    + rewrite Forall_forall in Ha, Hb.
      assert (a = b) as ->.
      { assert (In a (b :: l2)) as [->|Hab] by (apply Hin; now left);
          [reflexivity|].
        assert (In b (a :: l1)) as [->|Hba] by (apply Hin; now left);
          [reflexivity|].
        specialize (Ha _ Hba). specialize (Hb _ Hab). lia. }
      f_equal. apply IH; [exact Hl2|].
      intros n; split; intros Hn.
      * assert (In n (b :: l2)) as [->|?] by (apply Hin; now right);
          [|assumption].
        specialize (Ha _ Hn). lia.
      * assert (In n (b :: l1)) as [->|?] by (apply Hin; now right);
          [|assumption].
        specialize (Hb _ Hn). lia.
Qed.

(** ** Sets of numbers *)

Lemma JsSet_has_In (n : nat) (s : JsSet.t) : JsSet.has n s = true <-> In n s.
Proof.
  unfold JsSet.has. rewrite existsb_exists. split.
  - intros (m & Hm & Heq). apply Nat.eqb_eq in Heq. now subst.
  - intros H. exists n. split; [exact H|apply Nat.eqb_refl].
Qed.

Lemma JsSet_add_In (n m : nat) (s : JsSet.t) :
  In n (JsSet.add m s) <-> n = m \/ In n s.
Proof.
  unfold JsSet.add. destruct (JsSet.has m s) eqn:E.
  - apply JsSet_has_In in E. split; [auto|]. intros [->|H]; assumption.
  - rewrite in_app_iff. simpl. intuition.
Qed.

Lemma JsSet_add_NoDup (m : nat) (s : JsSet.t) : NoDup s -> NoDup (JsSet.add m s).
Proof.
  intros H. unfold JsSet.add. destruct (JsSet.has m s) eqn:E; [exact H|].
  assert (~ In m s) as Hm.
  { intros Hin. apply JsSet_has_In in Hin. congruence. }
  clear E. induction H as [|a s Ha Hs IH]; simpl.
  - constructor; [intros []|constructor].
  - constructor.
    + rewrite in_app_iff. simpl. intros [?|[->|[]]]; [contradiction|].
      apply Hm. now left.
    + apply IH. intros ?. apply Hm. now right.
Qed.

Lemma JsSet_delete_In (n m : nat) (s : JsSet.t) :
  In n (JsSet.delete m s) <-> n <> m /\ In n s.
Proof.
  unfold JsSet.delete. rewrite filter_In, negb_true_iff, Nat.eqb_neq.
  intuition.
Qed.

Lemma JsSet_delete_NoDup (m : nat) (s : JsSet.t) :
  NoDup s -> NoDup (JsSet.delete m s).
Proof. apply NoDup_filter. Qed.

Lemma JsSet_add_all_In (ns : list nat) (s : JsSet.t) (n : nat) :
  In n (fold_left (fun s i => JsSet.add i s) ns s) <-> In n ns \/ In n s.
Proof.
  revert s. induction ns as [|a ns IH]; intros s; simpl; [intuition|].
  rewrite IH, JsSet_add_In. intuition.
Qed.

Lemma JsSet_add_all_NoDup (ns : list nat) (s : JsSet.t) :
  NoDup s -> NoDup (fold_left (fun s i => JsSet.add i s) ns s).
Proof.
  revert s. induction ns as [|a ns IH]; intros s H; simpl; [exact H|].
  apply IH. now apply JsSet_add_NoDup.
Qed.

Lemma JsSet_delete_all_In (ns : list nat) (s : JsSet.t) (n : nat) :
  In n (fold_left (fun s i => JsSet.delete i s) ns s) <-> In n s /\ ~ In n ns.
Proof.
  revert s. induction ns as [|a ns IH]; intros s; simpl; [intuition|].
  rewrite IH, JsSet_delete_In. intuition.
Qed.

Lemma JsSet_delete_all_NoDup (ns : list nat) (s : JsSet.t) :
  NoDup s -> NoDup (fold_left (fun s i => JsSet.delete i s) ns s).
Proof.
  revert s. induction ns as [|a ns IH]; intros s H; simpl; [exact H|].
  apply IH. now apply JsSet_delete_NoDup.
Qed.

(* ================================================================== *)
(** * The view composition (C1, C2, C10) *)
(* ================================================================== *)

Section ViewComposition.
Context {host : Host}.

Lemma forEachMatchedLine_from step originalUri filters :
  forall results this w s0,
    let '(results', this', w') :=
      fold_left
        (fun '(results, this, w) key =>
           let '(lineNumbers, this, w) :=
             FocusProvider.call [] key
               (Filter.getMatchedLineNumbers (Some originalUri)) this w in
           (results ++ [lineNumbers], this, w))
        filters (results, this, w) in
    FocusProvider.forEachMatchedLine step originalUri filters
      (applyAll step results s0) this w
    = (applyAll step results' s0, this', w').
Proof.
  unfold FocusProvider.forEachMatchedLine.
  induction filters as [|key filters IH]; intros results this w s0; simpl.
  - reflexivity.
  - destruct (FocusProvider.call [] key
                (Filter.getMatchedLineNumbers (Some originalUri)) this w)
      as [[lineNumbers this1] w1] eqn:E.
    specialize (IH (results ++ [lineNumbers]) this1 w1 s0).
    destruct (fold_left _ filters (results ++ [lineNumbers], this1, w1))
      as [[results' this'] w'].
    rewrite <- IH. f_equal. unfold applyAll.
    now rewrite fold_left_app.
Qed.

Lemma forEachMatchedLine_spec step originalUri filters s0 this w :
  FocusProvider.forEachMatchedLine step originalUri filters s0 this w
  = let '(results, this', w') :=
      matchedLinesOfEach originalUri filters this w in
    (applyAll step results s0, this', w').
Proof.
  pose proof (forEachMatchedLine_from step originalUri filters [] this w s0)
    as H.
  unfold matchedLinesOfEach.
  destruct (fold_left _ filters ([], this, w)) as [[results this'] w'].
  exact H.
Qed.

Lemma applyAll_add_In (results : list (list nat)) (s : JsSet.t) (n : nat) :
  In n (applyAll JsSet.add results s)
  <-> (exists lineNumbers, In lineNumbers results /\ In n lineNumbers) \/ In n s.
Proof.
  unfold applyAll. revert s.
  induction results as [|r results IH]; intros s; simpl.
  - split; [auto|]. intros [(? & [] & _)|H]; exact H.
  - rewrite IH, JsSet_add_all_In. split.
    + intros [(l & Hl & Hn)|[Hn|Hn]]; eauto 6.
    + intros [(l & [<-|Hl] & Hn)|Hn]; eauto 6.
Qed.

Lemma applyAll_add_NoDup (results : list (list nat)) (s : JsSet.t) :
  NoDup s -> NoDup (applyAll JsSet.add results s).
Proof.
  unfold applyAll. revert s.
  induction results as [|r results IH]; intros s H; simpl; [exact H|].
  apply IH. now apply JsSet_add_all_NoDup.
Qed.

Lemma applyAll_delete_In (results : list (list nat)) (s : JsSet.t) (n : nat) :
  In n (applyAll JsSet.delete results s)
  <-> In n s /\ forall lineNumbers, In lineNumbers results -> ~ In n lineNumbers.
Proof.
  unfold applyAll. revert s.
  induction results as [|r results IH]; intros s; simpl.
  - split; [intros H; split; [exact H|intros ? []]|intros [H _]; exact H].
  - rewrite IH, JsSet_delete_all_In. split.
    + intros [[Hs Hr] Hrest]. split; [exact Hs|].
      intros l [<-|Hl]; [exact Hr|now apply Hrest].
    + intros [Hs Hall]. repeat split; [exact Hs|apply Hall; now left|].
      intros l Hl. apply Hall. now right.
Qed.

Lemma applyAll_delete_NoDup (results : list (list nat)) (s : JsSet.t) :
  NoDup s -> NoDup (applyAll JsSet.delete results s).
Proof.
  unfold applyAll. revert s.
  induction results as [|r results IH]; intros s H; simpl; [exact H|].
  apply IH. now apply JsSet_delete_all_NoDup.
Qed.

(** The set that the loop [for (i = 0; i < lineCount; i++) add(i)]
    builds. *)
Lemma all_lines_In (lineCount n : nat) :
  In n (fold_left (fun s i => JsSet.add i s) (seq 0 lineCount) JsSet.empty)
  <-> n < lineCount.
Proof.
  rewrite JsSet_add_all_In, in_seq. unfold JsSet.empty. simpl. lia.
Qed.

Lemma all_lines_NoDup (lineCount : nat) :
  NoDup (fold_left (fun s i => JsSet.add i s) (seq 0 lineCount) JsSet.empty).
Proof. apply JsSet_add_all_NoDup. constructor. Qed.

Lemma getActiveFilters_from (entries : list (string * Filter.t)) :
  forall positiveFilters excludeFilters,
    fold_left
      (fun '(positiveFilters, excludeFilters) '(key, filter) =>
         if Filter.isShown filter then
           if Filter.isExclude filter
           then (positiveFilters, excludeFilters ++ [key])
           else (positiveFilters ++ [key], excludeFilters)
         else (positiveFilters, excludeFilters))
      entries (positiveFilters, excludeFilters)
    = (positiveFilters
       ++ map fst
            (filter (fun kv => Filter.isShown (snd kv)
                               && negb (Filter.isExclude (snd kv))) entries),
       excludeFilters
       ++ map fst
            (filter (fun kv => Filter.isShown (snd kv)
                               && Filter.isExclude (snd kv)) entries)).
Proof.
  induction entries as [|[key f] entries IH];
    intros positiveFilters excludeFilters; cbn [fold_left].
  - cbn. now rewrite !app_nil_r.
  - cbn [filter fst snd].
    destruct (Filter.isShown f), (Filter.isExclude f); rewrite IH; cbn;
      now rewrite <- ?app_assoc.
Qed.

(** [getActiveFilters] by the flags: the positive filters are the
    filters that are shown and are not exclude filters, the exclude
    filters are those that are shown and are exclude filters. *)
Lemma getActiveFilters_flags (this : FocusProvider.t) :
  FocusProvider.getActiveFilters this
  = (keysWhere (fun f => Filter.isShown f && negb (Filter.isExclude f)) this,
     keysWhere (fun f => Filter.isShown f && Filter.isExclude f) this).
Proof.
  unfold FocusProvider.getActiveFilters, keysWhere, filtersOf.
  destruct this as [p|]; [|reflexivity].
  now rewrite getActiveFilters_from.
Qed.

Lemma keysWhere_nonempty (test : Filter.t -> bool) (this : FocusProvider.t)
    (key : string) (f : Filter.t) :
  In (key, f) (filtersOf this) -> test f = true -> keysWhere test this <> [].
Proof.
  intros Hin Htest Hnil. unfold keysWhere in Hnil.
  apply map_eq_nil in Hnil.
  assert (In (key, f) (filter (fun kv => test (snd kv)) (filtersOf this)))
    as H by (apply filter_In; now split).
  rewrite Hnil in H. destruct H.
Qed.

Lemma keysWhere_empty (test : Filter.t -> bool) (this : FocusProvider.t) :
  (forall key f, In (key, f) (filtersOf this) -> test f = false) ->
  keysWhere test this = [].
Proof.
  intros Hall. unfold keysWhere.
  induction (filtersOf this) as [|[key f] entries IH]; [reflexivity|].
  cbn [filter snd]. rewrite (Hall key f) by now left.
  apply IH. intros key' f' Hin. apply (Hall key' f'). now right.
Qed.

(** C1. When the project has a positive filter, a filter with
    [isShown] true and [isExclude] false, [getVisibleLines] returns,
    strictly ascending, exactly the line numbers that
    [getMatchedLineNumbers] answers for the filters that are shown
    and are not exclude filters; what the exclude filters match takes
    nothing away, they are not even asked. *)
Theorem getVisibleLines_positive (originalUri : string)
    (originalDoc : TextDocument.t) (this : FocusProvider.t) (w : World.t) :
  (exists key f,
      In (key, f) (filtersOf this)
      /\ Filter.isShown f = true /\ Filter.isExclude f = false) ->
  let positiveFilters :=
    keysWhere (fun f => Filter.isShown f && negb (Filter.isExclude f)) this in
  let '(matched, this1, w1) :=
    matchedLinesOfEach originalUri positiveFilters this w in
  let '(visibleLines, this2, w2) :=
    FocusProvider.getVisibleLines originalUri originalDoc this w in
  StronglySorted lt visibleLines
  /\ (forall n, In n visibleLines
                <-> exists lineNumbers, In lineNumbers matched /\ In n lineNumbers)
  /\ this2 = this1 /\ w2 = w1.
Proof.
  intros (key0 & f0 & Hin & Hshown & Hexclude). cbv zeta.
  assert (keysWhere (fun f => Filter.isShown f && negb (Filter.isExclude f))
            this <> []) as Hpos.
  { apply (keysWhere_nonempty _ this key0 f0 Hin).
    now rewrite Hshown, Hexclude. }
  unfold FocusProvider.getVisibleLines, FocusProvider.collectResultLines.
  rewrite getActiveFilters_flags.
  destruct (keysWhere _ this) as [|key positive]; [contradiction|].
  change (Nat.ltb 0 (length (key :: positive))) with true. cbv iota.
  rewrite forEachMatchedLine_spec.
  destruct (matchedLinesOfEach originalUri (key :: positive) this w)
    as [[matched this1] w1].
  unfold JsSet.toArray. repeat split.
  - apply sort_numbers_strict, applyAll_add_NoDup. constructor.
  - rewrite sort_numbers_In, applyAll_add_In.
    intros [H|[]]; exact H.
  - intros H. rewrite sort_numbers_In, applyAll_add_In. now left.
Qed.

(** C2. When the project has no positive filter, that is, every
    filter with [isShown] true has [isExclude] true,
    [getVisibleLines] returns, strictly ascending, the line numbers
    below [lineCount] that none of the filters that are shown and are
    exclude filters matches; when no filter is shown (there is none,
    every [isShown] is false, or the project is [null]) these are all
    the lines of the document. *)
Theorem getVisibleLines_exclude_only (originalUri : string)
    (originalDoc : TextDocument.t) (this : FocusProvider.t) (w : World.t) :
  (forall key f,
      In (key, f) (filtersOf this) ->
      Filter.isShown f = true -> Filter.isExclude f = true) ->
  let excludeFilters :=
    keysWhere (fun f => Filter.isShown f && Filter.isExclude f) this in
  let '(excluded, this1, w1) :=
    matchedLinesOfEach originalUri excludeFilters this w in
  let '(visibleLines, this2, w2) :=
    FocusProvider.getVisibleLines originalUri originalDoc this w in
  StronglySorted lt visibleLines
  /\ (forall n, In n visibleLines
                <-> n < TextDocument.lineCount originalDoc
                    /\ forall lineNumbers,
                         In lineNumbers excluded -> ~ In n lineNumbers)
  /\ ((forall key f, In (key, f) (filtersOf this) -> Filter.isShown f = false) ->
      visibleLines = seq 0 (TextDocument.lineCount originalDoc))
  /\ this2 = this1 /\ w2 = w1.
Proof.
  intros Hnone. cbv zeta.
  assert (keysWhere (fun f => Filter.isShown f && negb (Filter.isExclude f))
            this = []) as Hpos.
  { apply keysWhere_empty. intros key f Hin.
    destruct (Filter.isShown f) eqn:Hshown; [|reflexivity].
    now rewrite (Hnone key f Hin Hshown). }
  unfold FocusProvider.getVisibleLines, FocusProvider.collectResultLines.
  rewrite getActiveFilters_flags, Hpos.
  change (Nat.ltb 0 (@length string [])) with false. cbv iota.
  rewrite forEachMatchedLine_spec.
  destruct (matchedLinesOfEach originalUri
              (keysWhere (fun f => Filter.isShown f && Filter.isExclude f) this)
              this w)
    as [[excluded this1] w1] eqn:E.
  unfold JsSet.toArray.
  assert (StronglySorted lt
            (JsArray.sort FocusProvider.compareNumbers
               (applyAll JsSet.delete excluded
                  (fold_left (fun s i => JsSet.add i s)
                     (seq 0 (TextDocument.lineCount originalDoc))
                     JsSet.empty)))) as Hsorted.
  { apply sort_numbers_strict, applyAll_delete_NoDup, all_lines_NoDup. }
  assert (forall n,
             In n (JsArray.sort FocusProvider.compareNumbers
                     (applyAll JsSet.delete excluded
                        (fold_left (fun s i => JsSet.add i s)
                           (seq 0 (TextDocument.lineCount originalDoc))
                           JsSet.empty)))
             <-> n < TextDocument.lineCount originalDoc
                 /\ forall lineNumbers,
                      In lineNumbers excluded -> ~ In n lineNumbers) as Hin.
  { intros n. now rewrite sort_numbers_In, applyAll_delete_In, all_lines_In. }
  split; [exact Hsorted|]. split; [exact Hin|].
  split; [|split; reflexivity].
  intros Hhidden.
  assert (keysWhere (fun f => Filter.isShown f && Filter.isExclude f) this = [])
    as Hex.
  { apply keysWhere_empty. intros key f Hf. now rewrite (Hhidden key f Hf). }
  rewrite Hex in E. unfold matchedLinesOfEach in E. simpl in E.
  injection E as <- <- <-.
  apply strict_sorted_ext; [exact Hsorted| |].
  - clear. generalize 0. induction (TextDocument.lineCount originalDoc) as [|k IH];
      intros s; simpl; constructor; [apply IH|].
    rewrite Forall_forall. intros x Hx. apply in_seq in Hx. lia.
  - intros n. rewrite Hin, in_seq. split; [intros [H _]; lia|].
    intros H. split; [lia|]. intros ? [].
Qed.

(** The loop that builds the lines of the focus document. *)
Lemma emit_lines (document : TextDocument.t) (sortedLines : list nat) :
  forall arr,
    fold_left
      (fun resultArr lineNum =>
         match resultArr with
         | None => None
         | Some arr =>
             if Nat.ltb lineNum (TextDocument.lineCount document) then
               match TextDocument.lineAt lineNum document with
               | Some text => Some (arr ++ [text])
               | None => None
               end
             else Some arr
         end)
      sortedLines (Some arr)
    = Some (arr ++ map (fun n => nth n (TextDocument.lines document) EmptyString)
                     (filter (fun n => Nat.ltb n (TextDocument.lineCount document))
                        sortedLines)).
Proof.
  induction sortedLines as [|n rest IH]; intros arr; simpl.
  - now rewrite app_nil_r.
  - destruct (Nat.ltb_spec n (TextDocument.lineCount document)) as [Hlt|Hge].
    + unfold TextDocument.lineAt.
      rewrite (nth_error_nth' _ EmptyString Hlt).
      rewrite IH. simpl. now rewrite <- app_assoc.
    + apply IH.
Qed.

(** C10. [generateFilteredContent] never reads a line that the
    document does not have: whatever line numbers the filters answer,
    also numbers at or beyond [lineCount], no [lineAt] throws, and
    the content is the empty header line followed by the text of the
    visible lines below [lineCount], in ascending order. *)
Theorem generateFilteredContent_in_range (originalUri : string)
    (document : TextDocument.t) (this : FocusProvider.t) (w : World.t) :
  let '(visibleLines, this1, w1) :=
    FocusProvider.getVisibleLines originalUri document this w in
  let '(content, this2, w2) :=
    FocusProvider.generateFilteredContent originalUri document this w in
  let emitted :=
    filter (fun n => Nat.ltb n (TextDocument.lineCount document))
      visibleLines in
  Forall (fun n => n < TextDocument.lineCount document) emitted
  /\ (exists texts,
         Forall2 (fun n text => TextDocument.lineAt n document = Some text)
           emitted texts
         /\ content
            = Some (JsArray.join (String newline EmptyString)
                      (EmptyString :: texts)))
  /\ this2 = this1 /\ w2 = w1.
Proof.
  unfold FocusProvider.getVisibleLines, FocusProvider.generateFilteredContent.
  destruct (FocusProvider.collectResultLines originalUri document this w)
    as [[resultLines this1] w1].
  cbv zeta. rewrite emit_lines.
  set (emitted := filter _ _).
  assert (Forall (fun n => n < TextDocument.lineCount document) emitted) as HF.
  { rewrite Forall_forall. intros n Hn. apply filter_In in Hn.
    now apply Nat.ltb_lt. }
  repeat split; [exact HF|].
  exists (map (fun n => nth n (TextDocument.lines document) EmptyString) emitted).
  split; [|reflexivity].
  clear -HF. induction HF as [|n l Hn _ IH]; simpl; constructor; [|exact IH].
  unfold TextDocument.lineAt. now apply nth_error_nth'.
Qed.
End ViewComposition.

(* ================================================================== *)
(** * Facts about maps *)
(* ================================================================== *)

Section MapFacts.
Variable V : Type.
Implicit Types (m : JsMap.t V) (k : string) (v : V).

Lemma get_set_eq m k v : JsMap.get k (JsMap.set k v m) = Some v.
Proof.
  induction m as [|[k' v'] m IH]; simpl.
  - now rewrite String.eqb_refl.
  - destruct (String.eqb k k') eqn:E; simpl.
    + now rewrite String.eqb_refl.
    + now rewrite E.
Qed.

Lemma get_set_ne m k k' v :
  k <> k' -> JsMap.get k' (JsMap.set k v m) = JsMap.get k' m.
Proof.
  intros Hne. induction m as [|[k0 v0] m IH]; simpl.
  - destruct (String.eqb_spec k' k); [congruence|reflexivity].
  - destruct (String.eqb_spec k k0) as [->|Hk]; simpl.
    + destruct (String.eqb_spec k' k0); [congruence|reflexivity].
    + now rewrite IH.
Qed.

(** Filtering by a condition on the key; [delete] and the eviction
    are of this form. *)
Lemma get_filter_key (p : string -> bool) m k :
  JsMap.get k (filter (fun kv => p (fst kv)) m)
  = if p k then JsMap.get k m else None.
Proof.
  induction m as [|[k' v'] m IH]; simpl.
  - now destruct (p k).
  - destruct (p k') eqn:Ep; simpl.
    + destruct (String.eqb_spec k k') as [->|Hne].
      * now rewrite Ep.
      * exact IH.
    + rewrite IH. destruct (String.eqb_spec k k') as [->|Hne].
      * now rewrite Ep.
      * reflexivity.
Qed.

Lemma get_delete_eq m k : JsMap.get k (JsMap.delete k m) = None.
Proof.
  unfold JsMap.delete.
  rewrite (get_filter_key (fun k' => negb (String.eqb k k'))).
  now rewrite String.eqb_refl.
Qed.

Lemma get_delete_ne m k k' :
  k <> k' -> JsMap.get k' (JsMap.delete k m) = JsMap.get k' m.
Proof.
  intros Hne. unfold JsMap.delete.
  rewrite (get_filter_key (fun k0 => negb (String.eqb k k0))).
  destruct (String.eqb_spec k k'); [congruence|reflexivity].
Qed.

Lemma get_In m k v : JsMap.get k m = Some v -> In (k, v) m.
Proof.
  induction m as [|[k' v'] m IH]; simpl; [discriminate|].
  destruct (String.eqb_spec k k') as [->|Hne].
  - intros [= ->]. now left.
  - intros H. right. now apply IH.
Qed.

Lemma get_None_keys m k : JsMap.get k m = None <-> ~ In k (JsMap.keys m).
Proof.
  induction m as [|[k' v'] m IH]; simpl; [intuition|].
  destruct (String.eqb_spec k k') as [->|Hne].
  - split; [discriminate|]. intros H. exfalso. apply H. now left.
  - rewrite IH. intuition congruence.
Qed.

Lemma In_keys m k v : In (k, v) m -> In k (JsMap.keys m).
Proof. intros H. apply (in_map fst) in H. exact H. Qed.

Lemma In_get m k v : JsMap.wf m -> In (k, v) m -> JsMap.get k m = Some v.
Proof.
  unfold JsMap.wf. induction m as [|[k' v'] m IH]; simpl; [intros _ []|].
  intros Hnd Hin. inversion Hnd as [|? ? Hnotin Hnd']; subst.
  destruct Hin as [[= -> ->]|Hin].
  - now rewrite String.eqb_refl.
  - destruct (String.eqb_spec k k') as [->|Hne].
    + exfalso. apply Hnotin. eapply In_keys; eassumption.
    + now apply IH.
Qed.

Lemma filter_wf (p : string * V -> bool) m : JsMap.wf m -> JsMap.wf (filter p m).
Proof.
  unfold JsMap.wf, JsMap.keys.
  induction m as [|[k v] m IH]; simpl; [auto|].
  intros Hnd. inversion Hnd as [|? ? Hnotin Hnd']; subst.
  destruct (p (k, v)); simpl; [|now apply IH].
  constructor; [|now apply IH].
  intros Hin. apply Hnotin. apply in_map_iff in Hin.
  destruct Hin as (x & Hx & Hin). apply filter_In in Hin.
  apply in_map_iff. exists x. tauto.
Qed.

Lemma delete_wf m k : JsMap.wf m -> JsMap.wf (JsMap.delete k m).
Proof. apply filter_wf. Qed.

Lemma keys_set m k v :
  JsMap.keys (JsMap.set k v m)
  = if existsb (String.eqb k) (JsMap.keys m)
    then JsMap.keys m else JsMap.keys m ++ [k].
Proof.
  unfold JsMap.keys. induction m as [|[k' v'] m IH]; simpl; [reflexivity|].
  destruct (String.eqb_spec k k') as [->|Hne]; simpl; [reflexivity|].
  rewrite IH. now destruct (existsb _ _).
Qed.

Lemma set_wf m k v : JsMap.wf m -> JsMap.wf (JsMap.set k v m).
Proof.
  unfold JsMap.wf. rewrite keys_set.
  destruct (existsb (String.eqb k) (JsMap.keys m)) eqn:E; [auto|].
  intros Hnd. apply NoDup_app; [exact Hnd|repeat constructor; intros []|].
  intros x Hx [->|[]].
  assert (existsb (String.eqb x) (JsMap.keys m) = true); [|congruence].
  apply existsb_exists. exists x. split; [exact Hx|apply String.eqb_refl].
Qed.

Lemma size_set m k v : JsMap.size (JsMap.set k v m) <= S (JsMap.size m).
Proof.
  unfold JsMap.size. induction m as [|[k' v'] m IH]; simpl; [lia|].
  destruct (String.eqb k k'); simpl; lia.
Qed.

Lemma size_filter (p : string * V -> bool) m :
  JsMap.size (filter p m) <= JsMap.size m.
Proof. apply filter_length_le. Qed.

(** A loop that deletes the keys of [removed] leaves the entries
    with the other keys. *)
Lemma delete_all (W : Type) (removed : list (string * W)) m :
  fold_left (fun cache '(uri, _) => JsMap.delete uri cache) removed m
  = filter (fun kv => negb (existsb (String.eqb (fst kv)) (map fst removed))) m.
Proof.
  revert m. induction removed as [|[k w] removed IH]; intros m; simpl.
  - symmetry. apply forallb_filter_id. now apply forallb_forall.
  - rewrite IH. unfold JsMap.delete.
    induction m as [|[k' v'] m IHm]; simpl; [reflexivity|].
    rewrite (String.eqb_sym k' k).
    destruct (String.eqb k k'); simpl; [exact IHm|].
    destruct (existsb _ _); simpl; [exact IHm|].
    now rewrite IHm.
Qed.
End MapFacts.

(* ================================================================== *)
(** * The two analyses (C4) *)
(* ================================================================== *)

Section Analysis.
Context {host : Host}.

Lemma tested_S n w : tested n (World.next_test w) = tested (S n) w.
Proof.
  unfold tested. induction n as [|n IH]; simpl; [reflexivity|].
  now rewrite IH.
Qed.

Lemma tested_tests n w : World.tests (tested n w) = n + World.tests w.
Proof. induction n as [|n IH]; simpl; [reflexivity|now rewrite IH]. Qed.

Lemma tested_tick n w : World.tick (tested n w) = World.tick w.
Proof. induction n as [|n IH]; simpl; [reflexivity|exact IH]. Qed.

Lemma tested_documents n w : World.documents (tested n w) = World.documents w.
Proof. induction n as [|n IH]; simpl; [reflexivity|exact IH]. Qed.

Lemma analysisLoop_spec this lines :
  forall lineIndex ranges numbers count w,
    Filter.analysisLoop this lines lineIndex (ranges, numbers, count) w
    = let found := matchingFrom (Filter.regex this) lines lineIndex in
      ((ranges ++ map Filter.wholeLineRange found, numbers ++ found,
        count + length found),
       tested (length lines) w).
Proof.
  induction lines as [|line rest IH]; intros; simpl.
  - now rewrite !app_nil_r, Nat.add_0_r.
  - destruct (RegExp_test (Filter.regex this) line); rewrite IH; cbv zeta.
    + rewrite <- !app_assoc. simpl.
      rewrite tested_S. repeat f_equal. lia.
    + now rewrite tested_S.
Qed.

Lemma optimizedLoop_spec this lines :
  forall lineIndex ranges numbers count w,
    Filter.optimizedLoop this lines lineIndex (ranges, numbers, count) w
    = let found := matchingFrom (Filter.regex this) lines lineIndex in
      ((ranges ++ firstn (Filter.maxRanges - length ranges)
                    (map Filter.wholeLineRange found),
        numbers ++ found, count + length found),
       tested (length lines) w).
Proof.
  induction lines as [|line rest IH]; intros.
  - cbn [Filter.optimizedLoop matchingFrom map length tested Nat.iter].
    cbv zeta. rewrite firstn_nil. now rewrite !app_nil_r, Nat.add_0_r.
  - cbn [Filter.optimizedLoop matchingFrom]. unfold Filter.test.
    destruct (RegExp_test (Filter.regex this) line); rewrite IH; cbv zeta;
      rewrite tested_S; cbn [length map]; [|reflexivity].
    destruct (Nat.ltb_spec (length ranges) Filter.maxRanges) as [Hlt|Hge].
    + rewrite length_app. cbn [length].
      replace (Filter.maxRanges - length ranges)
        with (S (Filter.maxRanges - (length ranges + 1))) by lia.
      rewrite firstn_cons, <- !app_assoc. cbn [app].
      do 2 f_equal. lia.
    + replace (Filter.maxRanges - length ranges) with 0 by lia.
      rewrite !firstn_O, <- !app_assoc. cbn [app].
      do 2 f_equal. lia.
Qed.

(** [computeAnalysis] in closed form. *)
Lemma computeAnalysis_spec editorInfo this w :
  Filter.computeAnalysis editorInfo this w
  = let document := World.document (EditorInfo.editor editorInfo) w in
    let text := TextDocument.getText document in
    let found := matchingLines (Filter.regex this) text in
    let w1 := tested (length (split_newline text)) w in
    (EditorCacheEntry.mk (TextDocument.uri document)
       (TextDocument.version document) (byteLength text) (md5 text)
       (clock (World.tick w1))
       (map Filter.wholeLineRange found) found (length found) 0%Z,
     World.next_tick w1).
Proof.
  unfold Filter.computeAnalysis. rewrite analysisLoop_spec. reflexivity.
Qed.

(** [computeOptimizedAnalysis] in closed form. *)
Lemma computeOptimizedAnalysis_spec editorInfo this w :
  Filter.computeOptimizedAnalysis editorInfo this w
  = let document := World.document (EditorInfo.editor editorInfo) w in
    let text := TextDocument.getText document in
    let found := matchingLines (Filter.regex this) text in
    let w1 := tested (length (split_newline text)) w in
    (EditorCacheEntry.mk (TextDocument.uri document)
       (TextDocument.version document) (byteLength text) (md5 text)
       (clock (World.tick w1))
       (firstn Filter.maxRanges (map Filter.wholeLineRange found))
       found (length found) 0%Z,
     World.next_tick w1).
Proof.
  unfold Filter.computeOptimizedAnalysis. rewrite optimizedLoop_spec.
  reflexivity.
Qed.

(** C4. On every document the degraded analysis and the standard one
    find the same line numbers and the same count; the entries differ
    in the ranges only, which the degraded analysis cuts at
    [maxRanges] = 500.  The list of line numbers is never cut: it has
    one number for every match. *)
Theorem optimized_analysis_agrees (editorInfo : EditorInfo.t)
    (this : Filter.t) (w : World.t) :
  let '(standard, w1) := Filter.computeAnalysis editorInfo this w in
  let '(degraded, w2) := Filter.computeOptimizedAnalysis editorInfo this w in
  let text :=
    TextDocument.getText (World.document (EditorInfo.editor editorInfo) w) in
  EditorCacheEntry.matchedLineNumbers degraded
  = EditorCacheEntry.matchedLineNumbers standard
  /\ EditorCacheEntry.matchedLineNumbers standard
     = matchingLines (Filter.regex this) text
  /\ EditorCacheEntry.count degraded = EditorCacheEntry.count standard
  /\ length (EditorCacheEntry.matchedLineNumbers degraded)
     = EditorCacheEntry.count degraded
  /\ EditorCacheEntry.matchedRanges degraded
     = firstn Filter.maxRanges (EditorCacheEntry.matchedRanges standard)
  /\ length (EditorCacheEntry.matchedRanges degraded)
     = Nat.min 500 (EditorCacheEntry.count standard)
  /\ length (EditorCacheEntry.matchedRanges standard)
     = EditorCacheEntry.count standard
  /\ degraded
     = EditorCacheEntry.mk (EditorCacheEntry.uri standard)
         (EditorCacheEntry.version standard) (EditorCacheEntry.size standard)
         (EditorCacheEntry.contentHash standard)
         (EditorCacheEntry.lastModified standard)
         (EditorCacheEntry.matchedRanges degraded)
         (EditorCacheEntry.matchedLineNumbers standard)
         (EditorCacheEntry.count standard)
         (EditorCacheEntry.lastAnalyzed standard)
  /\ w2 = w1.
Proof.
  rewrite computeAnalysis_spec, computeOptimizedAnalysis_spec. cbv zeta.
  cbn -[firstn Filter.maxRanges Nat.min].
  split; [reflexivity|]. split; [reflexivity|]. split; [reflexivity|].
  split; [reflexivity|]. split; [reflexivity|].
  split; [now rewrite length_firstn, length_map|].
  split; [apply length_map|]. split; reflexivity.
Qed.
End Analysis.

(* ================================================================== *)
(** * The match cache (C3, C5, C6, C7) *)
(* ================================================================== *)

Section MatchCache.
Context {host : Host}.

Implicit Types (this : Filter.t) (w : World.t) (e : EditorCacheEntry.t).
Implicit Types (m : JsMap.t EditorCacheEntry.t) (k uri : string).

(** ** The sweep *)

Lemma sweep_loop (now : Z) (es : JsMap.t EditorCacheEntry.t) :
  forall m,
    fold_left
      (fun cache '(uri, entry) =>
         if (now - EditorCacheEntry.lastAnalyzed entry >? Filter.cacheMaxAge)%Z
         then JsMap.delete uri cache else cache)
      es m
    = filter (fun kv => negb (expiredKey now es (fst kv))) m.
Proof.
  induction es as [|[uri entry] es IH]; intros m; cbn [fold_left].
  - symmetry. apply forallb_filter_id. now apply forallb_forall.
  - rewrite IH. unfold expiredKey. cbn [existsb fst snd]. unfold expired at 2.
    destruct (_ >? _)%Z.
    + unfold JsMap.delete.
      induction m as [|[k' v'] m IHm]; cbn [filter fst]; [reflexivity|].
      rewrite (String.eqb_sym uri k').
      destruct (String.eqb k' uri); cbn [negb andb orb]; [exact IHm|].
      cbn [filter fst].
      destruct (existsb _ es); cbn [negb]; [exact IHm|now rewrite IHm].
    + apply filter_ext. intros [k' v']. cbn [fst].
      now rewrite andb_false_r.
Qed.

(** [cleanupExpiredCache] in closed form. *)
Lemma cleanupExpiredCache_spec this w :
  Filter.cleanupExpiredCache this w
  = (Filter.with_editorCache
       (filter
          (fun kv =>
             negb (expiredKey (clock (World.tick w))
                     (Filter.editorCache this) (fst kv)))
          (Filter.editorCache this))
       this,
     World.next_tick w).
Proof.
  unfold Filter.cleanupExpiredCache, Date_now, JsMap.entries.
  now rewrite sweep_loop.
Qed.

Lemma expiredKey_get now m k :
  JsMap.wf m ->
  expiredKey now m k
  = match JsMap.get k m with
    | Some e => expired now e
    | None => false
    end.
Proof.
  intros Hwf. destruct (JsMap.get k m) as [e|] eqn:E.
  - destruct (expired now e) eqn:Ex.
    + apply existsb_exists. exists (k, e). cbn [fst snd].
      rewrite String.eqb_refl, Ex. split; [now apply get_In|reflexivity].
    + apply not_true_is_false. intros H. apply existsb_exists in H.
      destruct H as ([k' e'] & Hin & Hb). cbn [fst snd] in Hb.
      apply andb_true_iff in Hb. destruct Hb as [Hk He'].
      apply String.eqb_eq in Hk. subst k'.
      apply In_get in Hin; [|exact Hwf]. congruence.
  - apply not_true_is_false. intros H. apply existsb_exists in H.
    destruct H as ([k' e'] & Hin & Hb). cbn [fst snd] in Hb.
    apply andb_true_iff in Hb. destruct Hb as [Hk _].
    apply String.eqb_eq in Hk. subst k'.
    apply get_None_keys in E. apply E. eapply In_keys; eassumption.
Qed.

(** What the sweep leaves: the entries that have not expired. *)
Lemma sweep_get this w k :
  JsMap.wf (Filter.editorCache this) ->
  JsMap.get k (Filter.editorCache (fst (Filter.cleanupExpiredCache this w)))
  = match JsMap.get k (Filter.editorCache this) with
    | Some e => if expired (clock (World.tick w)) e then None else Some e
    | None => None
    end.
Proof.
  intros Hwf. rewrite cleanupExpiredCache_spec.
  cbn [fst Filter.editorCache Filter.with_editorCache].
  rewrite (get_filter_key
             (fun k => negb (expiredKey (clock (World.tick w))
                               (Filter.editorCache this) k))).
  rewrite (expiredKey_get _ _ Hwf).
  destruct (JsMap.get k (Filter.editorCache this)) as [e|]; [|reflexivity].
  now destruct (expired _ e).
Qed.

(** ** The validity check *)

Lemma half_maxAge : (Filter.cacheMaxAge / 2 = 150000)%Z.
Proof. reflexivity. Qed.

Lemma maxAgeOf_le isLargeFile : (maxAgeOf isLargeFile <= Filter.cacheMaxAge)%Z.
Proof.
  destruct isLargeFile; unfold maxAgeOf; [rewrite half_maxAge|];
    unfold Filter.cacheMaxAge; lia.
Qed.

Lemma isCacheValid_true e document metaData w w' :
  Filter.isCacheValid e document (Some metaData) w = (true, w') ->
  fingerprintOf document e
  /\ (clock (World.tick w) - EditorCacheEntry.lastAnalyzed e
      <= maxAgeOf (EditorMetaData.isLargeFile metaData))%Z
  /\ w' = World.next_tick w.
Proof.
  unfold Filter.isCacheValid, fingerprintOf, Filter.calculateContentHash,
    Date_now, maxAgeOf.
  destruct (Z.eqb_spec (EditorCacheEntry.version e)
              (TextDocument.version document));
    cbn [negb]; [|discriminate].
  destruct (Z.eqb_spec (EditorCacheEntry.size e)
              (byteLength (TextDocument.getText document)));
    cbn [negb]; [|discriminate].
  destruct (String.eqb_spec (EditorCacheEntry.contentHash e)
              (md5 (TextDocument.getText document)));
    cbn [negb]; [|discriminate].
  intros [= Hage <-]. apply Z.leb_le in Hage. auto.
Qed.

Lemma isCacheValid_intro e document metaData w :
  fingerprintOf document e ->
  (clock (World.tick w) - EditorCacheEntry.lastAnalyzed e
   <= maxAgeOf (EditorMetaData.isLargeFile metaData))%Z ->
  Filter.isCacheValid e document (Some metaData) w = (true, World.next_tick w).
Proof.
  intros (Hv & Hs & Hh) Hage.
  unfold Filter.isCacheValid, Filter.calculateContentHash, Date_now.
  rewrite Hv, Hs, Hh, Z.eqb_refl, Z.eqb_refl, String.eqb_refl. cbn [negb].
  f_equal. now apply Z.leb_le.
Qed.

(** The check does not touch the scan counter. *)
Lemma isCacheValid_tests e document metaData w :
  World.tests (snd (Filter.isCacheValid e document metaData w)) = World.tests w.
Proof.
  unfold Filter.isCacheValid, Date_now.
  repeat match goal with |- context [if ?c then _ else _] =>
                           destruct c; try reflexivity end.
Qed.

Lemma isCacheValid_documents e document metaData w :
  World.documents (snd (Filter.isCacheValid e document metaData w))
  = World.documents w.
Proof.
  unfold Filter.isCacheValid, Date_now.
  repeat match goal with |- context [if ?c then _ else _] =>
                           destruct c; try reflexivity end.
Qed.
End MatchCache.

Lemma filter_perm (A : Type) (p : A -> bool) (l l' : list A) :
  Permutation l l' -> Permutation (filter p l) (filter p l').
Proof.
  induction 1 as [|x l l' _ IH|x y l|l l' l'' _ IH1 _ IH2]; simpl.
  - constructor.
  - destruct (p x); [now constructor|exact IH].
  - destruct (p x), (p y); try reflexivity. apply perm_swap.
  - now rewrite IH1.
Qed.

Lemma NoDup_app_disjoint (A : Type) (l1 l2 : list A) (x : A) :
  NoDup (l1 ++ l2) -> In x l1 -> In x l2 -> False.
Proof.
  induction l1 as [|a l1 IH]; simpl; [intros _ []|].
  intros Hnd [->|Hin] H2; inversion Hnd as [|? ? Hnotin Hnd']; subst.
  - apply Hnotin. apply in_or_app. now right.
  - now apply IH.
Qed.

Lemma filter_none (A : Type) (p : A -> bool) (l : list A) :
  (forall x, In x l -> p x = false) -> filter p l = [].
Proof.
  induction l as [|a l IH]; intros H; simpl; [reflexivity|].
  rewrite (H a (or_introl eq_refl)). apply IH. intros x Hx. apply H. now right.
Qed.

Section Eviction.
Context {host : Host}.

Implicit Types (this : Filter.t) (e : EditorCacheEntry.t) (k : string).

Lemma enforceMaxCacheSize_spec this :
  Filter.enforceMaxCacheSize this
  = Filter.with_editorCache
      (filter (fun kv => kept this (fst kv)) (Filter.editorCache this)) this.
Proof.
  unfold Filter.enforceMaxCacheSize, kept, evicted, oldestFirst, JsArray.slice0.
  destruct (Nat.leb _ _).
  - cbn [map existsb negb].
    rewrite (forallb_filter_id (fun _ => true) (Filter.editorCache this));
      [now destruct this|now apply forallb_forall].
  - now rewrite delete_all.
Qed.

Lemma oldestFirst_perm this :
  Permutation (oldestFirst this) (Filter.editorCache this).
Proof. apply (sort_perm stamp). Qed.

Lemma kept_evicted this key :
  kept this key = false <-> exists e, In (key, e) (evicted this).
Proof.
  unfold kept. rewrite negb_false_iff, existsb_exists. split.
  - intros (k' & Hin & Heq). apply String.eqb_eq in Heq. subst k'.
    apply in_map_iff in Hin. destruct Hin as ([k' e] & Hk & Hin).
    cbn [fst] in Hk. subst k'. now exists e.
  - intros (e & Hin). exists key. split; [|apply String.eqb_refl].
    apply in_map_iff. now exists (key, e).
Qed.


(** Survivors were in the cache. *)
Lemma enforce_get_Some this k e :
  JsMap.get k (Filter.editorCache (Filter.enforceMaxCacheSize this)) = Some e ->
  JsMap.get k (Filter.editorCache this) = Some e /\ kept this k = true.
Proof.
  rewrite enforceMaxCacheSize_spec.
  cbn [Filter.editorCache Filter.with_editorCache].
  rewrite (get_filter_key (kept this)).
  destruct (kept this k); [auto|discriminate].
Qed.

Lemma enforce_get_kept this k :
  kept this k = true ->
  JsMap.get k (Filter.editorCache (Filter.enforceMaxCacheSize this))
  = JsMap.get k (Filter.editorCache this).
Proof.
  intros Hk. rewrite enforceMaxCacheSize_spec.
  cbn [Filter.editorCache Filter.with_editorCache].
  rewrite (get_filter_key (kept this)). now rewrite Hk.
Qed.

Lemma enforce_wf this :
  JsMap.wf (Filter.editorCache this) ->
  JsMap.wf (Filter.editorCache (Filter.enforceMaxCacheSize this)).
Proof.
  intros H. rewrite enforceMaxCacheSize_spec. now apply filter_wf.
Qed.

(** The eviction leaves at most [cacheMaxSize] entries. *)
Lemma enforce_size this :
  JsMap.wf (Filter.editorCache this) ->
  JsMap.size (Filter.editorCache (Filter.enforceMaxCacheSize this))
  = Nat.min (JsMap.size (Filter.editorCache this)) Filter.cacheMaxSize.
Proof.
  intros Hwf. rewrite enforceMaxCacheSize_spec.
  cbn [Filter.editorCache Filter.with_editorCache].
  unfold kept, evicted.
  destruct (Nat.leb_spec (JsMap.size (Filter.editorCache this))
              Filter.cacheMaxSize) as [Hle|Hgt].
  - cbn [map existsb negb].
    rewrite (forallb_filter_id (fun _ => true) (Filter.editorCache this));
      [lia|now apply forallb_forall].
  - set (n := JsMap.size (Filter.editorCache this) - Filter.cacheMaxSize).
    set (p := fun kv : string * EditorCacheEntry.t => _).
    unfold JsMap.size at 1.
    rewrite (Permutation_length
               (filter_perm p (Permutation_sym (oldestFirst_perm this)))).
    assert (NoDup (map fst (oldestFirst this))) as Hnd.
    { eapply Permutation_NoDup; [|exact Hwf].
      apply Permutation_map, Permutation_sym, oldestFirst_perm. }
    assert (length (oldestFirst this) = JsMap.size (Filter.editorCache this))
      as Hlen by apply (Permutation_length (oldestFirst_perm this)).
    rewrite <- (firstn_skipn n (oldestFirst this)) in Hnd |- * at 1.
    rewrite filter_app, length_app.
    rewrite map_app in Hnd.
    assert (filter p (firstn n (oldestFirst this)) = []) as ->.
    { apply filter_none. intros [key e] Hin. subst p. cbn [fst].
      apply negb_false_iff. apply existsb_exists. exists key.
      split; [|apply String.eqb_refl]. apply in_map_iff. now exists (key, e). }
    assert (filter p (skipn n (oldestFirst this)) = skipn n (oldestFirst this))
      as ->.
    { apply forallb_filter_id, forallb_forall. intros [key e] Hin. subst p.
      cbn [fst]. apply negb_true_iff, not_true_is_false. intros H.
      apply existsb_exists in H. destruct H as (key' & Hin' & Heq).
      apply String.eqb_eq in Heq. subst key'.
      apply (NoDup_app_disjoint _ _ key Hnd Hin').
      apply in_map_iff. now exists (key, e). }
    rewrite length_skipn, Hlen. cbn [length]. lia.
Qed.

End Eviction.

Section CacheInvariant.
Context {host : Host}.

Implicit Types (this : Filter.t) (w : World.t) (e : EditorCacheEntry.t).

(** ** Hit and miss *)

Lemma recompute_spec editorUri editorInfo this w :
  recompute editorUri editorInfo this w
  = let text :=
      TextDocument.getText
        (World.document (EditorInfo.editor editorInfo) w) in
    let e := freshEntry editorInfo this w in
    (e,
     Filter.enforceMaxCacheSize
       (Filter.with_editorCache
          (JsMap.set editorUri e (Filter.editorCache this)) this),
     World.next_tick
       (World.next_tick (tested (length (split_newline text)) w))).
Proof.
  unfold recompute, freshEntry.
  destruct (EditorMetaData.isLargeFile (EditorInfo.metaData editorInfo));
    [rewrite computeOptimizedAnalysis_spec|rewrite computeAnalysis_spec];
    cbv zeta; unfold Date_now, EditorCacheEntry.set_lastAnalyzed;
    cbn [EditorCacheEntry.uri EditorCacheEntry.version EditorCacheEntry.size
         EditorCacheEntry.contentHash EditorCacheEntry.lastModified
         EditorCacheEntry.matchedRanges EditorCacheEntry.matchedLineNumbers
         EditorCacheEntry.count World.tick World.next_tick];
    rewrite !tested_tick; reflexivity.
Qed.

Lemma cleanup_snd this w :
  snd (Filter.cleanupExpiredCache this w) = World.next_tick w.
Proof. now rewrite cleanupExpiredCache_spec. Qed.

Lemma cleanup_regex this w :
  Filter.regex (fst (Filter.cleanupExpiredCache this w)) = Filter.regex this.
Proof. now rewrite cleanupExpiredCache_spec. Qed.

(** [getCachedAnalysisOrCompute] either returns the entry that the
    sweep has left for the document, valid at the second reading of
    the clock, or recomputes. *)
Lemma getCachedAnalysisOrCompute_cases (editorInfo : EditorInfo.t) this w :
  let document := World.document (EditorInfo.editor editorInfo) w in
  let editorUri := TextDocument.uri document in
  let metaData := EditorInfo.metaData editorInfo in
  let swept := fst (Filter.cleanupExpiredCache this w) in
  (exists e,
      JsMap.get editorUri (Filter.editorCache swept) = Some e
      /\ Filter.isCacheValid e document (Some metaData) (World.next_tick w)
         = (true, World.next_tick (World.next_tick w))
      /\ Filter.getCachedAnalysisOrCompute editorInfo this w
         = (e, swept, World.next_tick (World.next_tick w)))
  \/ (exists w1,
        (forall e,
            JsMap.get editorUri (Filter.editorCache swept) = Some e ->
            fst (Filter.isCacheValid e document (Some metaData)
                   (World.next_tick w)) = false)
        /\ World.tests w1 = World.tests w
        /\ World.documents w1 = World.documents w
        /\ Filter.getCachedAnalysisOrCompute editorInfo this w
           = recompute editorUri editorInfo swept w1).
Proof.
  cbv zeta. unfold Filter.getCachedAnalysisOrCompute.
  rewrite (surjective_pairing (Filter.cleanupExpiredCache this w)).
  rewrite cleanup_snd.
  set (swept := fst (Filter.cleanupExpiredCache this w)).
  set (document := World.document (EditorInfo.editor editorInfo) w).
  destruct (JsMap.get (TextDocument.uri document) (Filter.editorCache swept))
    as [e|] eqn:Eget.
  - destruct (Filter.isCacheValid e document
                (Some (EditorInfo.metaData editorInfo)) (World.next_tick w))
      as [valid w1] eqn:Evalid.
    destruct valid.
    + left. exists e.
      destruct (isCacheValid_true _ _ _ _ Evalid) as (_ & _ & ->).
      auto.
    + right. exists w1. split; [|split; [|split]].
      * intros e' He'.
        assert (Some e = Some e') as Heq by (rewrite <- Eget; exact He').
        injection Heq as <-. now rewrite Evalid.
      * change w1 with (snd (false, w1)). rewrite <- Evalid.
        now rewrite isCacheValid_tests.
      * change w1 with (snd (false, w1)). rewrite <- Evalid.
        now rewrite isCacheValid_documents.
      * reflexivity.
  - right. exists (World.next_tick w). split; [|split; [|split]];
      try reflexivity.
    intros e He.
    assert (@None EditorCacheEntry.t = Some e) as Heq
      by (rewrite <- Eget; exact He).
    discriminate Heq.
Qed.

(** ** The invariant of the cache *)

Lemma freshEntry_captured editorInfo this w :
  captured (Filter.regex this) (freshEntry editorInfo this w)
    (TextDocument.getText (World.document (EditorInfo.editor editorInfo) w)).
Proof. repeat split. Qed.

Lemma cleanup_cache_ok this w :
  cache_ok this -> cache_ok (fst (Filter.cleanupExpiredCache this w)).
Proof.
  intros (Hwf & Hsize & Hsound). rewrite cleanupExpiredCache_spec.
  cbn [fst]. split; [|split].
  - now apply filter_wf.
  - etransitivity; [apply size_filter|exact Hsize].
  - intros uri e. cbn [Filter.editorCache Filter.with_editorCache Filter.regex].
    rewrite (get_filter_key
               (fun k => negb (expiredKey (clock (World.tick w))
                                 (Filter.editorCache this) k))).
    destruct (negb _); [apply Hsound|discriminate].
Qed.

Lemma enforce_regex this :
  Filter.regex (Filter.enforceMaxCacheSize this) = Filter.regex this.
Proof. now rewrite enforceMaxCacheSize_spec. Qed.

(** Storing a sound entry and evicting re-establishes the
    invariant, whatever the size was. *)
Lemma store_cache_ok this uri e text :
  JsMap.wf (Filter.editorCache this) -> cache_sound this ->
  captured (Filter.regex this) e text ->
  cache_ok (Filter.enforceMaxCacheSize
              (Filter.with_editorCache
                 (JsMap.set uri e (Filter.editorCache this)) this)).
Proof.
  intros Hwf Hsound Hcap.
  set (stored := Filter.with_editorCache _ this).
  assert (JsMap.wf (Filter.editorCache stored)) as Hwf'
    by (apply set_wf; exact Hwf).
  split; [|split].
  - now apply enforce_wf.
  - rewrite (enforce_size _ Hwf'). apply Nat.le_min_r.
  - intros k e' Hget. apply enforce_get_Some in Hget.
    destruct Hget as [Hget _]. rewrite enforce_regex.
    subst stored.
    cbn [Filter.editorCache Filter.with_editorCache Filter.regex] in *.
    destruct (String.eqb_spec uri k) as [->|Hne].
    + rewrite get_set_eq in Hget. injection Hget as <-. now exists text.
    + rewrite (get_set_ne _ _ Hne) in Hget. now apply (Hsound k).
Qed.

Lemma recompute_cache_ok editorUri editorInfo this w :
  JsMap.wf (Filter.editorCache this) -> cache_sound this ->
  cache_ok (snd (fst (recompute editorUri editorInfo this w))).
Proof.
  intros Hwf Hsound. rewrite recompute_spec. cbn [fst snd].
  eapply store_cache_ok; [exact Hwf|exact Hsound|apply freshEntry_captured].
Qed.

Lemma getCachedAnalysisOrCompute_cache_ok editorInfo this w :
  cache_ok this ->
  cache_ok (snd (fst (Filter.getCachedAnalysisOrCompute editorInfo this w))).
Proof.
  intros Hok. pose proof (cleanup_cache_ok w Hok) as (Hwf & Hsize & Hsound).
  destruct (getCachedAnalysisOrCompute_cases editorInfo this w)
    as [(e & _ & _ & ->)|(w1 & _ & _ & _ & ->)].
  - cbn [fst snd]. now repeat split.
  - now apply recompute_cache_ok.
Qed.
End CacheInvariant.

Section CacheTheorems.
Context {host : Host}.

Implicit Types (this : Filter.t) (w : World.t) (e : EditorCacheEntry.t).

(** What a call returns is the result of a scan, under the current
    pattern, of a text with the digest and the byte size of the
    document. *)
Lemma getCachedAnalysisOrCompute_result (editorInfo : EditorInfo.t) this w :
  JsMap.wf (Filter.editorCache this) -> cache_sound this ->
  let text :=
    TextDocument.getText (World.document (EditorInfo.editor editorInfo) w) in
  exists scanned,
    captured (Filter.regex this)
      (fst (fst (Filter.getCachedAnalysisOrCompute editorInfo this w))) scanned
    /\ md5 scanned = md5 text /\ byteLength scanned = byteLength text.
Proof.
  intros Hwf Hsound text.
  destruct (getCachedAnalysisOrCompute_cases editorInfo this w)
    as [(e & Hget & Hvalid & ->)|(w1 & _ & _ & Hdocs & ->)]; cbn [fst].
  - rewrite sweep_get in Hget by exact Hwf.
    destruct (JsMap.get _ (Filter.editorCache this)) as [e0|] eqn:E;
      [|discriminate].
    destruct (expired _ e0); [discriminate|]. injection Hget as ->.
    destruct (Hsound _ _ E) as (scanned & Hcap). exists scanned.
    apply isCacheValid_true in Hvalid. destruct Hvalid as ((_ & Hs & Hh) & _).
    destruct Hcap as (Hh' & Hs' & Hrest).
    subst text. split; [now repeat split|]. split; congruence.
  - rewrite recompute_spec. cbn [fst]. exists text.
    assert (World.document (EditorInfo.editor editorInfo) w1
            = World.document (EditorInfo.editor editorInfo) w) as Hdoc
      by (unfold World.document; now rewrite Hdocs).
    split; [|split; reflexivity].
    pose proof (freshEntry_captured editorInfo
                  (fst (Filter.cleanupExpiredCache this w)) w1) as Hcap.
    rewrite Hdoc, cleanup_regex in Hcap. exact Hcap.
Qed.

(** C3. An entry of the cache that carries the version, the byte
    size and the digest of the document and whose age is within the
    TTL (the half of it for a large file) is what
    [getCachedAnalysisOrCompute] returns: the entry stays in the
    cache as it is, no line is scanned, and its line numbers are
    those of a scan from scratch of the content it was taken from,
    which has the digest and the size of the current content.  The
    age is taken at the reading of the validity check; the clock
    does not run backwards between the sweep and the check. *)
Theorem cache_hit_returns_stored (editorInfo : EditorInfo.t) this w e :
  let document := World.document (EditorInfo.editor editorInfo) w in
  let isLargeFile :=
    EditorMetaData.isLargeFile (EditorInfo.metaData editorInfo) in
  cache_ok this ->
  JsMap.get (TextDocument.uri document) (Filter.editorCache this) = Some e ->
  fingerprintOf document e ->
  (clock (World.tick w) <= clock (S (World.tick w)))%Z ->
  (clock (S (World.tick w)) - EditorCacheEntry.lastAnalyzed e
   <= maxAgeOf isLargeFile)%Z ->
  let '(result, this', w') :=
    Filter.getCachedAnalysisOrCompute editorInfo this w in
  result = e
  /\ JsMap.get (TextDocument.uri document) (Filter.editorCache this') = Some e
  /\ World.tests w' = World.tests w
  /\ exists scanned,
       md5 scanned = md5 (TextDocument.getText document)
       /\ byteLength scanned = byteLength (TextDocument.getText document)
       /\ EditorCacheEntry.matchedLineNumbers e
          = matchingLines (Filter.regex this) scanned
       /\ (scanned = TextDocument.getText document ->
           EditorCacheEntry.matchedLineNumbers e
           = EditorCacheEntry.matchedLineNumbers
               (fst (Filter.computeAnalysis editorInfo this w))
           /\ EditorCacheEntry.matchedLineNumbers e
              = EditorCacheEntry.matchedLineNumbers
                  (fst (Filter.computeOptimizedAnalysis editorInfo this w))).
Proof.
  intros document isLargeFile (Hwf & _ & Hsound) Hget Hfp Hmono Hage.
  pose proof (maxAgeOf_le isLargeFile) as Hmax.
  assert (JsMap.get (TextDocument.uri document)
            (Filter.editorCache (fst (Filter.cleanupExpiredCache this w)))
          = Some e) as Hswept.
  { rewrite sweep_get by exact Hwf. rewrite Hget.
    unfold expired. destruct (Z.gtb_spec
      (clock (World.tick w) - EditorCacheEntry.lastAnalyzed e)
      Filter.cacheMaxAge); [lia|reflexivity]. }
  assert (Filter.isCacheValid e document
            (Some (EditorInfo.metaData editorInfo)) (World.next_tick w)
          = (true, World.next_tick (World.next_tick w))) as Hvalid
    by (apply isCacheValid_intro; assumption).
  destruct (getCachedAnalysisOrCompute_cases editorInfo this w)
    as [(e0 & Hget0 & _ & ->)|(w1 & Hinvalid & _)].
  - fold document in Hget0. rewrite Hswept in Hget0. injection Hget0 as <-.
    split; [reflexivity|]. split; [exact Hswept|]. split; [reflexivity|].
    destruct (Hsound _ _ Hget) as (scanned & Hh & Hs & Hlines & _).
    destruct Hfp as (_ & Hs' & Hh').
    exists scanned. split; [congruence|]. split; [congruence|].
    split; [exact Hlines|]. intros ->.
    rewrite computeAnalysis_spec, computeOptimizedAnalysis_spec.
    split; exact Hlines.
  - specialize (Hinvalid e Hswept). fold document in Hinvalid.
    rewrite Hvalid in Hinvalid. discriminate.
Qed.

(** C5, as the code has it.  The sweep at the start of
    [getCachedAnalysisOrCompute] removes the entries whose age
    exceeds [cacheMaxAge], the whole TTL, and keeps every other
    entry, whatever the mode it was captured in.  After the call an
    entry of another document is one that was there before and has
    not expired.  The half TTL is the matter of the validity check:
    the entry of the document of the call that is older than its
    [maxAgeOf] at the check is not returned, the document is scanned
    again. *)
Theorem sweep_removes_expired (editorInfo : EditorInfo.t) this w :
  JsMap.wf (Filter.editorCache this) ->
  let document := World.document (EditorInfo.editor editorInfo) w in
  let isLargeFile :=
    EditorMetaData.isLargeFile (EditorInfo.metaData editorInfo) in
  let now := clock (World.tick w) in
  let swept := fst (Filter.cleanupExpiredCache this w) in
  let '(result, this', w') :=
    Filter.getCachedAnalysisOrCompute editorInfo this w in
  (forall uri e,
      JsMap.get uri (Filter.editorCache swept) = Some e
      <-> JsMap.get uri (Filter.editorCache this) = Some e
          /\ (now - EditorCacheEntry.lastAnalyzed e <= Filter.cacheMaxAge)%Z)
  /\ (forall uri e,
         uri <> TextDocument.uri document ->
         JsMap.get uri (Filter.editorCache this') = Some e ->
         JsMap.get uri (Filter.editorCache this) = Some e
         /\ (now - EditorCacheEntry.lastAnalyzed e <= Filter.cacheMaxAge)%Z)
  /\ (forall e,
         JsMap.get (TextDocument.uri document) (Filter.editorCache this)
         = Some e ->
         (maxAgeOf isLargeFile
          < clock (S (World.tick w)) - EditorCacheEntry.lastAnalyzed e)%Z ->
         World.tests w'
         = length (split_newline (TextDocument.getText document))
           + World.tests w).
Proof.
  intros Hwf document isLargeFile now swept.
  assert (forall uri e,
             JsMap.get uri (Filter.editorCache swept) = Some e
             <-> JsMap.get uri (Filter.editorCache this) = Some e
                 /\ (now - EditorCacheEntry.lastAnalyzed e
                     <= Filter.cacheMaxAge)%Z) as Hsweep.
  { intros uri e. subst swept. rewrite sweep_get by exact Hwf.
    destruct (JsMap.get uri (Filter.editorCache this)) as [e0|];
      [|split; [discriminate|intros [[=] _]]].
    unfold expired. fold now.
    destruct (Z.gtb_spec (now - EditorCacheEntry.lastAnalyzed e0)
                Filter.cacheMaxAge) as [Hgt|Hle].
    - split; [discriminate|]. intros [[= ->] Hle]. lia.
    - split; [intros [= ->]; now split|]. now intros [[= ->] _]. }
  destruct (getCachedAnalysisOrCompute_cases editorInfo this w)
    as [(e0 & Hget0 & Hvalid & ->)|(w1 & Hinvalid & Htests & Hdocs & ->)].
  - fold swept in Hget0 |- *. fold document in Hget0, Hvalid.
    split; [exact Hsweep|]. split.
    + intros uri e _ Hget. now apply Hsweep.
    + intros e Hget Hold. exfalso.
      apply Hsweep in Hget0. destruct Hget0 as [Hget0 _].
      assert (e0 = e) as -> by congruence.
      apply isCacheValid_true in Hvalid.
      destruct Hvalid as (_ & Hage & _). cbn [World.tick World.next_tick] in Hage.
      fold isLargeFile in Hage. lia.
  - fold swept in Hinvalid |- *. fold document in Hinvalid |- *.
    rewrite recompute_spec. cbv zeta.
    split; [exact Hsweep|]. split.
    + intros uri e Hne Hget. apply enforce_get_Some in Hget.
      destruct Hget as [Hget _].
      cbn [Filter.editorCache Filter.with_editorCache] in Hget.
      rewrite get_set_ne in Hget by (intros Heq; apply Hne; now rewrite Heq).
      now apply Hsweep.
    + intros e _ _. cbn [World.tests World.next_tick].
      rewrite tested_tests, Htests.
      unfold World.document. rewrite Hdocs. reflexivity.
Qed.
End CacheTheorems.

Section Queries.
Context {host : Host}.

Implicit Types (this : Filter.t) (w : World.t) (e : EditorCacheEntry.t).

(** The invariant looks at the cache and at the pattern only. *)
Lemma cache_ok_ext this this' :
  Filter.editorCache this' = Filter.editorCache this ->
  Filter.regex this' = Filter.regex this ->
  cache_ok this -> cache_ok this'.
Proof.
  unfold cache_ok, cache_sound. intros -> ->. exact (fun H => H).
Qed.

(** A call changes the cache of the filter and nothing else of it. *)
Lemma getCachedAnalysisOrCompute_frame (editorInfo : EditorInfo.t) this w :
  let this' := snd (fst (Filter.getCachedAnalysisOrCompute editorInfo this w)) in
  this' = Filter.with_editorCache (Filter.editorCache this') this.
Proof.
  cbv zeta.
  destruct (getCachedAnalysisOrCompute_cases editorInfo this w)
    as [(e & _ & _ & ->)|(w1 & _ & _ & _ & ->)].
  - cbn [fst snd]. rewrite cleanupExpiredCache_spec. reflexivity.
  - rewrite recompute_spec. cbn [fst snd].
    rewrite enforceMaxCacheSize_spec, cleanupExpiredCache_spec. reflexivity.
Qed.

Lemma getCachedAnalysisOrCompute_regex (editorInfo : EditorInfo.t) this w :
  Filter.regex (snd (fst (Filter.getCachedAnalysisOrCompute editorInfo this w)))
  = Filter.regex this.
Proof. now rewrite getCachedAnalysisOrCompute_frame. Qed.

Lemma getCachedAnalysisOrCompute_activeEditors (editorInfo : EditorInfo.t)
    this w :
  Filter.activeEditors
    (snd (fst (Filter.getCachedAnalysisOrCompute editorInfo this w)))
  = Filter.activeEditors this.
Proof. now rewrite getCachedAnalysisOrCompute_frame. Qed.

(** [getMatchedLineNumbers(uri)] answers, for a document that the
    filter does not process, nothing; for one that it processes,
    the line numbers of a valid entry or of a call of
    [getCachedAnalysisOrCompute]. *)
Lemma getMatchedLineNumbersOf_cases (editorUri : string) this w :
  match JsMap.get editorUri (Filter.activeEditors this) with
  | None => Filter.getMatchedLineNumbersOf editorUri this w = ([], this, w)
  | Some editorInfo =>
      let document := World.document (EditorInfo.editor editorInfo) w in
      (exists e,
          JsMap.get editorUri (Filter.editorCache this) = Some e
          /\ fingerprintOf document e
          /\ Filter.getMatchedLineNumbersOf editorUri this w
             = (EditorCacheEntry.matchedLineNumbers e, this, World.next_tick w))
      \/ (exists w1,
            World.documents w1 = World.documents w
            /\ World.tests w1 = World.tests w
            /\ Filter.getMatchedLineNumbersOf editorUri this w
               = let '(e, this', w') :=
                   Filter.getCachedAnalysisOrCompute editorInfo this w1 in
                 (EditorCacheEntry.matchedLineNumbers e, this', w'))
  end.
Proof.
  unfold Filter.getMatchedLineNumbersOf.
  destruct (JsMap.get editorUri (Filter.activeEditors this))
    as [editorInfo|]; [|reflexivity].
  cbv zeta.
  destruct (JsMap.get editorUri (Filter.editorCache this)) as [e|] eqn:Eget.
  - destruct (Filter.isCacheValid e _ _ w) as [valid w1] eqn:Evalid.
    destruct valid.
    + left. exists e. apply isCacheValid_true in Evalid.
      destruct Evalid as (Hfp & _ & ->). auto.
    + right. exists w1. split; [|split; [|reflexivity]].
      * change w1 with (snd (false, w1)). rewrite <- Evalid.
        apply isCacheValid_documents.
      * change w1 with (snd (false, w1)). rewrite <- Evalid.
        apply isCacheValid_tests.
  - right. exists w. auto.
Qed.

Lemma getMatchedLineNumbersOf_frame (editorUri : string) this w :
  let this' := snd (fst (Filter.getMatchedLineNumbersOf editorUri this w)) in
  this' = Filter.with_editorCache (Filter.editorCache this') this.
Proof.
  cbv zeta. pose proof (getMatchedLineNumbersOf_cases editorUri this w) as H.
  destruct (JsMap.get editorUri (Filter.activeEditors this)) as [editorInfo|].
  - destruct H as [(e & _ & _ & ->)|(w1 & _ & _ & ->)].
    + now destruct this.
    + pose proof (getCachedAnalysisOrCompute_frame editorInfo this w1) as Hf.
      destruct (Filter.getCachedAnalysisOrCompute editorInfo this w1)
        as [[e this'] w']. exact Hf.
  - rewrite H. now destruct this.
Qed.

Lemma getMatchedLineNumbersOf_cache_ok (editorUri : string) this w :
  cache_ok this ->
  cache_ok (snd (fst (Filter.getMatchedLineNumbersOf editorUri this w))).
Proof.
  intros Hok. pose proof (getMatchedLineNumbersOf_cases editorUri this w) as H.
  destruct (JsMap.get editorUri (Filter.activeEditors this)) as [editorInfo|].
  - destruct H as [(e & _ & _ & ->)|(w1 & _ & _ & ->)]; [exact Hok|].
    pose proof (getCachedAnalysisOrCompute_cache_ok editorInfo w1 Hok) as Hc.
    destruct (Filter.getCachedAnalysisOrCompute editorInfo this w1)
      as [[e this'] w']. exact Hc.
  - now rewrite H.
Qed.

(** What [getMatchedLineNumbers(uri)] answers is the result of a
    scan under the current pattern. *)
Lemma getMatchedLineNumbersOf_result (editorUri : string) this w :
  JsMap.wf (Filter.editorCache this) -> cache_sound this ->
  let lineNumbers := fst (fst (Filter.getMatchedLineNumbersOf editorUri this w)) in
  match JsMap.get editorUri (Filter.activeEditors this) with
  | None => lineNumbers = []
  | Some editorInfo =>
      let text :=
        TextDocument.getText
          (World.document (EditorInfo.editor editorInfo) w) in
      exists scanned,
        lineNumbers = matchingLines (Filter.regex this) scanned
        /\ md5 scanned = md5 text /\ byteLength scanned = byteLength text
  end.
Proof.
  intros Hwf Hsound. cbv zeta.
  pose proof (getMatchedLineNumbersOf_cases editorUri this w) as H.
  destruct (JsMap.get editorUri (Filter.activeEditors this)) as [editorInfo|].
  - destruct H as [(e & Hget & (_ & Hs & Hh) & ->)|(w1 & Hdocs & _ & ->)].
    + cbn [fst]. destruct (Hsound _ _ Hget) as (scanned & Hh' & Hs' & Hl & _).
      exists scanned. split; [exact Hl|]. split; congruence.
    + pose proof (getCachedAnalysisOrCompute_result editorInfo w1 Hwf Hsound)
        as (scanned & (_ & _ & Hl & _) & Hh & Hs).
      destruct (Filter.getCachedAnalysisOrCompute editorInfo this w1)
        as [[e this'] w']. cbn [fst] in *.
      exists scanned. split; [exact Hl|].
      unfold World.document in *. rewrite Hdocs in Hh, Hs. now split.
  - now rewrite H.
Qed.

Lemma getMatchedLineNumbers_all_cache_ok
    (editors : list (string * EditorInfo.t)) :
  forall allLineNumbers this w,
    cache_ok this ->
    let this' :=
      snd (fst (fold_left
                  (fun '(allLineNumbers, this, w) '(uri, _) =>
                     let '(ns, this, w) :=
                       Filter.getMatchedLineNumbersOf uri this w in
                     (allLineNumbers ++ ns, this, w))
                  editors (allLineNumbers, this, w))) in
    cache_ok this' /\ Filter.regex this' = Filter.regex this.
Proof.
  induction editors as [|[uri editorInfo] editors IH];
    intros allLineNumbers this w Hok; cbn [fold_left]; [now split|].
  pose proof (getMatchedLineNumbersOf_cache_ok uri w Hok) as Hok'.
  pose proof (getMatchedLineNumbersOf_frame uri this w) as Hframe.
  destruct (Filter.getMatchedLineNumbersOf uri this w) as [[ns this1] w1].
  cbn [fst snd] in *.
  destruct (IH (allLineNumbers ++ ns) this1 w1 Hok') as [H1 H2].
  split; [exact H1|]. rewrite H2, Hframe. reflexivity.
Qed.

Lemma getMatchedLineNumbers_cache_ok (editorUri : option string) this w :
  cache_ok this ->
  let this' := snd (fst (Filter.getMatchedLineNumbers editorUri this w)) in
  cache_ok this' /\ Filter.regex this' = Filter.regex this.
Proof.
  intros Hok. unfold Filter.getMatchedLineNumbers.
  destruct (truthy editorUri) as [u|].
  - split; [now apply getMatchedLineNumbersOf_cache_ok|].
    now rewrite getMatchedLineNumbersOf_frame.
  - now apply getMatchedLineNumbers_all_cache_ok.
Qed.

Lemma processEditor_cache_ok (editorInfo : EditorInfo.t) this w :
  cache_ok this ->
  let this' := fst (Filter.processEditor editorInfo this w) in
  cache_ok this' /\ Filter.regex this' = Filter.regex this.
Proof.
  intros Hok. unfold Filter.processEditor.
  set (started := if negb (Filter.decoration this)
                  then Filter.createDecoration this w else (this, w)).
  assert (Filter.editorCache (fst started) = Filter.editorCache this
          /\ Filter.regex (fst started) = Filter.regex this) as [Hc Hr]
    by (subst started; destruct (negb _); now split).
  destruct started as [this0 w0]. cbn [fst] in Hc, Hr.
  set (active := Filter.with_activeEditors _ this0).
  assert (cache_ok active) as Hok'
    by (apply (cache_ok_ext (this := this)); [exact Hc|exact Hr|exact Hok]).
  pose proof (getCachedAnalysisOrCompute_cache_ok editorInfo w0 Hok') as Hok''.
  pose proof (getCachedAnalysisOrCompute_regex editorInfo active w0) as Hr''.
  destruct (Filter.getCachedAnalysisOrCompute editorInfo active w0)
    as [[cacheEntry this1] w1]. cbn [fst snd] in *.
  split.
  - eapply cache_ok_ext; [| |exact Hok''];
      now destruct (EditorMetaData.isSelected _).
  - transitivity (Filter.regex this1);
      [now destruct (EditorMetaData.isSelected _)|].
    rewrite Hr''. exact Hr.
Qed.

(** ** Pattern replacement *)

Lemma updateDecoration_frame this w :
  let this' := fst (Filter.updateDecoration this w) in
  Filter.editorCache this' = Filter.editorCache this
  /\ Filter.regex this' = Filter.regex this
  /\ Filter.regexVersion this' = Filter.regexVersion this
  /\ Filter.activeEditors this' = Filter.activeEditors this.
Proof. now repeat split. Qed.

Lemma empty_cache_ok this :
  Filter.editorCache this = [] -> cache_ok this.
Proof.
  intros H. unfold cache_ok, cache_sound. rewrite H. split; [constructor|].
  split; [unfold JsMap.size, Filter.cacheMaxSize; simpl; lia|].
  intros uri e [=].
Qed.

Lemma setRegex_spec (newRegex : RegExp) this w :
  let this' := fst (Filter.setRegex newRegex this w) in
  Filter.editorCache this' = []
  /\ Filter.regex this' = newRegex
  /\ Filter.regexVersion this' = S (Filter.regexVersion this)
  /\ Filter.activeEditors this' = Filter.activeEditors this.
Proof. now repeat split. Qed.

(** The filter as [new Filter(regex)] leaves it satisfies the
    invariant. *)
Lemma new_cache_ok (regex : RegExp) w : cache_ok (fst (Filter.new regex w)).
Proof. now apply empty_cache_ok. Qed.
End Queries.

Section Capacity.
Context {host : Host}.

Implicit Types (this : Filter.t) (w : World.t) (e : EditorCacheEntry.t).

Lemma size_set_present (V : Type) (m : JsMap.t V) (k : string) (v v0 : V) :
  JsMap.get k m = Some v0 -> JsMap.size (JsMap.set k v m) = JsMap.size m.
Proof.
  unfold JsMap.size. induction m as [|[k' v'] m IH]; simpl; [discriminate|].
  destruct (String.eqb k k'); simpl; [reflexivity|].
  intros H. now rewrite IH.
Qed.

Lemma kept_all this k :
  JsMap.size (Filter.editorCache this) <= Filter.cacheMaxSize ->
  kept this k = true.
Proof.
  intros H. unfold kept, evicted.
  apply Nat.leb_le in H. now rewrite H.
Qed.

End Capacity.

Section Survival.
Context {host : Host}.

Implicit Types (this : Filter.t) (w : World.t) (e : EditorCacheEntry.t).

(** The last element of an array is not the first of the sorted array
    when no other element is younger. *)
Lemma sort_newest_not_first (A : Type) (key : A -> Z) (l : list A) (x : A) :
  l <> [] ->
  (forall y, In y l -> (key y <= key x)%Z) ->
  exists h t, JsArray.sort (compareBy key) (l ++ [x]) = h :: t /\ In h l.
Proof.
  induction l as [|a l IH]; intros Hne Hle; [contradiction|].
  destruct l as [|b l].
  - cbn. unfold compareBy at 1.
    destruct (Z.leb_spec (key a - key x) 0) as [_|Hgt].
    + exists a, [x]. split; [reflexivity|now left].
    + specialize (Hle a (or_introl eq_refl)). lia.
  - destruct IH as (h & t & Hsort & Hin);
      [discriminate|intros y Hy; apply Hle; now right|].
    change (JsArray.sort (compareBy key) ((a :: b :: l) ++ [x]))
      with (JsArray.insert (compareBy key) a
              (JsArray.sort (compareBy key) ((b :: l) ++ [x]))).
    rewrite Hsort. cbn [JsArray.insert].
    destruct (compareBy key a h <=? 0)%Z.
    + exists a, (h :: t). split; [reflexivity|now left].
    + exists h, (JsArray.insert (compareBy key) a t).
      split; [reflexivity|now right].
Qed.

Lemma set_absent (V : Type) (m : JsMap.t V) (k : string) (v : V) :
  JsMap.get k m = None -> JsMap.set k v m = m ++ [(k, v)].
Proof.
  induction m as [|[k' v'] m IH]; simpl; [reflexivity|].
  destruct (String.eqb k k'); [discriminate|].
  intros H. now rewrite IH.
Qed.

Lemma isCacheValid_tick e document metaData w :
  World.tick w <= World.tick (snd (Filter.isCacheValid e document metaData w)).
Proof.
  unfold Filter.isCacheValid, Date_now.
  repeat match goal with |- context [if ?c then _ else _] =>
                           destruct c; try (cbn; lia) end.
Qed.

(** The world in which a call recomputes is not earlier than the
    world of the call. *)
Lemma getCachedAnalysisOrCompute_recompute_world (editorInfo : EditorInfo.t)
    this w :
  let document := World.document (EditorInfo.editor editorInfo) w in
  let editorUri := TextDocument.uri document in
  let swept := fst (Filter.cleanupExpiredCache this w) in
  (exists e,
      JsMap.get editorUri (Filter.editorCache swept) = Some e
      /\ Filter.getCachedAnalysisOrCompute editorInfo this w
         = (e, swept, World.next_tick (World.next_tick w)))
  \/ (exists w1,
        World.tick w <= World.tick w1
        /\ Filter.getCachedAnalysisOrCompute editorInfo this w
           = recompute editorUri editorInfo swept w1).
Proof.
  cbv zeta. unfold Filter.getCachedAnalysisOrCompute.
  rewrite (surjective_pairing (Filter.cleanupExpiredCache this w)).
  rewrite cleanup_snd.
  set (swept := fst (Filter.cleanupExpiredCache this w)).
  set (document := World.document (EditorInfo.editor editorInfo) w).
  destruct (JsMap.get (TextDocument.uri document) (Filter.editorCache swept))
    as [e|] eqn:Eget.
  - pose proof (isCacheValid_tick e document
                  (Some (EditorInfo.metaData editorInfo)) (World.next_tick w))
      as Htick.
    destruct (Filter.isCacheValid e document
                (Some (EditorInfo.metaData editorInfo)) (World.next_tick w))
      as [valid w1] eqn:Evalid.
    destruct valid.
    + left. exists e.
      destruct (isCacheValid_true _ _ _ _ Evalid) as (_ & _ & ->). auto.
    + right. exists w1. split; [|reflexivity].
      cbn [snd World.tick World.next_tick] in Htick. lia.
  - right. exists (World.next_tick w). split; [cbn; lia|reflexivity].
Qed.

(** X1. When the clock does not run backwards and no entry of the cache
    is stamped later than the call, the entry that a call returns is in
    the cache after the call: the eviction never removes the entry
    that has just been computed. *)
Lemma returned_entry_is_stored (editorInfo : EditorInfo.t) this w :
  cache_ok this ->
  (forall i j, i <= j -> (clock i <= clock j)%Z) ->
  (forall uri e,
      JsMap.get uri (Filter.editorCache this) = Some e ->
      (EditorCacheEntry.lastAnalyzed e <= clock (World.tick w))%Z) ->
  let document := World.document (EditorInfo.editor editorInfo) w in
  let '(result, this', w') :=
    Filter.getCachedAnalysisOrCompute editorInfo this w in
  JsMap.get (TextDocument.uri document) (Filter.editorCache this')
  = Some result.
Proof.
  intros Hok Hmono Hpast document.
  pose proof (cleanup_cache_ok w Hok) as (Hwfs & Hsizes & _).
  destruct Hok as (Hwf & _ & _).
  destruct (getCachedAnalysisOrCompute_recompute_world editorInfo this w)
    as [(e & Hget & ->)|(w1 & Htick & ->)]; [exact Hget|].
  rewrite recompute_spec. cbv beta iota zeta.
  set (swept := fst (Filter.cleanupExpiredCache this w)) in *.
  fold document. set (uri := TextDocument.uri document).
  set (fresh := freshEntry editorInfo swept w1).
  set (stored := Filter.with_editorCache _ swept).
  assert (JsMap.get uri (Filter.editorCache stored) = Some fresh) as Hstored
    by apply get_set_eq.
  rewrite enforce_get_kept; [exact Hstored|].
  destruct (Nat.leb_spec (JsMap.size (Filter.editorCache stored))
              Filter.cacheMaxSize) as [Hle|Hgt]; [now apply kept_all|].
  destruct (JsMap.get uri (Filter.editorCache swept)) as [e0|] eqn:Eold.
  { exfalso. subst stored.
    cbn [Filter.editorCache Filter.with_editorCache] in Hgt.
    rewrite (size_set_present _ _ fresh Eold) in Hgt. lia. }
  assert (Filter.editorCache stored
          = Filter.editorCache swept ++ [(uri, fresh)]) as Hcache
    by (apply set_absent; exact Eold).
  assert (JsMap.size (Filter.editorCache stored) - Filter.cacheMaxSize = 1)
    as Hone.
  { rewrite Hcache in Hgt |- *. unfold JsMap.size in *.
    rewrite length_app in *. cbn [length] in *. lia. }
  destruct (@sort_newest_not_first _ stamp (Filter.editorCache swept)
              (uri, fresh))
    as (h & t & Hsort & Hin).
  - intros Hnil. rewrite Hcache, Hnil in Hgt.
    unfold JsMap.size, Filter.cacheMaxSize in Hgt. cbn in Hgt. lia.
  - intros [k e] Hy. apply In_get in Hy; [|exact Hwfs].
    subst swept. rewrite sweep_get in Hy by exact Hwf.
    destruct (JsMap.get k (Filter.editorCache this)) as [e1|] eqn:E1;
      [|discriminate].
    destruct (expired _ e1); [discriminate|]. injection Hy as ->.
    unfold stamp, fresh, freshEntry.
    cbn [snd EditorCacheEntry.lastAnalyzed].
    specialize (Hpast _ _ E1).
    specialize (Hmono (World.tick w) (S (World.tick w1)) ltac:(lia)). lia.
  - apply not_false_iff_true. intros Hk. apply kept_evicted in Hk.
    destruct Hk as (e' & He'). unfold evicted in He'.
    apply Nat.leb_gt in Hgt. rewrite Hgt, Hone in He'.
    unfold oldestFirst, JsMap.entries in He'. rewrite Hcache in He'.
    change (fun a b => (stamp a - stamp b)%Z) with (compareBy stamp) in He'.
    rewrite Hsort in He'. cbn [firstn] in He'.
    destruct He' as [Heq|[]]. subst h.
    apply get_None_keys in Eold. apply Eold. eapply In_keys. exact Hin.
Qed.
End Survival.

Section Invalidation.
Context {host : Host}.

Implicit Types (this : Filter.t) (w : World.t) (e : EditorCacheEntry.t).

Lemma afterQuery_cache_ok this q :
  cache_ok this ->
  cache_ok (afterQuery this q)
  /\ Filter.regex (afterQuery this q) = Filter.regex this.
Proof.
  intros Hok. destruct q as [editorInfo w|editorUri w|editorInfo w];
    cbn [afterQuery].
  - split; [now apply getCachedAnalysisOrCompute_cache_ok|].
    apply getCachedAnalysisOrCompute_regex.
  - now apply getMatchedLineNumbers_cache_ok.
  - now apply processEditor_cache_ok.
Qed.

Lemma afterQueries_cache_ok (qs : list Query) :
  forall this,
    cache_ok this ->
    cache_ok (fold_left afterQuery qs this)
    /\ Filter.regex (fold_left afterQuery qs this) = Filter.regex this.
Proof.
  induction qs as [|q qs IH]; intros this Hok; cbn [fold_left];
    [now split|].
  destruct (afterQuery_cache_ok q Hok) as [Hok' Hr].
  destruct (IH _ Hok') as [H1 H2]. split; [exact H1|congruence].
Qed.

(** C7. [setRegex] empties the cache of the filter, for every
    document, and adds one to the pattern version.  The next query
    of any document scans its text under the new pattern, and after
    any further queries every answer is still the result of a scan
    under the new pattern, of a text with the digest and the byte
    size of the document asked for (or nothing, for a document that
    the filter does not process): no entry of the old pattern is left
    to be returned. *)
Theorem setRegex_invalidates (newRegex : RegExp) this w :
  let '(this', w') := Filter.setRegex newRegex this w in
  Filter.editorCache this' = []
  /\ Filter.regexVersion this' = S (Filter.regexVersion this)
  /\ Filter.regex this' = newRegex
  /\ (forall (editorInfo : EditorInfo.t) (w1 : World.t),
         let text :=
           TextDocument.getText
             (World.document (EditorInfo.editor editorInfo) w1) in
         EditorCacheEntry.matchedLineNumbers
           (fst (fst (Filter.getCachedAnalysisOrCompute editorInfo this' w1)))
         = matchingLines newRegex text
         /\ forall editorUri,
              JsMap.get editorUri (Filter.activeEditors this')
              = Some editorInfo ->
              fst (fst (Filter.getMatchedLineNumbersOf editorUri this' w1))
              = matchingLines newRegex text)
  /\ (forall (qs : list Query) (w1 : World.t),
         let later := fold_left afterQuery qs this' in
         let textOf (editorInfo : EditorInfo.t) :=
           TextDocument.getText
             (World.document (EditorInfo.editor editorInfo) w1) in
         Filter.regex later = newRegex
         /\ (forall editorInfo : EditorInfo.t,
                exists scanned,
                  EditorCacheEntry.matchedLineNumbers
                    (fst (fst (Filter.getCachedAnalysisOrCompute
                                 editorInfo later w1)))
                  = matchingLines newRegex scanned
                  /\ md5 scanned = md5 (textOf editorInfo)
                  /\ byteLength scanned = byteLength (textOf editorInfo))
         /\ forall editorUri,
              match JsMap.get editorUri (Filter.activeEditors later) with
              | None =>
                  fst (fst (Filter.getMatchedLineNumbersOf editorUri later w1))
                  = []
              | Some editorInfo =>
                  exists scanned,
                    fst (fst (Filter.getMatchedLineNumbersOf editorUri later w1))
                    = matchingLines newRegex scanned
                    /\ md5 scanned = md5 (textOf editorInfo)
                    /\ byteLength scanned = byteLength (textOf editorInfo)
              end).
Proof.
  pose proof (setRegex_spec newRegex this w) as (Hcache & Hregex & Hversion & _).
  destruct (Filter.setRegex newRegex this w) as [this' w']. cbn [fst] in *.
  assert (cache_ok this') as Hok by now apply empty_cache_ok.
  assert (forall (editorInfo : EditorInfo.t) (w1 : World.t),
             EditorCacheEntry.matchedLineNumbers
               (fst (fst (Filter.getCachedAnalysisOrCompute editorInfo this' w1)))
             = matchingLines newRegex
                 (TextDocument.getText
                    (World.document (EditorInfo.editor editorInfo) w1)))
    as Hnext.
  { intros editorInfo w1.
    destruct (getCachedAnalysisOrCompute_cases editorInfo this' w1)
      as [(e & Hget & _)|(w2 & _ & _ & Hdocs & ->)].
    - rewrite cleanupExpiredCache_spec, Hcache in Hget. discriminate.
    - rewrite recompute_spec. cbn [fst]. unfold freshEntry.
      cbn [EditorCacheEntry.matchedLineNumbers].
      rewrite cleanup_regex, Hregex.
      unfold World.document. now rewrite Hdocs. }
  split; [exact Hcache|]. split; [exact Hversion|]. split; [exact Hregex|].
  split.
  - intros editorInfo w1. cbv zeta. split; [apply Hnext|].
    intros editorUri Hactive.
    pose proof (getMatchedLineNumbersOf_cases editorUri this' w1) as H.
    rewrite Hactive in H.
    destruct H as [(e & Hget & _)|(w2 & Hdocs & _ & ->)].
    + rewrite Hcache in Hget. discriminate.
    + specialize (Hnext editorInfo w2).
      destruct (Filter.getCachedAnalysisOrCompute editorInfo this' w2)
        as [[e this''] w'']. cbn [fst] in *. rewrite Hnext.
      unfold World.document. now rewrite Hdocs.
  - intros qs w1. cbv zeta.
    destruct (afterQueries_cache_ok qs Hok) as [(Hwf & _ & Hsound) Hr].
    set (later := fold_left afterQuery qs this') in *. rewrite Hregex in Hr.
    split; [exact Hr|]. split.
    + intros editorInfo.
      destruct (getCachedAnalysisOrCompute_result editorInfo w1 Hwf Hsound)
        as (scanned & (_ & _ & Hl & _) & Hh & Hs).
      exists scanned. rewrite Hr in Hl. now repeat split.
    + intros editorUri.
      pose proof (getMatchedLineNumbersOf_result editorUri w1 Hwf Hsound) as H.
      cbv zeta in H. rewrite Hr in H. exact H.
Qed.

(** ** The states a filter reaches *)

Lemma clearCache_cache_ok this editorUri :
  cache_ok this -> cache_ok (Filter.clearCache editorUri this).
Proof.
  intros (Hwf & Hsize & Hsound). unfold Filter.clearCache.
  destruct (truthy editorUri) as [u|]; [|now apply empty_cache_ok].
  split; [now apply delete_wf|]. split.
  - etransitivity; [apply size_filter|exact Hsize].
  - intros uri e. cbn [Filter.editorCache Filter.with_editorCache Filter.regex].
    destruct (String.eqb_spec u uri) as [->|Hne].
    + now rewrite get_delete_eq.
    + rewrite get_delete_ne by exact Hne. apply Hsound.
Qed.

Lemma clearProcessing_frame this editorUri w :
  let this' := fst (Filter.clearProcessing editorUri this w) in
  Filter.editorCache this' = Filter.editorCache this
  /\ Filter.regex this' = Filter.regex this.
Proof.
  unfold Filter.clearProcessing. now destruct (truthy editorUri).
Qed.

(** X2. Every filter that the public methods produce from
    [new Filter(regex)] satisfies the invariant of the cache: distinct
    keys, at most [cacheMaxSize] entries, every entry the result of a
    scan under the current pattern. *)
Lemma reachable_cache_ok this : reachable this -> cache_ok this.
Proof.
  induction 1 as [regex w|this q _ IH|this regex w _ IH|this u _ IH
                  |this u w _ IH|this u w _ IH|this w _ IH
                  |this v w _ IH|this v w _ IH|this v w _ IH].
  - apply new_cache_ok.
  - now apply afterQuery_cache_ok.
  - apply empty_cache_ok. apply setRegex_spec.
  - now apply clearCache_cache_ok.
  - destruct (clearProcessing_frame this u w) as [Hc Hr].
    eapply cache_ok_ext; eassumption.
  - unfold Filter.removeEditor.
    destruct (clearProcessing_frame this (Some u) w) as [Hc Hr].
    destruct (Filter.clearProcessing (Some u) this w) as [this1 w1].
    cbn [fst] in *. apply clearCache_cache_ok.
    eapply cache_ok_ext; eassumption.
  - apply empty_cache_ok. unfold Filter.dispose.
    destruct (Filter.clearProcessing None this w) as [this1 w1].
    now destruct (Filter.decoration (Filter.clearCache None this1)).
  - eapply cache_ok_ext; [| |exact IH]; reflexivity.
  - eapply cache_ok_ext; [| |exact IH]; reflexivity.
  - eapply cache_ok_ext; [| |exact IH]; reflexivity.
Qed.
End Invalidation.

(* ================================================================== *)
(** * The line index mapping (C8) *)
(* ================================================================== *)

Lemma indexOf_ge (l : list nat) (x : nat) : (-1 <= JsArray.indexOf l x)%Z.
Proof.
  induction l as [|y l IH]; simpl; [lia|].
  destruct (Nat.eqb y x); [lia|].
  destruct (Z.eqb_spec (JsArray.indexOf l x) (-1)); lia.
Qed.

Lemma indexOf_In (l : list nat) (x : nat) :
  In x l ->
  exists i : nat,
    JsArray.indexOf l x = Z.of_nat i /\ nth_error l i = Some x
    /\ forall j, j < i -> nth_error l j <> Some x.
Proof.
  induction l as [|y l IH]; simpl; [intros []|].
  destruct (Nat.eqb_spec y x) as [->|Hne].
  - intros _. exists 0. repeat split. intros j Hj. lia.
  - intros [Heq|Hin]; [contradiction|].
    destruct (IH Hin) as (i & Hi & Hnth & Hfirst). exists (S i).
    rewrite Hi. destruct (Z.eqb_spec (Z.of_nat i) (-1)); [lia|].
    split; [lia|]. split; [exact Hnth|].
    intros [|j] Hj; simpl; [congruence|]. apply Hfirst. lia.
Qed.

Lemma indexOf_not_In (l : list nat) (x : nat) :
  ~ In x l -> JsArray.indexOf l x = (-1)%Z.
Proof.
  induction l as [|y l IH]; simpl; [reflexivity|].
  intros H. destruct (Nat.eqb_spec y x) as [->|Hne]; [exfalso; auto|].
  rewrite IH by auto. reflexivity.
Qed.

Lemma buildFocusDecorationRanges_from (visibleLines matchedLines : list nat) :
  forall ranges,
    fold_left
      (fun ranges originalLineNum =>
         match focusLineNum visibleLines originalLineNum with
         | Some focusLine =>
             ranges ++ [mkRange (Z.to_nat focusLine) 0 (Z.to_nat focusLine) 0]
         | None => ranges
         end)
      matchedLines ranges
    = ranges
      ++ flat_map
           (fun o =>
              match focusLineNum visibleLines o with
              | Some focusLine =>
                  [mkRange (Z.to_nat focusLine) 0 (Z.to_nat focusLine) 0]
              | None => []
              end)
           matchedLines.
Proof.
  induction matchedLines as [|o rest IH]; intros ranges; simpl.
  - now rewrite app_nil_r.
  - rewrite IH. destruct (focusLineNum visibleLines o); simpl.
    + now rewrite <- app_assoc.
    + reflexivity.
Qed.

(** C8. For every visible-line sequence [V], sorted or not, the code
    maps the original line [o] to the focus line [indexOf(o, V) + 1]
    when [o] is in [V] and to nothing otherwise; the reverse mapping
    [V[f - 1]] of the specification takes that focus line back to [o];
    [buildFocusDecorationRanges] emits, in the order of the matched
    lines, one range at the focus line of each matched line that has
    one.  For [V = [2; 5; 7]] the lines 2, 5 and 7 go to the focus lines
    1, 2 and 3 and back, and line 3 has no focus line. *)
Theorem focus_mapping_round_trip (visibleLines matchedLines : list nat) :
  (forall o,
      In o visibleLines ->
      exists i : nat,
        JsArray.indexOf visibleLines o = Z.of_nat i
        /\ focusLineNum visibleLines o = Some (Z.of_nat i + 1)%Z
        /\ originalLineNum visibleLines (Z.of_nat i + 1) = Some o)
  /\ (forall o, ~ In o visibleLines -> focusLineNum visibleLines o = None)
  /\ (forall o f,
         focusLineNum visibleLines o = Some f ->
         In o visibleLines /\ originalLineNum visibleLines f = Some o)
  /\ buildFocusDecorationRanges matchedLines visibleLines
     = flat_map
         (fun o =>
            match focusLineNum visibleLines o with
            | Some focusLine =>
                [mkRange (Z.to_nat focusLine) 0 (Z.to_nat focusLine) 0]
            | None => []
            end)
         matchedLines
  /\ map (focusLineNum [2; 5; 7]) [2; 5; 7; 3]
     = [Some 1%Z; Some 2%Z; Some 3%Z; None]
  /\ map (originalLineNum [2; 5; 7]) [1%Z; 2%Z; 3%Z] = [Some 2; Some 5; Some 7].
Proof.
  assert (forall o,
             In o visibleLines ->
             exists i : nat,
               JsArray.indexOf visibleLines o = Z.of_nat i
               /\ focusLineNum visibleLines o = Some (Z.of_nat i + 1)%Z
               /\ originalLineNum visibleLines (Z.of_nat i + 1) = Some o)
    as Hforward.
  { intros o Hin. destruct (indexOf_In _ _ Hin) as (i & Hi & Hnth & _).
    exists i. split; [exact Hi|]. unfold focusLineNum, originalLineNum.
    rewrite Hi. split.
    - destruct (Z.eqb_spec (Z.of_nat i) (-1)); [lia|reflexivity].
    - destruct (Z.leb_spec 1 (Z.of_nat i + 1)); [|lia].
      replace (Z.to_nat (Z.of_nat i + 1 - 1)) with i by lia. exact Hnth. }
  assert (forall o, ~ In o visibleLines -> focusLineNum visibleLines o = None)
    as Hnone.
  { intros o Hnot. unfold focusLineNum. now rewrite indexOf_not_In. }
  split; [exact Hforward|]. split; [exact Hnone|]. split.
  - intros o f Hf. destruct (in_dec Nat.eq_dec o visibleLines) as [Hin|Hnot].
    + split; [exact Hin|]. destruct (Hforward o Hin) as (i & _ & Hf' & Hback).
      congruence.
    + rewrite (Hnone o Hnot) in Hf. discriminate.
  - split; [|split; reflexivity].
    unfold buildFocusDecorationRanges.
    now rewrite buildFocusDecorationRanges_from.
Qed.

(* ================================================================== *)
(** * Invalid patterns (C9) *)
(* ================================================================== *)

(** C9. A pattern that does not compile changes nothing.  In
    [editFilter] the error of [new RegExp] is caught before [setRegex]
    runs: the state, and with it the pattern of the filter, stays as
    it was and the error is shown.  In [addFilter] the error leaves the
    command before a filter is built: no filter is added.  The JavaScript
    engine compiles the source of the filter's current pattern and the
    empty pattern; these are the two hypotheses on the host. *)
Theorem invalid_pattern_rejected {host : Host} (regexStr error : string)
    (filterId groupId : string) (state : Commands.State) (w : World.t) :
  RegExp_new regexStr = inl error ->
  (forall p filter,
      Commands.selectedProject state = Some p ->
      JsMap.get filterId (Project.filters p) = Some filter ->
      exists regex, RegExp_new (RegExp_source (Filter.regex filter)) = inr regex) ->
  (exists regex, RegExp_new EmptyString = inr regex) ->
  (forall p filter,
      Commands.selectedProject state = Some p ->
      JsMap.get filterId (Project.filters p) = Some filter ->
      Commands.editFilter filterId (Some regexStr) state w
      = (Commands.Returned, state,
         World.emit (ShowErrorMessage ("Invalid Regex: " ++ error)%string) w))
  /\ (forall p group,
         Commands.selectedProject state = Some p ->
         JsMap.get groupId (Project.groups p) = Some group ->
         Commands.addFilter groupId (Some regexStr) state w
         = (Commands.Thrown error, state, w))
  /\ snd (fst (Commands.editFilter filterId (Some regexStr) state w)) = state
  /\ snd (fst (Commands.addFilter groupId (Some regexStr) state w)) = state.
Proof.
  intros Hbad Hsource Hempty.
  assert (forall p filter,
             Commands.selectedProject state = Some p ->
             JsMap.get filterId (Project.filters p) = Some filter ->
             String.eqb regexStr (RegExp_source (Filter.regex filter)) = false)
    as Hne.
  { intros p filter Hp Hf.
    destruct (String.eqb_spec regexStr (RegExp_source (Filter.regex filter)))
      as [->|]; [|reflexivity].
    destruct (Hsource p filter Hp Hf) as (regex & H). congruence. }
  assert (truthy (Some regexStr) = Some regexStr) as Htruthy.
  { destruct regexStr; [|reflexivity].
    destruct Hempty as (regex & H). congruence. }
  split; [|split; [|split]].
  - intros p filter Hp Hf. unfold Commands.editFilter.
    now rewrite Hp, Hf, (Hne p filter Hp Hf), Hbad.
  - intros p group Hp Hg. unfold Commands.addFilter.
    now rewrite Hp, Htruthy, Hg, Hbad.
  - unfold Commands.editFilter.
    destruct (Commands.selectedProject state) as [p|] eqn:Hp; [|reflexivity].
    destruct (JsMap.get filterId (Project.filters p)) as [filter|] eqn:Hf;
      [|reflexivity].
    now rewrite (Hne p filter eq_refl Hf), Hbad.
  - unfold Commands.addFilter.
    destruct (Commands.selectedProject state) as [p|]; [|reflexivity].
    rewrite Htruthy.
    destruct (JsMap.get groupId (Project.groups p)); [|reflexivity].
    now rewrite Hbad.
Qed.

(* ================================================================== *)
(** * The cache is transparent *)
(* ================================================================== *)

Section Transparency.
Context {host : Host}.
Implicit Types (this : Filter.t) (w : World.t) (e : EditorCacheEntry.t).
Variable content : string -> Z -> string.

Lemma versioned_ext w w1 :
  World.documents w1 = World.documents w ->
  versioned content w -> versioned content w1.
Proof.
  intros Hd H editor. unfold World.document. rewrite Hd. apply H.
Qed.

Lemma getCachedAnalysisOrCompute_documents (editorInfo : EditorInfo.t) this w :
  World.documents (snd (Filter.getCachedAnalysisOrCompute editorInfo this w))
  = World.documents w.
Proof.
  destruct (getCachedAnalysisOrCompute_cases editorInfo this w)
    as [(e & _ & _ & ->)|(w1 & _ & _ & Hd & ->)].
  - reflexivity.
  - rewrite recompute_spec. cbn. rewrite tested_documents. exact Hd.
Qed.

Lemma getCachedAnalysisOrCompute_exact (editorInfo : EditorInfo.t) this w :
  JsMap.wf (Filter.editorCache this) ->
  cache_exact content this ->
  versioned content w ->
  let text :=
    TextDocument.getText (World.document (EditorInfo.editor editorInfo) w) in
  let '(e, this', w') := Filter.getCachedAnalysisOrCompute editorInfo this w in
  exactFor (Filter.regex this) e text /\ cache_exact content this'.
Proof.
  intros Hwf Hex Hv. cbv zeta.
  pose proof (sweep_get this w) as Hsweep.
  pose proof (cleanup_regex this w) as Hregex.
  assert (cache_exact content (fst (Filter.cleanupExpiredCache this w)))
    as Hswept.
  { intros uri e' He'. rewrite Hregex. rewrite Hsweep in He' by exact Hwf.
    destruct (JsMap.get uri (Filter.editorCache this)) as [e1|] eqn:E1;
      [|discriminate].
    destruct (expired _ e1); [discriminate|]. injection He' as <-.
    now apply Hex. }
  destruct (getCachedAnalysisOrCompute_cases editorInfo this w)
    as [(e & Hget & Hvalid & ->)|(w1 & _ & _ & Hd & ->)];
    set (swept := fst (Filter.cleanupExpiredCache this w)) in *;
    clearbody swept; rewrite <- Hregex; clear Hsweep Hregex Hex Hwf this.
  - apply isCacheValid_true in Hvalid. destruct Hvalid as ((Hver & _) & _).
    apply Hswept in Hget. rewrite Hver, <- Hv in Hget.
    split; [exact Hget|exact Hswept].
  - rewrite recompute_spec. cbv zeta.
    assert (World.document (EditorInfo.editor editorInfo) w1
            = World.document (EditorInfo.editor editorInfo) w) as Hdoc.
    { unfold World.document. now rewrite Hd. }
    assert (exactFor (Filter.regex swept) (freshEntry editorInfo swept w1)
              (TextDocument.getText
                 (World.document (EditorInfo.editor editorInfo) w))) as Hfresh.
    { unfold exactFor, freshEntry. rewrite Hdoc.
      cbn [EditorCacheEntry.matchedLineNumbers EditorCacheEntry.count
           EditorCacheEntry.matchedRanges].
      split; [reflexivity|]. split; [reflexivity|].
      destruct (EditorMetaData.isLargeFile _); [now right|now left]. }
    split; [exact Hfresh|].
    intros uri e' He'. rewrite enforce_regex.
    cbn [Filter.regex Filter.with_editorCache].
    apply enforce_get_Some in He'. destruct He' as [He' _].
    cbn [Filter.editorCache Filter.with_editorCache] in He'.
    destruct (String.eqb_spec
                (TextDocument.uri (World.document (EditorInfo.editor editorInfo) w))
                uri) as [<-|Hne].
    + rewrite get_set_eq in He'. injection He' as <-.
      replace (content _ _)
        with (TextDocument.getText
                (World.document (EditorInfo.editor editorInfo) w));
        [exact Hfresh|].
      rewrite Hv. unfold freshEntry. cbn [EditorCacheEntry.version].
      now rewrite Hdoc.
    + rewrite get_set_ne in He' by exact Hne. now apply Hswept.
Qed.

Lemma getMatchedLineNumbersOf_documents (editorUri : string) this w :
  World.documents (snd (Filter.getMatchedLineNumbersOf editorUri this w))
  = World.documents w.
Proof.
  pose proof (getMatchedLineNumbersOf_cases editorUri this w) as H.
  destruct (JsMap.get editorUri (Filter.activeEditors this)) as [editorInfo|].
  - destruct H as [(e & _ & _ & ->)|(w1 & Hd & _ & ->)]; [reflexivity|].
    pose proof (getCachedAnalysisOrCompute_documents editorInfo this w1) as H1.
    destruct (Filter.getCachedAnalysisOrCompute editorInfo this w1)
      as [[e this'] w'].
    cbn in *. congruence.
  - now rewrite H.
Qed.

Lemma getMatchedLineNumbersOf_exact (editorUri : string) this w :
  JsMap.wf (Filter.editorCache this) ->
  cache_exact content this ->
  versioned content w ->
  let '(lineNumbers, this', w') :=
    Filter.getMatchedLineNumbersOf editorUri this w in
  cache_exact content this'
  /\ forall editorInfo : EditorInfo.t,
       JsMap.get editorUri (Filter.activeEditors this) = Some editorInfo ->
       TextDocument.uri (World.document (EditorInfo.editor editorInfo) w)
       = editorUri ->
       lineNumbers
       = matchingLines (Filter.regex this)
           (TextDocument.getText
              (World.document (EditorInfo.editor editorInfo) w)).
Proof.
  intros Hwf Hex Hv.
  pose proof (getMatchedLineNumbersOf_cases editorUri this w) as H.
  destruct (JsMap.get editorUri (Filter.activeEditors this)) as [editorInfo|].
  - destruct H as [(e & Hget & Hfp & ->)|(w1 & Hd & _ & ->)].
    + destruct Hfp as (Hver & _).
      split; [exact Hex|]. intros ? [= <-] Huri.
      apply Hex in Hget. rewrite Hver, <- Huri, <- Hv in Hget. apply Hget.
    + pose proof (@getCachedAnalysisOrCompute_exact editorInfo this w1 Hwf Hex
                    (@versioned_ext w w1 Hd Hv)) as H1.
      destruct (Filter.getCachedAnalysisOrCompute editorInfo this w1)
        as [[e this'] w'].
      destruct H1 as ((Hm & _) & Hex'). split; [exact Hex'|].
      intros ? [= <-] _. rewrite Hm. unfold World.document. now rewrite Hd.
  - rewrite H. split; [exact Hex|]. discriminate.
Qed.

Lemma getMatchedLineNumbers_all_exact
    (editors : list (string * EditorInfo.t)) :
  forall allLineNumbers this w,
    cache_ok this -> cache_exact content this -> versioned content w ->
    cache_exact content
      (snd (fst (fold_left
                   (fun '(allLineNumbers, this, w) '(uri, _) =>
                      let '(ns, this, w) :=
                        Filter.getMatchedLineNumbersOf uri this w in
                      (allLineNumbers ++ ns, this, w))
                   editors (allLineNumbers, this, w)))).
Proof.
  induction editors as [|[uri editorInfo] editors IH];
    intros allLineNumbers this w Hok Hex Hv; [exact Hex|].
  cbn [fold_left].
  pose proof (getMatchedLineNumbersOf_cache_ok uri w Hok) as Hok'.
  pose proof (getMatchedLineNumbersOf_documents uri this w) as Hd.
  pose proof (@getMatchedLineNumbersOf_exact uri this w (proj1 Hok) Hex Hv)
    as Hex'.
  destruct (Filter.getMatchedLineNumbersOf uri this w) as [[ns this'] w'].
  cbn in Hok', Hd. apply IH; [exact Hok'|apply Hex'|].
  exact (@versioned_ext w w' Hd Hv).
Qed.

Lemma processEditor_exact (editorInfo : EditorInfo.t) this w :
  JsMap.wf (Filter.editorCache this) ->
  cache_exact content this ->
  versioned content w ->
  let this' := fst (Filter.processEditor editorInfo this w) in
  cache_exact content this'
  /\ (EditorMetaData.isSelected (EditorInfo.metaData editorInfo) = true ->
      Filter.count this'
      = length (matchingLines (Filter.regex this)
                  (TextDocument.getText
                     (World.document (EditorInfo.editor editorInfo) w)))).
Proof.
  intros Hwf Hex Hv. cbv zeta. unfold Filter.processEditor.
  set (start := if negb (Filter.decoration this)
                then Filter.createDecoration this w else (this, w)).
  assert (Filter.editorCache (fst start) = Filter.editorCache this
          /\ Filter.regex (fst start) = Filter.regex this
          /\ World.documents (snd start) = World.documents w) as (Hc & Hr & Hd).
  { subst start. now destruct (Filter.decoration this). }
  destruct start as [this0 w0]. cbn [fst snd] in Hc, Hr, Hd.
  set (this1 := Filter.with_activeEditors _ this0).
  assert (JsMap.wf (Filter.editorCache this1)) as Hwf1.
  { subst this1. cbn. now rewrite Hc. }
  assert (cache_exact content this1) as Hex1.
  { intros uri e He. subst this1. cbn in *. rewrite Hc in He. rewrite Hr.
    now apply Hex. }
  pose proof (@getCachedAnalysisOrCompute_exact editorInfo this1 w0 Hwf1 Hex1
                (@versioned_ext w w0 Hd Hv)) as H1.
  destruct (Filter.getCachedAnalysisOrCompute editorInfo this1 w0)
    as [[e this2] w2].
  destruct H1 as ((Hm & Hcount & _) & Hex2).
  assert (Filter.regex this1 = Filter.regex this) as Hr1
    by (subst this1; exact Hr).
  assert (World.document (EditorInfo.editor editorInfo) w0
          = World.document (EditorInfo.editor editorInfo) w) as Hdoc.
  { unfold World.document. now rewrite Hd. }
  rewrite Hr1, Hdoc in Hcount.
  destruct (EditorMetaData.isSelected (EditorInfo.metaData editorInfo));
    cbn [fst].
  - split; [|intros _; exact Hcount].
    intros uri e' He'. cbn in *. now apply Hex2.
  - split; [|discriminate].
    intros uri e' He'. cbn in *. now apply Hex2.
Qed.

Lemma afterQuery_exact this q :
  cache_ok this -> cache_exact content this ->
  versioned content (queryWorld q) ->
  cache_exact content (afterQuery this q).
Proof.
  intros Hok Hex Hv. destruct q as [editorInfo w|editorUri w|editorInfo w];
    cbn [afterQuery queryWorld] in *.
  - pose proof (@getCachedAnalysisOrCompute_exact editorInfo this w
                  (proj1 Hok) Hex Hv) as H.
    destruct (Filter.getCachedAnalysisOrCompute editorInfo this w)
      as [[e this'] w'].
    apply H.
  - unfold Filter.getMatchedLineNumbers.
    destruct (truthy editorUri) as [u|].
    + pose proof (@getMatchedLineNumbersOf_exact u this w (proj1 Hok) Hex Hv)
        as H.
      destruct (Filter.getMatchedLineNumbersOf u this w) as [[ns this'] w'].
      apply H.
    + now apply getMatchedLineNumbers_all_exact.
  - now apply processEditor_exact; [apply Hok| |].
Qed.

Lemma afterQueries_exact (qs : list Query) :
  forall this,
    cache_ok this -> cache_exact content this ->
    Forall (fun q => versioned content (queryWorld q)) qs ->
    cache_exact content (fold_left afterQuery qs this).
Proof.
  induction qs as [|q qs IH]; intros this Hok Hex Hall; [exact Hex|].
  inversion Hall as [|? ? Hq Hqs]; subst. cbn [fold_left].
  apply IH; [now apply afterQuery_cache_ok|now apply afterQuery_exact|exact Hqs].
Qed.

(** X3. While the text of a document is determined by its uri and
    its version, the cache is transparent.  From a filter whose cache
    is empty (a new filter, or one whose pattern has just been
    replaced), after any sequence of queries,
    [getCachedAnalysisOrCompute] and [getMatchedLineNumbers(uri)]
    answer exactly the line numbers that a scan of the current text
    finds, and [processEditor] of the selected editor sets [count] to
    their number, whatever the clock reads and whatever has been swept
    or evicted.  Nothing is assumed of the digest. *)
Theorem answers_are_fresh_scans this (qs : list Query) :
  Filter.editorCache this = [] ->
  Forall (fun q => versioned content (queryWorld q)) qs ->
  let later := fold_left afterQuery qs this in
  forall (editorInfo : EditorInfo.t) w,
    versioned content w ->
    let document := World.document (EditorInfo.editor editorInfo) w in
    let found :=
      matchingLines (Filter.regex this) (TextDocument.getText document) in
    EditorCacheEntry.matchedLineNumbers
      (fst (fst (Filter.getCachedAnalysisOrCompute editorInfo later w)))
    = found
    /\ (forall editorUri,
           JsMap.get editorUri (Filter.activeEditors later) = Some editorInfo ->
           TextDocument.uri document = editorUri ->
           fst (fst (Filter.getMatchedLineNumbersOf editorUri later w)) = found)
    /\ (EditorMetaData.isSelected (EditorInfo.metaData editorInfo) = true ->
        Filter.count (fst (Filter.processEditor editorInfo later w))
        = length found).
Proof.
  intros Hempty Hall later editorInfo w Hv document found.
  assert (cache_ok this) as Hok by now apply empty_cache_ok.
  assert (cache_exact content this) as Hex.
  { intros uri e He. rewrite Hempty in He. discriminate. }
  destruct (afterQueries_cache_ok qs Hok) as [Hok' Hregex].
  pose proof (afterQueries_exact Hok Hex Hall) as Hex'.
  fold later in Hok', Hregex, Hex'.
  subst found. rewrite <- Hregex. split; [|split].
  - pose proof (@getCachedAnalysisOrCompute_exact editorInfo later w
                  (proj1 Hok') Hex' Hv) as H.
    destruct (Filter.getCachedAnalysisOrCompute editorInfo later w)
      as [[e this'] w'].
    apply H.
  - intros editorUri Hget Huri.
    pose proof (@getMatchedLineNumbersOf_exact editorUri later w
                  (proj1 Hok') Hex' Hv) as H.
    destruct (Filter.getMatchedLineNumbersOf editorUri later w)
      as [[ns this'] w'].
    now apply H.
  - now apply processEditor_exact; [apply Hok'| |].
Qed.
End Transparency.

(* ================================================================== *)
(** * What the methods of a filter leave alone *)
(* ================================================================== *)

Section Frames.
Context {host : Host}.
Implicit Types (this : Filter.t) (w : World.t) (e : EditorCacheEntry.t).

Lemma advanced_refl w : advanced w w.
Proof. now repeat split. Qed.

Lemma advanced_trans w1 w2 w3 :
  advanced w1 w2 -> advanced w2 w3 -> advanced w1 w3.
Proof.
  unfold advanced. intros (? & ? & ? & ? & ?) (? & ? & ? & ? & ?).
  repeat split; congruence.
Qed.

Lemma advanced_next_tick w : advanced w (World.next_tick w).
Proof. now repeat split. Qed.

Lemma advanced_tested n w : advanced w (tested n w).
Proof.
  induction n as [|n IH]; [apply advanced_refl|].
  eapply advanced_trans; [exact IH|]. now repeat split.
Qed.

Lemma isCacheValid_advanced e document metaData w :
  advanced w (snd (Filter.isCacheValid e document metaData w)).
Proof.
  unfold Filter.isCacheValid.
  repeat match goal with
         | |- context [if ?c then _ else _] => destruct c
         end; cbn [snd]; try apply advanced_refl; apply advanced_next_tick.
Qed.

Lemma getCachedAnalysisOrCompute_advanced (editorInfo : EditorInfo.t) this w :
  advanced w (snd (Filter.getCachedAnalysisOrCompute editorInfo this w)).
Proof.
  unfold Filter.getCachedAnalysisOrCompute.
  rewrite cleanupExpiredCache_spec.
  set (swept := Filter.with_editorCache _ this).
  set (document := World.document (EditorInfo.editor editorInfo) w).
  assert (forall w1, advanced w w1 ->
            advanced w
              (snd (recompute (TextDocument.uri document) editorInfo swept w1)))
    as Hre.
  { intros w1 H1. rewrite recompute_spec. cbn [snd].
    eapply advanced_trans; [exact H1|].
    eapply advanced_trans; [apply advanced_tested|].
    eapply advanced_trans; apply advanced_next_tick. }
  destruct (JsMap.get (TextDocument.uri document) (Filter.editorCache swept))
    as [e|].
  - pose proof (isCacheValid_advanced e document
                  (Some (EditorInfo.metaData editorInfo)) (World.next_tick w))
      as Hv.
    destruct (Filter.isCacheValid e document _ (World.next_tick w))
      as [valid w1].
    cbn [snd] in Hv.
    assert (advanced w w1) as H1
      by (eapply advanced_trans; [apply advanced_next_tick|exact Hv]).
    destruct valid; [exact H1|]. now apply Hre.
  - apply Hre, advanced_next_tick.
Qed.

Lemma getMatchedLineNumbersOf_advanced (editorUri : string) this w :
  advanced w (snd (Filter.getMatchedLineNumbersOf editorUri this w)).
Proof.
  unfold Filter.getMatchedLineNumbersOf.
  destruct (JsMap.get editorUri (Filter.activeEditors this)) as [editorInfo|];
    [|apply advanced_refl].
  assert (forall w1, advanced w w1 ->
            advanced w
              (snd (let '(e, this0, w0) :=
                      Filter.getCachedAnalysisOrCompute editorInfo this w1 in
                    (EditorCacheEntry.matchedLineNumbers e, this0, w0))))
    as Hre.
  { intros w1 H1.
    pose proof (getCachedAnalysisOrCompute_advanced editorInfo this w1) as H2.
    destruct (Filter.getCachedAnalysisOrCompute editorInfo this w1)
      as [[e this0] w0].
    eapply advanced_trans; [exact H1|exact H2]. }
  destruct (JsMap.get editorUri (Filter.editorCache this)) as [e|].
  - pose proof (isCacheValid_advanced e
                  (World.document (EditorInfo.editor editorInfo) w)
                  (Some (EditorInfo.metaData editorInfo)) w) as Hv.
    destruct (Filter.isCacheValid e _ _ w) as [valid w1].
    destruct valid; [exact Hv|]. now apply Hre.
  - apply Hre, advanced_refl.
Qed.

Lemma cache_only_refl (f : Filter.t) : cache_only f f.
Proof. now destruct f. Qed.

Lemma cache_only_trans (f1 f2 f3 : Filter.t) :
  cache_only f1 f2 -> cache_only f2 f3 -> cache_only f1 f3.
Proof.
  unfold cache_only. intros H12 H23. rewrite H23, H12. reflexivity.
Qed.

Lemma getMatchedLineNumbers_all_frame
    (editors : list (string * EditorInfo.t)) :
  forall allLineNumbers this w,
    let result :=
      fold_left
        (fun '(allLineNumbers, this, w) '(uri, _) =>
           let '(ns, this, w) := Filter.getMatchedLineNumbersOf uri this w in
           (allLineNumbers ++ ns, this, w))
        editors (allLineNumbers, this, w) in
    cache_only this (snd (fst result)) /\ advanced w (snd result).
Proof.
  induction editors as [|[uri editorInfo] editors IH];
    intros allLineNumbers this w; cbn [fold_left].
  - split; [apply cache_only_refl|apply advanced_refl].
  - pose proof (getMatchedLineNumbersOf_frame uri this w) as Hf.
    pose proof (getMatchedLineNumbersOf_advanced uri this w) as Ha.
    destruct (Filter.getMatchedLineNumbersOf uri this w) as [[ns this1] w1].
    cbn [fst snd] in Hf, Ha.
    destruct (IH (allLineNumbers ++ ns) this1 w1) as [Hf' Ha'].
    split; [eapply cache_only_trans; eassumption
           |eapply advanced_trans; eassumption].
Qed.

Lemma getMatchedLineNumbers_frame (editorUri : option string) this w :
  let result := Filter.getMatchedLineNumbers editorUri this w in
  cache_only this (snd (fst result)) /\ advanced w (snd result).
Proof.
  unfold Filter.getMatchedLineNumbers.
  destruct (truthy editorUri) as [u|].
  - split; [apply getMatchedLineNumbersOf_frame
           |apply getMatchedLineNumbersOf_advanced].
  - apply getMatchedLineNumbers_all_frame.
Qed.

Lemma keys_set_present (V : Type) (m : JsMap.t V) (k : string) (v v0 : V) :
  JsMap.get k m = Some v0 -> JsMap.keys (JsMap.set k v m) = JsMap.keys m.
Proof.
  intros Hget. rewrite keys_set.
  destruct (existsb (String.eqb k) (JsMap.keys m)) eqn:E; [reflexivity|].
  assert (JsMap.get k m = None) as Hnone; [|congruence].
  apply get_None_keys. intros Hin.
  assert (existsb (String.eqb k) (JsMap.keys m) = true); [|congruence].
  apply existsb_exists. exists k. split; [exact Hin|apply String.eqb_refl].
Qed.

Lemma caches_only_refl asked (p : Project.t) : caches_only asked p p.
Proof.
  repeat split. intros key f Hget. exists f.
  split; [exact Hget|]. split; [apply cache_only_refl|reflexivity].
Qed.

Lemma caches_only_trans asked (p1 p2 p3 : Project.t) :
  caches_only asked p1 p2 -> caches_only asked p2 p3 ->
  caches_only asked p1 p3.
Proof.
  intros (Hg & Hn & Hi & Hs & Hk & Hf) (Hg' & Hn' & Hi' & Hs' & Hk' & Hf').
  repeat split; try congruence.
  intros key f Hget. destruct (Hf key f Hget) as (f2 & Hget2 & Hc & Hsame).
  destruct (Hf' key f2 Hget2) as (f3 & Hget3 & Hc' & Hsame').
  exists f3. split; [exact Hget3|].
  split; [eapply cache_only_trans; eassumption|].
  intros Hnot. rewrite (Hsame' Hnot). now apply Hsame.
Qed.

Lemma caches_only_incl asked asked' (p p' : Project.t) :
  incl asked asked' -> caches_only asked p p' -> caches_only asked' p p'.
Proof.
  intros Hincl (Hg & Hn & Hi & Hs & Hk & Hf). repeat split; try assumption.
  intros key f Hget. destruct (Hf key f Hget) as (f' & Hget' & Hc & Hsame).
  exists f'. repeat split; try assumption.
  intros Hnot. apply Hsame. intros Hin. apply Hnot. now apply Hincl.
Qed.

(** A method that changes the cache only, called on the filter under
    [key]. *)
Lemma call_caches_only (A : Type) (default : A) (key : string)
    (method : Filter.t -> World.t -> A * Filter.t * World.t)
    (p : Project.t) w :
  (forall f w0,
      cache_only f (snd (fst (method f w0)))
      /\ advanced w0 (snd (method f w0))) ->
  let result := Project.call default key method p w in
  caches_only [key] p (snd (fst result)) /\ advanced w (snd result).
Proof.
  intros Hmethod. unfold Project.call.
  destruct (JsMap.get key (Project.filters p)) as [f|] eqn:Eget.
  - destruct (Hmethod f w) as [Hc Ha].
    destruct (method f w) as [[a f'] w']. cbn [fst snd] in *.
    split; [|exact Ha]. repeat split.
    + cbn. eapply keys_set_present. exact Eget.
    + intros k f0 Hk. cbn [Project.filters Project.with_filters].
      destruct (String.eqb_spec key k) as [<-|Hne].
      * rewrite get_set_eq. exists f'. split; [reflexivity|].
        assert (f0 = f) as -> by congruence.
        split; [exact Hc|]. intros Hnot. exfalso. apply Hnot. now left.
      * rewrite get_set_ne by exact Hne. exists f0.
        split; [exact Hk|]. split; [apply cache_only_refl|reflexivity].
  - cbn [fst snd]. split; [apply caches_only_refl|apply advanced_refl].
Qed.

Lemma forEachMatchedLine_frame step originalUri (filters : list string) :
  forall resultLines (p : Project.t) w,
    let '(_, this', w') :=
      FocusProvider.forEachMatchedLine step originalUri filters resultLines
        (Some p) w in
    exists p',
      this' = Some p' /\ caches_only filters p p' /\ advanced w w'.
Proof.
  unfold FocusProvider.forEachMatchedLine.
  induction filters as [|key filters IH]; intros resultLines p w;
    cbn [fold_left].
  - exists p. split; [reflexivity|].
    split; [apply caches_only_refl|apply advanced_refl].
  - unfold FocusProvider.call at 2.
    pose proof (@call_caches_only (list nat) [] key
                  (Filter.getMatchedLineNumbers (Some originalUri)) p w
                  (fun f w0 => getMatchedLineNumbers_frame
                                 (Some originalUri) f w0)) as H.
    destruct (Project.call [] key
                (Filter.getMatchedLineNumbers (Some originalUri)) p w)
      as [[lineNumbers p1] w1].
    cbn [fst snd] in H. destruct H as [Hc Ha].
    specialize (IH (fold_left (fun s lineNum => step lineNum s)
                      lineNumbers resultLines) p1 w1).
    destruct (fold_left _ filters _) as [[s this'] w'].
    destruct IH as (p' & Hp' & Hc' & Ha').
    exists p'. split; [exact Hp'|].
    split; [|eapply advanced_trans; eassumption].
    eapply caches_only_trans.
    + eapply caches_only_incl; [|exact Hc]. intros k [<-|[]]. now left.
    + eapply caches_only_incl; [|exact Hc']. intros k Hk. now right.
Qed.

Lemma getActiveFilters_In (p : Project.t) (key : string) (f : Filter.t) :
  JsMap.wf (Project.filters p) ->
  JsMap.get key (Project.filters p) = Some f ->
  (In key (fst (FocusProvider.getActiveFilters (Some p))) ->
   Filter.isShown f = true /\ Filter.isExclude f = false)
  /\ (In key (snd (FocusProvider.getActiveFilters (Some p))) ->
      Filter.isShown f = true /\ Filter.isExclude f = true).
Proof.
  intros Hwf Hget. unfold FocusProvider.getActiveFilters, JsMap.entries.
  rewrite getActiveFilters_from. cbn [fst snd app].
  split; intros Hin; apply in_map_iff in Hin;
    destruct Hin as ([k f0] & Hk & Hin); cbn in Hk; subst k;
    apply filter_In in Hin; destruct Hin as [Hin Hflags]; cbn in Hflags;
    (apply In_get in Hin; [|exact Hwf]);
    assert (f0 = f) as -> by congruence;
    apply andb_true_iff in Hflags; destruct Hflags as [H1 H2].
  - split; [exact H1|]. now apply negb_true_iff.
  - now split.
Qed.

(** X7. [getVisibleLines] (and with it [generateFilteredContent],
    which leaves the same state) changes nothing but the caches of the
    filters that it asks: the groups, the name and the keys of the
    project, and every field of every filter but [editorCache], are as
    before; a hidden filter is not touched at all, nor is an exclude
    filter when there is a positive filter; nothing is recorded in the
    user interface and no document changes. *)
Theorem getVisibleLines_changes_caches_only (originalUri : string)
    (originalDoc : TextDocument.t) (p : Project.t) w :
  JsMap.wf (Project.filters p) ->
  let '(visibleLines, this', w') :=
    FocusProvider.getVisibleLines originalUri originalDoc (Some p) w in
  exists p',
    this' = Some p'
    /\ Project.groups p' = Project.groups p
    /\ Project.name p' = Project.name p
    /\ JsMap.keys (Project.filters p') = JsMap.keys (Project.filters p)
    /\ (forall key f,
           JsMap.get key (Project.filters p) = Some f ->
           exists f',
             JsMap.get key (Project.filters p') = Some f'
             /\ f' = Filter.with_editorCache (Filter.editorCache f') f
             /\ (Filter.isShown f = false -> f' = f)
             /\ (Filter.isExclude f = true ->
                 fst (FocusProvider.getActiveFilters (Some p)) <> [] ->
                 f' = f))
    /\ World.trace w' = World.trace w
    /\ World.documents w' = World.documents w.
Proof.
  intros Hwf.
  unfold FocusProvider.getVisibleLines, FocusProvider.collectResultLines.
  pose proof (fun key f => @getActiveFilters_In p key f Hwf) as Hactive.
  destruct (FocusProvider.getActiveFilters (Some p))
    as [positiveFilters excludeFilters].
  cbn [fst snd] in Hactive.
  set (asked := if Nat.ltb 0 (length positiveFilters)
                then positiveFilters else excludeFilters).
  assert (exists s0 step,
             (if Nat.ltb 0 (length positiveFilters)
              then FocusProvider.forEachMatchedLine JsSet.add originalUri
                     positiveFilters JsSet.empty (Some p) w
              else FocusProvider.forEachMatchedLine JsSet.delete originalUri
                     excludeFilters
                     (fold_left (fun s i => JsSet.add i s)
                        (seq 0 (TextDocument.lineCount originalDoc))
                        JsSet.empty) (Some p) w)
             = FocusProvider.forEachMatchedLine step originalUri asked s0
                 (Some p) w) as (s0 & step & ->).
  { subst asked. destruct (Nat.ltb 0 (length positiveFilters)); eauto. }
  pose proof (forEachMatchedLine_frame step originalUri asked s0 p w) as H.
  destruct (FocusProvider.forEachMatchedLine step originalUri asked s0
              (Some p) w) as [[resultLines this'] w'].
  destruct H as (p' & -> & (Hg & Hn & _ & _ & Hk & Hf) & Ha).
  exists p'. split; [reflexivity|]. split; [exact Hg|]. split; [exact Hn|].
  split; [exact Hk|]. split; [|split; apply Ha].
  intros key f Hget. destruct (Hf key f Hget) as (f' & Hget' & Hc & Hsame).
  exists f'. split; [exact Hget'|]. split; [exact Hc|].
  destruct (Hactive key f Hget) as [Hpos Hexc].
  split.
  - intros Hhidden. apply Hsame. intros Hin. subst asked.
    destruct (Nat.ltb 0 (length positiveFilters));
      [apply Hpos in Hin|apply Hexc in Hin]; destruct Hin; congruence.
  - intros Hexclude Hsome. apply Hsame. intros Hin. subst asked.
    destruct positiveFilters as [|k l]; [contradiction|].
    cbn in Hin. apply Hpos in Hin. destruct Hin. congruence.
Qed.
End Frames.

Section FilterLifecycle.
Context {host : Host}.
Implicit Types (this : Filter.t) (w : World.t) (e : EditorCacheEntry.t).

Lemma quietly_refl w : quietly w w.
Proof.
  repeat split. exists []. split; [now rewrite app_nil_r|constructor].
Qed.

Lemma quietly_trans w1 w2 w3 : quietly w1 w2 -> quietly w2 w3 -> quietly w1 w3.
Proof.
  intros (? & ? & ? & ? & evs & Ht & Hq) (? & ? & ? & ? & evs' & Ht' & Hq').
  repeat split; try congruence.
  exists (evs ++ evs'). split.
  - rewrite Ht', Ht. now rewrite app_assoc.
  - apply Forall_app. now split.
Qed.

Lemma quietly_emit (ev : Event) w :
  highlights ev = false -> quietly w (World.emit ev w).
Proof.
  intros H. repeat split. exists [ev]. split; [reflexivity|].
  now repeat constructor.
Qed.

Lemma advanced_quietly w w' : advanced w w' -> quietly w w'.
Proof.
  intros (? & ? & ? & ? & Ht). repeat split; try assumption.
  exists []. split; [now rewrite app_nil_r|constructor].
Qed.

Lemma applyDecorationsToEditor_quietly (editorInfo : EditorInfo.t)
    (matchedRanges : list Range) this w :
  Filter.isExclude this = true \/ Filter.isHighlighted this = false ->
  quietly w (Filter.applyDecorationsToEditor editorInfo matchedRanges this w).
Proof.
  intros Hflag. unfold Filter.applyDecorationsToEditor.
  destruct (negb (Filter.decoration this)); [apply quietly_refl|].
  replace (Filter.isHighlighted this && _ && negb (Filter.isExclude this) && _)
    with false.
  - now apply quietly_emit.
  - destruct Hflag as [-> | ->]; cbn;
      now rewrite ?andb_false_r, ?andb_false_l.
Qed.

Lemma applyDecorationsToAllEditors_quietly this w :
  Filter.isExclude this = true \/ Filter.isHighlighted this = false ->
  quietly w (Filter.applyDecorationsToAllEditors this w).
Proof.
  intros Hflag. unfold Filter.applyDecorationsToAllEditors.
  generalize (JsMap.entries (Filter.activeEditors this)). intros entries.
  assert (forall w0, quietly w w0 ->
            quietly w
              (fold_left
                 (fun w1 '(uri, editorInfo) =>
                    Filter.applyDecorationsToEditor editorInfo
                      match JsMap.get uri (Filter.editorDecorations this) with
                      | Some d => d
                      | None => []
                      end this w1)
                 entries w0)) as H; [|apply H, quietly_refl].
  induction entries as [|[uri editorInfo] entries IH]; intros w0 H0;
    cbn [fold_left]; [exact H0|].
  apply IH. eapply quietly_trans; [exact H0|].
  now apply applyDecorationsToEditor_quietly.
Qed.

Lemma updateDecoration_quietly this w :
  Filter.isExclude this = true \/ Filter.isHighlighted this = false ->
  quietly w (snd (Filter.updateDecoration this w)).
Proof.
  intros Hflag. unfold Filter.updateDecoration, Filter.createDecoration.
  cbn [snd].
  eapply quietly_trans;
    [|apply applyDecorationsToAllEditors_quietly; exact Hflag].
  eapply quietly_trans; [|now apply quietly_emit].
  destruct (Filter.decoration this); [now apply quietly_emit|apply quietly_refl].
Qed.

Lemma clearProcessing_quietly (editorUri : option string) this w :
  quietly w (snd (Filter.clearProcessing editorUri this w)).
Proof.
  unfold Filter.clearProcessing.
  destruct (truthy editorUri) as [u|]; cbn [snd].
  - destruct (Filter.decoration this); [|apply quietly_refl].
    destruct (JsMap.get u (Filter.activeEditors this));
      [now apply quietly_emit|apply quietly_refl].
  - destruct (Filter.decoration this); [|apply quietly_refl].
    generalize (JsMap.values (Filter.activeEditors this)). intros editors.
    assert (forall w0, quietly w w0 ->
              quietly w
                (fold_left
                   (fun w1 editorInfo =>
                      World.emit
                        (SetDecorations (EditorInfo.editor editorInfo)
                           (Filter.id this) []) w1)
                   editors w0)) as H; [|apply H, quietly_refl].
    induction editors as [|editorInfo editors IH]; intros w0 H0;
      cbn [fold_left]; [exact H0|].
    apply IH. eapply quietly_trans; [exact H0|]. now apply quietly_emit.
Qed.

Lemma dispose_quietly this w : quietly w (snd (Filter.dispose this w)).
Proof.
  unfold Filter.dispose.
  pose proof (clearProcessing_quietly None this w) as H.
  destruct (Filter.clearProcessing None this w) as [this1 w1].
  cbn [snd] in H.
  destruct (Filter.decoration (Filter.clearCache None this1)); cbn [snd];
    [|exact H].
  eapply quietly_trans; [exact H|]. now apply quietly_emit.
Qed.

Lemma processEditor_flags (editorInfo : EditorInfo.t) this w :
  let this' := fst (Filter.processEditor editorInfo this w) in
  Filter.id this' = Filter.id this
  /\ Filter.isHighlighted this' = Filter.isHighlighted this
  /\ Filter.isShown this' = Filter.isShown this
  /\ Filter.isExclude this' = Filter.isExclude this
  /\ Filter.regexVersion this' = Filter.regexVersion this
  /\ Filter.regex this' = Filter.regex this.
Proof.
  cbv zeta. unfold Filter.processEditor.
  set (started := if negb (Filter.decoration this)
                  then Filter.createDecoration this w else (this, w)).
  assert (Filter.id (fst started) = Filter.id this
          /\ Filter.isHighlighted (fst started) = Filter.isHighlighted this
          /\ Filter.isShown (fst started) = Filter.isShown this
          /\ Filter.isExclude (fst started) = Filter.isExclude this
          /\ Filter.regexVersion (fst started) = Filter.regexVersion this
          /\ Filter.regex (fst started) = Filter.regex this)
    as (H1 & H2 & H3 & H4 & H5 & H6)
    by (subst started; destruct (negb _); now repeat split).
  destruct started as [this0 w0]. cbn [fst] in *.
  set (active := Filter.with_activeEditors _ this0).
  pose proof (getCachedAnalysisOrCompute_frame editorInfo active w0) as Hf.
  destruct (Filter.getCachedAnalysisOrCompute editorInfo active w0)
    as [[cacheEntry this1] w1]. cbn [fst snd] in *.
  rewrite Hf.
  destruct (EditorMetaData.isSelected _); cbn; now repeat split.
Qed.

Lemma processEditor_quietly (editorInfo : EditorInfo.t) this w :
  Filter.isExclude this = true \/ Filter.isHighlighted this = false ->
  quietly w (snd (Filter.processEditor editorInfo this w)).
Proof.
  intros Hflag.
  pose proof (processEditor_flags editorInfo this w) as (_ & Hh & _ & He & _).
  unfold Filter.processEditor in *.
  set (started := if negb (Filter.decoration this)
                  then Filter.createDecoration this w else (this, w)) in *.
  assert (quietly w (snd started)) as Hq.
  { subst started. destruct (negb _); [|apply quietly_refl].
    now apply quietly_emit. }
  destruct started as [this0 w0]. cbn [snd] in Hq.
  set (active := Filter.with_activeEditors _ this0) in *.
  pose proof (getCachedAnalysisOrCompute_advanced editorInfo active w0) as Ha.
  destruct (Filter.getCachedAnalysisOrCompute editorInfo active w0)
    as [[cacheEntry this1] w1]. cbn [fst snd] in *.
  eapply quietly_trans; [exact Hq|].
  eapply quietly_trans; [apply advanced_quietly; exact Ha|].
  apply applyDecorationsToEditor_quietly. rewrite He, Hh. exact Hflag.
Qed.

(** X6. A filter that is an exclude filter, or is not highlighted,
    when a call of one of its public methods returns, has coloured no
    line during that call: every [setDecorations] that the call has
    made carries no range. *)
Theorem silenced_filter_never_highlights (c : Call) this w :
  let '(this', w') := perform c this w in
  Filter.isExclude this' = true \/ Filter.isHighlighted this' = false ->
  exists events,
    World.trace w' = World.trace w ++ events
    /\ Forall (fun ev => highlights ev = false) events.
Proof.
  assert (forall this' w',
             (Filter.isExclude this' = true
              \/ Filter.isHighlighted this' = false -> quietly w w') ->
             Filter.isExclude this' = true
             \/ Filter.isHighlighted this' = false ->
             exists events,
               World.trace w' = World.trace w ++ events
               /\ Forall (fun ev => highlights ev = false) events) as Hq.
  { intros this' w' H Hflag. apply H in Hflag. apply Hflag. }
  destruct c; cbn [perform].
  - pose proof (processEditor_flags editorInfo this w) as (_ & Hh & _ & He & _).
    pose proof (processEditor_quietly editorInfo this w) as H.
    destruct (Filter.processEditor editorInfo this w) as [this' w'].
    cbn [fst snd] in *. apply Hq. rewrite He, Hh. exact H.
  - pose proof (getMatchedLineNumbers_frame editorUri this w) as [_ Ha].
    destruct (Filter.getMatchedLineNumbers editorUri this w)
      as [[ns this'] w'].
    apply Hq. intros _. now apply advanced_quietly.
  - pose proof (updateDecoration_quietly
                  (Filter.clearCache None
                     (Filter.with_regexVersion (S (Filter.regexVersion
                                                     (Filter.with_regex newRegex this)))
                        (Filter.with_regex newRegex this))) w) as H.
    unfold Filter.setRegex.
    destruct (Filter.updateDecoration _ w) as [this' w'] eqn:E.
    apply Hq. intros Hflag. apply H.
    unfold Filter.updateDecoration, Filter.createDecoration in E.
    injection E as <- _. exact Hflag.
  - pose proof (updateDecoration_quietly
                  (Filter.with_isHighlighted value this) w) as H.
    unfold Filter.set_isHighlighted.
    destruct (Filter.updateDecoration _ w) as [this' w'] eqn:E.
    apply Hq. intros Hflag. apply H.
    unfold Filter.updateDecoration, Filter.createDecoration in E.
    injection E as <- _. exact Hflag.
  - unfold Filter.set_isShown. apply Hq. intros Hflag.
    now apply applyDecorationsToAllEditors_quietly.
  - pose proof (updateDecoration_quietly
                  (Filter.with_isExclude value this) w) as H.
    unfold Filter.set_isExclude.
    destruct (Filter.updateDecoration _ w) as [this' w'] eqn:E.
    apply Hq. intros Hflag. apply H.
    unfold Filter.updateDecoration, Filter.createDecoration in E.
    injection E as <- _. exact Hflag.
  - pose proof (clearProcessing_quietly editorUri this w) as H.
    destruct (Filter.clearProcessing editorUri this w) as [this' w'].
    apply Hq. intros _. exact H.
  - unfold Filter.removeEditor.
    pose proof (clearProcessing_quietly (Some editorUri) this w) as H.
    destruct (Filter.clearProcessing (Some editorUri) this w) as [this' w'].
    apply Hq. intros _. exact H.
  - apply Hq. intros _. apply quietly_refl.
  - pose proof (dispose_quietly this w) as H.
    destruct (Filter.dispose this w) as [this' w'].
    apply Hq. intros _. exact H.
Qed.
End FilterLifecycle.

Section Forgetting.
Context {host : Host}.
Implicit Types (this : Filter.t) (w : World.t) (e : EditorCacheEntry.t).

(** X4. [removeEditor(uri)] with a uri that is not empty forgets that
    document and nothing else: the filter has no active editor, no
    decorations and no cache entry under [uri]; what it holds under
    the other uris, its pattern and its version are as before; [count]
    is 0; the decorations of the editor are cleared when there is a
    decoration type; and [getMatchedLineNumbers(uri)] then answers
    [[]] without a reading of the clock or a test of a line. *)
Theorem removeEditor_forgets (editorUri : string) this w :
  editorUri <> EmptyString ->
  let '(this', w') := Filter.removeEditor editorUri this w in
  JsMap.get editorUri (Filter.activeEditors this') = None
  /\ JsMap.get editorUri (Filter.editorDecorations this') = None
  /\ JsMap.get editorUri (Filter.editorCache this') = None
  /\ Filter.count this' = 0
  /\ (forall uri,
         uri <> editorUri ->
         JsMap.get uri (Filter.activeEditors this')
         = JsMap.get uri (Filter.activeEditors this)
         /\ JsMap.get uri (Filter.editorDecorations this')
            = JsMap.get uri (Filter.editorDecorations this)
         /\ JsMap.get uri (Filter.editorCache this')
            = JsMap.get uri (Filter.editorCache this))
  /\ Filter.regex this' = Filter.regex this
  /\ Filter.regexVersion this' = Filter.regexVersion this
  /\ World.trace w'
     = World.trace w
       ++ match Filter.decoration this,
                JsMap.get editorUri (Filter.activeEditors this) with
          | true, Some editorInfo =>
              [SetDecorations (EditorInfo.editor editorInfo) (Filter.id this) []]
          | _, _ => []
          end
  /\ forall w1,
       Filter.getMatchedLineNumbers (Some editorUri) this' w1 = ([], this', w1).
Proof.
  intros Hne. unfold Filter.removeEditor, Filter.clearProcessing,
    Filter.clearCache, Filter.getMatchedLineNumbers.
  destruct editorUri as [|c rest]; [contradiction|]. cbn [truthy].
  set (editorUri := String c rest) in *.
  cbn [Filter.activeEditors Filter.editorDecorations Filter.editorCache
       Filter.count Filter.regex Filter.regexVersion Filter.with_count
       Filter.with_editorDecorations Filter.with_activeEditors
       Filter.with_editorCache].
  rewrite !get_delete_eq.
  split; [reflexivity|]. split; [reflexivity|]. split; [reflexivity|].
  split; [reflexivity|]. split.
  { intros uri Hu. rewrite !get_delete_ne by congruence. now repeat split. }
  split; [reflexivity|]. split; [reflexivity|]. split.
  { destruct (Filter.decoration this); [|now rewrite app_nil_r].
    destruct (JsMap.get editorUri (Filter.activeEditors this));
      [reflexivity|now rewrite app_nil_r]. }
  intros w1. unfold Filter.getMatchedLineNumbersOf.
  cbn [Filter.activeEditors Filter.with_count Filter.with_editorDecorations
       Filter.with_activeEditors Filter.with_editorCache].
  now rewrite get_delete_eq.
Qed.

Lemma clearAll_trace (id : string) (editors : list EditorInfo.t) :
  forall w,
    World.trace
      (fold_left
         (fun w editorInfo =>
            World.emit (SetDecorations (EditorInfo.editor editorInfo) id []) w)
         editors w)
    = World.trace w
      ++ map (fun editorInfo =>
                SetDecorations (EditorInfo.editor editorInfo) id [])
           editors.
Proof.
  induction editors as [|editorInfo editors IH]; intros w; cbn [fold_left map].
  - now rewrite app_nil_r.
  - rewrite IH. cbn. now rewrite <- app_assoc.
Qed.

(** X5. [dispose] releases everything: no active editor, no stored
    decorations, no cache entry, [count] 0, no decoration type; the
    id, the pattern and the flags stay.  It clears the decorations of
    every active editor and then disposes the decoration type, when
    there is one; a second [dispose] does nothing, and every
    [getMatchedLineNumbers] of a disposed filter answers [[]]. *)
Theorem dispose_releases this w :
  let '(this', w') := Filter.dispose this w in
  Filter.activeEditors this' = []
  /\ Filter.editorDecorations this' = []
  /\ Filter.editorCache this' = []
  /\ Filter.count this' = 0
  /\ Filter.decoration this' = false
  /\ Filter.id this' = Filter.id this
  /\ Filter.regex this' = Filter.regex this
  /\ Filter.isHighlighted this' = Filter.isHighlighted this
  /\ Filter.isShown this' = Filter.isShown this
  /\ Filter.isExclude this' = Filter.isExclude this
  /\ World.trace w'
     = World.trace w
       ++ (if Filter.decoration this
           then map (fun editorInfo =>
                       SetDecorations (EditorInfo.editor editorInfo)
                         (Filter.id this) [])
                  (JsMap.values (Filter.activeEditors this))
                ++ [DisposeDecoration (Filter.id this)]
           else [])
  /\ Filter.dispose this' w' = (this', w')
  /\ forall editorUri w1,
       Filter.getMatchedLineNumbers editorUri this' w1 = ([], this', w1).
Proof.
  unfold Filter.dispose, Filter.clearProcessing, Filter.clearCache.
  cbn [truthy Filter.decoration Filter.with_count Filter.with_editorDecorations
       Filter.with_activeEditors Filter.with_editorCache].
  destruct (Filter.decoration this) eqn:Edec.
  - do 10 (split; [reflexivity|]). split; [|split].
    + cbn [World.trace World.emit]. rewrite clearAll_trace.
      now rewrite <- app_assoc.
    + reflexivity.
    + intros editorUri w1. unfold Filter.getMatchedLineNumbers.
      destruct (truthy editorUri); reflexivity.
  - do 4 (split; [reflexivity|]). split; [exact Edec|].
    do 5 (split; [reflexivity|]). split; [|split].
    + now rewrite app_nil_r.
    + cbn. now rewrite Edec.
    + intros editorUri w1. unfold Filter.getMatchedLineNumbers.
      destruct (truthy editorUri); reflexivity.
Qed.
End Forgetting.

Section Highlighting.
Context {host : Host}.
Implicit Types (this : Filter.t) (w : World.t) (e : EditorCacheEntry.t).
Variable content : string -> Z -> string.

Lemma afterQuery_id this q : Filter.id (afterQuery this q) = Filter.id this.
Proof.
  destruct q as [editorInfo w|editorUri w|editorInfo w]; cbn [afterQuery].
  - now rewrite getCachedAnalysisOrCompute_frame.
  - destruct (getMatchedLineNumbers_frame editorUri this w) as [Hf _].
    unfold cache_only in Hf. now rewrite Hf.
  - apply processEditor_flags.
Qed.

Lemma afterQueries_id (qs : list Query) :
  forall this, Filter.id (fold_left afterQuery qs this) = Filter.id this.
Proof.
  induction qs as [|q qs IH]; intros this; cbn [fold_left]; [reflexivity|].
  now rewrite IH, afterQuery_id.
Qed.

(** X20. The highlights of [processEditor] are never stale.  While
    the text of a document is determined by its uri and its version,
    from a filter whose cache is empty and after any sequence of
    queries, [processEditor] creates the decoration type when the
    filter has none, and then sets the decorations of the editor
    exactly once; it stores, under the uri of the editor, the
    whole-line ranges of the lines of the current text that match the
    pattern, in order, or the first [maxRanges] of them; and what it
    sets on the editor is either these stored ranges or no range. *)
Theorem processEditor_highlights_matching_lines this (qs : list Query) :
  Filter.editorCache this = [] ->
  Forall (fun q => versioned content (queryWorld q)) qs ->
  let later := fold_left afterQuery qs this in
  forall (editorInfo : EditorInfo.t) w,
    versioned content w ->
    let document := World.document (EditorInfo.editor editorInfo) w in
    let all :=
      map Filter.wholeLineRange
        (matchingLines (Filter.regex this) (TextDocument.getText document)) in
    let '(this', w') := Filter.processEditor editorInfo later w in
    exists events ranges stored,
      World.trace w'
      = World.trace w ++ events
        ++ [SetDecorations (EditorInfo.editor editorInfo) (Filter.id this)
              ranges]
      /\ (events = [] \/ events = [CreateDecoration (Filter.id this)])
      /\ (ranges = [] \/ ranges = stored)
      /\ JsMap.get (EditorInfo.uri editorInfo) (Filter.editorDecorations this')
         = Some stored
      /\ (stored = all \/ stored = firstn Filter.maxRanges all).
Proof.
  intros Hempty Hall later editorInfo w Hv document all.
  assert (cache_ok this) as Hok by now apply empty_cache_ok.
  assert (cache_exact content this) as Hex.
  { intros uri e He. rewrite Hempty in He. discriminate. }
  destruct (afterQueries_cache_ok qs Hok) as [Hok' Hregex].
  pose proof (afterQueries_exact Hok Hex Hall) as Hex'.
  pose proof (afterQueries_id qs this) as Hid.
  fold later in Hok', Hregex, Hex', Hid.
  subst all document. rewrite <- Hregex, <- Hid. clearbody later.
  clear Hok Hex Hall Hempty Hregex Hid.
  unfold Filter.processEditor.
  set (started := if negb (Filter.decoration later)
                  then Filter.createDecoration later w else (later, w)).
  assert (Filter.editorCache (fst started) = Filter.editorCache later
          /\ Filter.regex (fst started) = Filter.regex later
          /\ Filter.id (fst started) = Filter.id later
          /\ Filter.decoration (fst started) = true
          /\ World.documents (snd started) = World.documents w
          /\ exists events,
               World.trace (snd started) = World.trace w ++ events
               /\ (events = [] \/ events = [CreateDecoration (Filter.id later)]))
    as (Hc & Hr & Hi & Hdec & Hd & events & Htrace & Hevents).
  { subst started. destruct (Filter.decoration later) eqn:E; cbn.
    - repeat split; try assumption. exists [].
      split; [now rewrite app_nil_r|now left].
    - repeat split. exists [CreateDecoration (Filter.id later)].
      split; [reflexivity|now right]. }
  destruct started as [this0 w0]. cbn [fst snd] in *.
  set (this1 := Filter.with_activeEditors _ this0).
  assert (JsMap.wf (Filter.editorCache this1)) as Hwf1.
  { subst this1. cbn. rewrite Hc. apply Hok'. }
  assert (cache_exact content this1) as Hex1.
  { intros uri e He. subst this1. cbn in *. rewrite Hc in He. rewrite Hr.
    now apply Hex'. }
  assert (versioned content w0) as Hv0
    by (eapply versioned_ext; eassumption).
  pose proof (@getCachedAnalysisOrCompute_exact _ content editorInfo this1 w0
                Hwf1 Hex1 Hv0) as H1.
  pose proof (getCachedAnalysisOrCompute_frame editorInfo this1 w0) as Hf.
  pose proof (getCachedAnalysisOrCompute_advanced editorInfo this1 w0)
    as (_ & _ & _ & _ & Ht).
  destruct (Filter.getCachedAnalysisOrCompute editorInfo this1 w0)
    as [[e this2] w2].
  cbn [fst snd] in Hf, Ht. destruct H1 as ((_ & _ & Hranges) & _).
  assert (Filter.regex this1 = Filter.regex later) as Hr1
    by (subst this1; exact Hr).
  assert (World.document (EditorInfo.editor editorInfo) w0
          = World.document (EditorInfo.editor editorInfo) w) as Hdoc.
  { unfold World.document. now rewrite Hd. }
  rewrite Hr1, Hdoc in Hranges.
  set (this3 := if EditorMetaData.isSelected (EditorInfo.metaData editorInfo)
                then _ else _).
  assert (Filter.decoration this3 = true /\ Filter.id this3 = Filter.id later
          /\ Filter.editorDecorations this3
             = JsMap.set (EditorInfo.uri editorInfo)
                 (EditorCacheEntry.matchedRanges e)
                 (Filter.editorDecorations this2)) as (Hdec3 & Hid3 & Hdecs).
  { subst this3. rewrite Hf. subst this1.
    destruct (EditorMetaData.isSelected _); cbn; now repeat split. }
  unfold Filter.applyDecorationsToEditor. rewrite Hdec3. cbn [negb].
  exists events.
  exists (if Filter.isHighlighted this3
             && (negb (EditorMetaData.isFocusMode (EditorInfo.metaData editorInfo)
                       || String.prefix "focus:" (EditorInfo.uri editorInfo))
                 || Filter.isShown this3)
             && negb (Filter.isExclude this3)
             && (negb (EditorMetaData.isLargeFile (EditorInfo.metaData editorInfo))
                 || Filter.isShown this3 && Nat.ltb (Filter.count this3) 1000)
          then EditorCacheEntry.matchedRanges e else []).
  exists (EditorCacheEntry.matchedRanges e).
  split.
  { destruct (_ && _); cbn [World.trace World.emit]; rewrite Hid3, Ht, Htrace;
      now rewrite <- app_assoc. }
  split; [exact Hevents|]. split; [destruct (_ && _); auto|].
  split; [rewrite Hdecs; apply get_set_eq|exact Hranges].
Qed.
End Highlighting.

(* ================================================================== *)
(** * The focus view and its decorations *)
(* ================================================================== *)

Section Unprocessed.
Context {host : Host}.
Implicit Types (p : Project.t) (w : World.t).

Lemma set_same (V : Type) (m : JsMap.t V) (k : string) (v : V) :
  JsMap.get k m = Some v -> JsMap.set k v m = m.
Proof.
  induction m as [|[k' v'] m IH]; cbn; [discriminate|].
  destruct (String.eqb_spec k k') as [->|Hne].
  - now intros [= ->].
  - intros H. now rewrite IH.
Qed.

Lemma seq_strict (start len : nat) : StronglySorted lt (seq start len).
Proof.
  revert start. induction len as [|len IH]; intros start; cbn; constructor;
    [apply IH|].
  rewrite Forall_forall. intros x Hx. apply in_seq in Hx. lia.
Qed.

(** The loop over filters none of which processes the document. *)
Lemma forEachMatchedLine_unprocessed step (originalUri : string)
    (filters : list string) (resultLines : JsSet.t) p w :
  originalUri <> EmptyString ->
  (forall key f,
      JsMap.get key (Project.filters p) = Some f ->
      JsMap.get originalUri (Filter.activeEditors f) = None) ->
  FocusProvider.forEachMatchedLine step originalUri filters resultLines
    (Some p) w
  = (resultLines, Some p, w).
Proof.
  intros Hne Hnone. unfold FocusProvider.forEachMatchedLine.
  induction filters as [|key filters IH]; cbn [fold_left]; [reflexivity|].
  replace (FocusProvider.call [] key
             (Filter.getMatchedLineNumbers (Some originalUri)) (Some p) w)
    with (@nil nat, Some p, w); [exact IH|].
  unfold FocusProvider.call, Project.call.
  destruct (JsMap.get key (Project.filters p)) as [f|] eqn:Eget;
    [|reflexivity].
  unfold Filter.getMatchedLineNumbers, Filter.getMatchedLineNumbersOf.
  destruct originalUri as [|c rest]; [contradiction|]. cbn [truthy].
  rewrite (Hnone _ _ Eget). rewrite (set_same _ _ Eget). now destruct p.
Qed.

(** X8. A document that no filter of the project processes: every
    filter answers [[]] for it, so [getVisibleLines] returns no line
    when there is a positive filter and every line of the document
    otherwise; the project and the world are left as they are. *)
Theorem unprocessed_document_shows_all_or_nothing (originalUri : string)
    (originalDoc : TextDocument.t) p w :
  originalUri <> EmptyString ->
  (forall key f,
      JsMap.get key (Project.filters p) = Some f ->
      JsMap.get originalUri (Filter.activeEditors f) = None) ->
  FocusProvider.getVisibleLines originalUri originalDoc (Some p) w
  = (match fst (FocusProvider.getActiveFilters (Some p)) with
     | [] => seq 0 (TextDocument.lineCount originalDoc)
     | _ :: _ => []
     end, Some p, w).
Proof.
  intros Hne Hnone.
  unfold FocusProvider.getVisibleLines, FocusProvider.collectResultLines.
  destruct (FocusProvider.getActiveFilters (Some p))
    as [positiveFilters excludeFilters].
  cbn [fst]. destruct positiveFilters as [|key positiveFilters].
  - change (Nat.ltb 0 (@length string [])) with false. cbv iota.
    rewrite forEachMatchedLine_unprocessed by assumption.
    f_equal. f_equal. unfold JsSet.toArray.
    apply strict_sorted_ext.
    + apply sort_numbers_strict, all_lines_NoDup.
    + apply seq_strict.
    + intros n. rewrite sort_numbers_In, all_lines_In, in_seq. lia.
  - change (Nat.ltb 0 (length (key :: positiveFilters))) with true. cbv iota.
    now rewrite forEachMatchedLine_unprocessed by assumption.
Qed.
End Unprocessed.

Section Alignment.
Context {host : Host}.
Implicit Types (w : World.t).

Lemma focusLineNum_Some (visibleLines : list nat) (o : nat) (f : Z) :
  focusLineNum visibleLines o = Some f ->
  exists i : nat, f = (Z.of_nat i + 1)%Z /\ nth_error visibleLines i = Some o.
Proof.
  unfold focusLineNum. intros H.
  destruct (in_dec Nat.eq_dec o visibleLines) as [Hin|Hnot].
  - destruct (indexOf_In _ _ Hin) as (i & Hi & Hnth & _). rewrite Hi in H.
    destruct (Z.eqb_spec (Z.of_nat i) (-1)); [lia|]. cbn in H.
    injection H as <-. now exists i.
  - rewrite (indexOf_not_In _ _ Hnot) in H. discriminate.
Qed.

Lemma filter_all (A : Type) (p : A -> bool) (l : list A) :
  Forall (fun x => p x = true) l -> filter p l = l.
Proof.
  induction 1 as [|x l Hx _ IH]; cbn; [reflexivity|]. now rewrite Hx, IH.
Qed.

(** X9. When every visible line is a line of the document, the focus
    document has the header and one line for each visible line, and
    the decorations land on the right lines: the focus line that the
    loop of [buildFocusDecorationRanges] computes for an original line
    shows the text of that original line, and every range that
    [buildFocusDecorationRanges] returns lies on a line of the focus
    document, below the header, that shows a matched line. *)
Theorem focus_lines_show_their_originals (originalUri : string)
    (document : TextDocument.t) (this : FocusProvider.t) (w : World.t) :
  Forall (fun n => n < TextDocument.lineCount document)
    (fst (fst (FocusProvider.getVisibleLines originalUri document this w))) ->
  let '(visibleLines, _, _) :=
    FocusProvider.getVisibleLines originalUri document this w in
  let '(content, _, _) :=
    FocusProvider.generateFilteredContent originalUri document this w in
  exists texts,
    content
    = Some (JsArray.join (String newline EmptyString) (EmptyString :: texts))
    /\ length texts = length visibleLines
    /\ (forall originalLine focusLine,
           focusLineNum visibleLines originalLine = Some focusLine ->
           exists text,
             TextDocument.lineAt originalLine document = Some text
             /\ nth_error (EmptyString :: texts) (Z.to_nat focusLine)
                = Some text)
    /\ (forall matchedLines r,
           In r (buildFocusDecorationRanges matchedLines visibleLines) ->
           1 <= start_line r
           /\ exists originalLine text,
                In originalLine matchedLines
                /\ TextDocument.lineAt originalLine document = Some text
                /\ nth_error (EmptyString :: texts) (start_line r)
                   = Some text).
Proof.
  unfold FocusProvider.getVisibleLines, FocusProvider.generateFilteredContent.
  destruct (FocusProvider.collectResultLines originalUri document this w)
    as [[resultLines this1] w1].
  cbn [fst]. set (visibleLines := JsArray.sort _ _). intros Hall.
  rewrite emit_lines. rewrite filter_all.
  2:{ eapply Forall_impl; [|exact Hall]. intros n Hn. now apply Nat.ltb_lt. }
  set (texts := map _ visibleLines).
  assert (forall originalLine focusLine,
             focusLineNum visibleLines originalLine = Some focusLine ->
             exists text,
               TextDocument.lineAt originalLine document = Some text
               /\ nth_error (EmptyString :: texts) (Z.to_nat focusLine)
                  = Some text) as Hline.
  { intros o f Hf. apply focusLineNum_Some in Hf.
    destruct Hf as (i & -> & Hnth).
    exists (nth o (TextDocument.lines document) EmptyString). split.
    - unfold TextDocument.lineAt. apply nth_error_nth'.
      rewrite Forall_forall in Hall. apply Hall.
      eapply nth_error_In. exact Hnth.
    - replace (Z.to_nat (Z.of_nat i + 1)) with (S i) by lia.
      cbn [nth_error]. subst texts.
      exact (map_nth_error
               (fun n => nth n (TextDocument.lines document) EmptyString)
               i visibleLines Hnth). }
  exists texts. split; [reflexivity|].
  split; [subst texts; apply length_map|]. split; [exact Hline|].
  intros matchedLines r Hr. unfold buildFocusDecorationRanges in Hr.
  rewrite buildFocusDecorationRanges_from in Hr. cbn [app] in Hr.
  apply in_flat_map in Hr. destruct Hr as (o & Ho & Hr).
  destruct (focusLineNum visibleLines o) as [f|] eqn:Ef; [|destruct Hr].
  destruct Hr as [<-|[]]. cbn [start_line].
  destruct (focusLineNum_Some _ _ Ef) as (i & Hi & _).
  split; [lia|]. destruct (Hline o f Ef) as (text & Hat & Hnth).
  exists o, text. now repeat split.
Qed.
End Alignment.

(* ================================================================== *)
(** * The commands on filters and groups *)
(* ================================================================== *)

Section CommandFrames.
Context {host : Host}.
Implicit Types (p : Project.t) (w : World.t).

Lemma same_shape_refl p : same_shape p p.
Proof. now repeat split. Qed.

Lemma same_shape_trans p1 p2 p3 :
  same_shape p1 p2 -> same_shape p2 p3 -> same_shape p1 p3.
Proof.
  unfold same_shape. intros (? & ? & ? & ? & ?) (? & ? & ? & ? & ?).
  repeat split; congruence.
Qed.

Lemma invoke_shape key method p w :
  same_shape p (fst (Commands.invoke key method p w)).
Proof.
  unfold Commands.invoke, Project.call.
  destruct (JsMap.get key (Project.filters p)) as [f|] eqn:Eget;
    [|apply same_shape_refl].
  destruct (method f w) as [f' w']. repeat split. cbn.
  eapply keys_set_present. exact Eget.
Qed.

Lemma invoke_get key method p w k :
  JsMap.get k (Project.filters (fst (Commands.invoke key method p w)))
  = if String.eqb key k
    then option_map (fun f => fst (method f w)) (JsMap.get k (Project.filters p))
    else JsMap.get k (Project.filters p).
Proof.
  unfold Commands.invoke, Project.call.
  destruct (String.eqb_spec key k) as [<-|Hne].
  - destruct (JsMap.get key (Project.filters p)) as [f|] eqn:Eget.
    + cbn [option_map]. destruct (method f w) as [f' w'].
      cbn [fst Project.filters Project.with_filters].
      now rewrite get_set_eq.
    + cbn [fst]. now rewrite Eget.
  - destruct (JsMap.get key (Project.filters p)) as [f|]; [|reflexivity].
    destruct (method f w) as [f' w'].
    cbn [fst Project.filters Project.with_filters]. now apply get_set_ne.
Qed.

(** A method whose effect on the settings is [g], called on the
    filters under [keys]. *)
Lemma invokeEach_settings
    (g : string * RegExp * bool * bool * bool
         -> string * RegExp * bool * bool * bool)
    (method : Filter.t -> World.t -> Filter.t * World.t) :
  (forall f w, settings (fst (method f w)) = g (settings f)) ->
  (forall s, g (g s) = g s) ->
  forall keys p w,
    let p' := fst (Commands.invokeEach keys method p w) in
    same_shape p p'
    /\ forall k,
         settingsOf p' k
         = option_map
             (fun s => if existsb (String.eqb k) keys then g s else s)
             (settingsOf p k).
Proof.
  intros Hmethod Hidem. unfold Commands.invokeEach.
  induction keys as [|key keys IH]; intros p w; cbn [fold_left].
  - split; [apply same_shape_refl|]. intros k. cbn.
    now destruct (settingsOf p k).
  - pose proof (invoke_shape key method p w) as Hshape.
    pose proof (invoke_get key method p w) as Hget.
    destruct (Commands.invoke key method p w) as [p1 w1].
    cbn [fst] in Hshape, Hget.
    destruct (IH p1 w1) as [Hshape' Hset]. cbv zeta in Hshape', Hset.
    split; [eapply same_shape_trans; eassumption|].
    intros k. rewrite Hset. unfold settingsOf at 1. rewrite Hget.
    unfold settingsOf. cbn [existsb]. rewrite (String.eqb_sym k key).
    destruct (String.eqb key k); cbn [orb].
    + destruct (JsMap.get k (Project.filters p)) as [f|]; [|reflexivity].
      cbn [option_map]. rewrite Hmethod.
      destruct (existsb (String.eqb k) keys); [now rewrite Hidem|reflexivity].
    + reflexivity.
Qed.

Lemma processEditor_settings editor (f : Filter.t) w :
  settings (fst (Filter.processEditor editor f w)) = settings f.
Proof.
  pose proof (processEditor_flags editor f w) as (H1 & H2 & H3 & H4 & _ & H6).
  unfold settings. cbv zeta in *. now rewrite H1, H2, H3, H4, H6.
Qed.

Lemma applyFilterHighlights_settings (editors : list EditorInfo.t) :
  forall p w,
    let p' := fst (Commands.applyFilterHighlights editors p w) in
    same_shape p p' /\ forall k, settingsOf p' k = settingsOf p k.
Proof.
  intros p w. unfold Commands.applyFilterHighlights.
  destruct (Nat.eqb (JsMap.size (Project.filters p)) 0);
    [split; [apply same_shape_refl|reflexivity]|].
  revert p w.
  induction editors as [|editor editors IH]; intros p w; cbn [fold_left].
  - split; [apply same_shape_refl|reflexivity].
  - change (fold_left _ (JsMap.keys (Project.filters p)) (p, w))
      with (Commands.invokeEach (JsMap.keys (Project.filters p))
              (Filter.processEditor editor) p w).
    destruct (@invokeEach_settings (fun s => s) (Filter.processEditor editor)
                (processEditor_settings editor) (fun s => eq_refl)
                (JsMap.keys (Project.filters p)) p w) as [Hshape Hset].
    destruct (Commands.invokeEach (JsMap.keys (Project.filters p))
                (Filter.processEditor editor) p w) as [p1 w1].
    cbn [fst] in Hshape, Hset.
    destruct (IH p1 w1) as [Hshape' Hset'].
    split; [eapply same_shape_trans; eassumption|].
    intros k. rewrite Hset', Hset. destruct (settingsOf p k); cbn;
      [now destruct (existsb _ _)|reflexivity].
Qed.

Lemma refreshEditors_settings p w :
  exists p',
    Commands.selectedProject
      (fst (Commands.refreshEditors (Commands.mkState (Some p)) w)) = Some p'
    /\ same_shape p p' /\ forall k, settingsOf p' k = settingsOf p k.
Proof.
  unfold Commands.refreshEditors. cbn [Commands.selectedProject].
  destruct (Nat.eqb (JsMap.size (Project.filters p)) 0).
  - exists p. split; [reflexivity|]. split; [apply same_shape_refl|reflexivity].
  - destruct (applyFilterHighlights_settings
                (map (fun editor => Commands.editorInfoOf editor w)
                   (World.visibleTextEditors w)) p w) as [Hshape Hset].
    destruct (Commands.applyFilterHighlights _ p w) as [p' w'].
    exists p'. split; [reflexivity|]. now split.
Qed.

Lemma get_Some_neq_None (V : Type) (o : option V) (v : V) :
  o = Some v -> o <> None.
Proof. congruence. Qed.

(** A property of a filter that [method] keeps holds after the loop
    for the filters for which it held before. *)
Lemma invokeEach_preserves (P : Filter.t -> Prop)
    (method : Filter.t -> World.t -> Filter.t * World.t) :
  (forall f w, P f -> P (fst (method f w))) ->
  forall keys p w k f',
    JsMap.get k (Project.filters (fst (Commands.invokeEach keys method p w)))
    = Some f' ->
    exists f, JsMap.get k (Project.filters p) = Some f /\ (P f -> P f').
Proof.
  intros Hmethod. unfold Commands.invokeEach.
  induction keys as [|key keys IH]; intros p w k f'; cbn [fold_left].
  - intros H. now exists f'.
  - pose proof (invoke_get key method p w k) as Hget.
    destruct (Commands.invoke key method p w) as [p1 w1]. cbn [fst] in Hget.
    intros H. apply IH in H. destruct H as (f1 & H1 & HP).
    rewrite Hget in H1. destruct (String.eqb key k).
    + destruct (JsMap.get k (Project.filters p)) as [f|]; [|discriminate].
      injection H1 as <-. exists f. split; [reflexivity|].
      intros Hf. now apply HP, Hmethod.
    + now exists f1.
Qed.

Lemma refreshEditors_preserves (P : Filter.t -> Prop) p w :
  (forall editor f w, P f -> P (fst (Filter.processEditor editor f w))) ->
  forall p',
    Commands.selectedProject
      (fst (Commands.refreshEditors (Commands.mkState (Some p)) w)) = Some p' ->
    forall k f',
      JsMap.get k (Project.filters p') = Some f' ->
      exists f, JsMap.get k (Project.filters p) = Some f /\ (P f -> P f').
Proof.
  intros Hmethod p'. unfold Commands.refreshEditors, Commands.applyFilterHighlights.
  cbn [Commands.selectedProject].
  destruct (Nat.eqb (JsMap.size (Project.filters p)) 0).
  { intros [= <-] k f' H. now exists f'. }
  generalize (map (fun editor => Commands.editorInfoOf editor w)
                (World.visibleTextEditors w)).
  intros editors. revert p p' w.
  induction editors as [|editor editors IH]; intros p p' w0; cbn [fold_left].
  { intros [= <-] k f' H. now exists f'. }
  change (fold_left _ (JsMap.keys (Project.filters p)) (p, w0))
    with (Commands.invokeEach (JsMap.keys (Project.filters p))
            (Filter.processEditor editor) p w0).
  pose proof (@invokeEach_preserves P (Filter.processEditor editor)
                (Hmethod editor) (JsMap.keys (Project.filters p)) p w0) as H1.
  destruct (Commands.invokeEach (JsMap.keys (Project.filters p))
              (Filter.processEditor editor) p w0) as [p1 w1].
  cbn [fst] in H1. intros Hsel k f' Hget.
  destruct (fold_left _ editors (p1, w1)) as [p2 w2] eqn:E.
  cbn [fst Commands.selectedProject] in Hsel. injection Hsel as <-.
  specialize (IH p1 p2 w1). rewrite E in IH.
  destruct (IH eq_refl k f' Hget) as (f1 & Hget1 & HP1).
  destruct (H1 k f1 Hget1) as (f & Hf & HP).
  exists f. split; [exact Hf|]. auto.
Qed.
End CommandFrames.

Section Registration.
Context {host : Host}.
Implicit Types (p : Project.t) (w : World.t).

Lemma processEditor_activeEditors (editorInfo : EditorInfo.t)
    (f : Filter.t) w :
  Filter.activeEditors (fst (Filter.processEditor editorInfo f w))
  = JsMap.set (EditorInfo.uri editorInfo) editorInfo (Filter.activeEditors f).
Proof.
  unfold Filter.processEditor.
  set (started := if negb (Filter.decoration f)
                  then Filter.createDecoration f w else (f, w)).
  assert (Filter.activeEditors (fst started) = Filter.activeEditors f) as Ha
    by (subst started; now destruct (negb _)).
  destruct started as [this0 w0]. cbn [fst] in Ha.
  set (active := Filter.with_activeEditors _ this0).
  pose proof (getCachedAnalysisOrCompute_activeEditors editorInfo active w0)
    as Hf.
  destruct (Filter.getCachedAnalysisOrCompute editorInfo active w0)
    as [[cacheEntry this1] w1]. cbn [fst snd] in *.
  destruct (EditorMetaData.isSelected _); cbn; rewrite Hf; subst active; cbn;
    now rewrite Ha.
Qed.

Lemma processEditor_registers (editorInfo : EditorInfo.t) (f : Filter.t) w :
  JsMap.get (EditorInfo.uri editorInfo)
    (Filter.activeEditors (fst (Filter.processEditor editorInfo f w)))
  = Some editorInfo.
Proof. rewrite processEditor_activeEditors. apply get_set_eq. Qed.

Lemma processEditor_keeps_registered (uri : string)
    (editorInfo : EditorInfo.t) (f : Filter.t) w :
  JsMap.get uri (Filter.activeEditors f) <> None ->
  JsMap.get uri
    (Filter.activeEditors (fst (Filter.processEditor editorInfo f w)))
  <> None.
Proof.
  intros H. rewrite processEditor_activeEditors.
  destruct (String.eqb_spec (EditorInfo.uri editorInfo) uri) as [<-|Hne].
  - now rewrite get_set_eq.
  - now rewrite get_set_ne.
Qed.

Lemma invokeEach_establishes (Q : Filter.t -> Prop)
    (method : Filter.t -> World.t -> Filter.t * World.t) :
  (forall f w, Q (fst (method f w))) ->
  forall keys p w k f',
    In k keys ->
    JsMap.get k (Project.filters (fst (Commands.invokeEach keys method p w)))
    = Some f' ->
    Q f'.
Proof.
  intros Hmethod. unfold Commands.invokeEach.
  induction keys as [|key keys IH]; intros p w k f' Hin; [destruct Hin|].
  cbn [fold_left].
  pose proof (invoke_get key method p w k) as Hget.
  destruct (Commands.invoke key method p w) as [p1 w1] eqn:E.
  cbn [fst] in Hget. intros H.
  destruct (in_dec string_dec k keys) as [Hrest|Hnot].
  - exact (IH p1 w1 k f' Hrest H).
  - destruct Hin as [->|Hin]; [|contradiction].
    destruct (@invokeEach_preserves _ Q method
                (fun f w0 _ => Hmethod f w0) keys p1 w1 k f' H)
      as (f1 & Hf1 & HQ).
    apply HQ. rewrite Hget, String.eqb_refl in Hf1.
    destruct (JsMap.get k (Project.filters p)) as [f|]; [|discriminate].
    injection Hf1 as <-. apply Hmethod.
Qed.

(** X10. After [refreshEditors] every filter of the selected project
    processes the document of every visible editor: under the uri of
    the document it holds the [EditorInfo] of a visible editor that
    shows this document. *)
Theorem refreshEditors_registers_the_visible_editors p w :
  let '(state', w') :=
    Commands.refreshEditors (Commands.mkState (Some p)) w in
  exists p',
    Commands.selectedProject state' = Some p'
    /\ forall key f' editor,
         JsMap.get key (Project.filters p') = Some f' ->
         In editor (World.visibleTextEditors w) ->
         exists editorInfo,
           JsMap.get (TextDocument.uri (World.document editor w))
             (Filter.activeEditors f') = Some editorInfo
           /\ In (EditorInfo.editor editorInfo) (World.visibleTextEditors w)
           /\ TextDocument.uri
                (World.document (EditorInfo.editor editorInfo) w)
              = TextDocument.uri (World.document editor w).
Proof.
  unfold Commands.refreshEditors, Commands.applyFilterHighlights.
  cbn [Commands.selectedProject].
  destruct (Nat.eqb (JsMap.size (Project.filters p)) 0) eqn:Esize.
  { exists p. split; [reflexivity|]. intros key f' editor H.
    apply Nat.eqb_eq in Esize. unfold JsMap.size in Esize.
    destruct (Project.filters p); [discriminate|discriminate]. }
  set (infoOf := fun editor => Commands.editorInfoOf editor w).
  set (registered := fun (uri : string) (f : Filter.t) =>
         exists editorInfo,
           JsMap.get uri (Filter.activeEditors f) = Some editorInfo
           /\ In (EditorInfo.editor editorInfo) (World.visibleTextEditors w)
           /\ TextDocument.uri
                (World.document (EditorInfo.editor editorInfo) w) = uri).
  assert (forall editors p0 w0,
             incl editors (World.visibleTextEditors w) ->
             let p' :=
               fst (fold_left
                      (fun '(p, w) editor =>
                         fold_left
                           (fun '(p, w) key =>
                              let '(_, p, w) :=
                                Project.call tt key
                                  (fun filter w =>
                                     let '(filter, w) :=
                                       Filter.processEditor editor filter w in
                                     (tt, filter, w)) p w in
                              (p, w))
                           (JsMap.keys (Project.filters p)) (p, w))
                      (map infoOf editors) (p0, w0)) in
             forall key f',
               JsMap.get key (Project.filters p') = Some f' ->
               (exists f, JsMap.get key (Project.filters p0) = Some f
                          /\ forall uri, registered uri f -> registered uri f')
               /\ forall editor,
                    In editor editors ->
                    registered (TextDocument.uri (World.document editor w)) f')
    as Hloop.
  { assert (forall uri editor f w1,
               In editor (World.visibleTextEditors w) ->
               registered uri f ->
               registered uri (fst (Filter.processEditor (infoOf editor) f w1)))
      as Hkeep.
    { intros uri editor f w1 Hvis (info & Hget & Hin & Huri).
      unfold registered. rewrite processEditor_activeEditors.
      destruct (String.eqb_spec (EditorInfo.uri (infoOf editor)) uri)
        as [Heq|Hne].
      - rewrite Heq, get_set_eq. exists (infoOf editor).
        split; [reflexivity|]. split; [exact Hvis|exact Heq].
      - rewrite get_set_ne by exact Hne. now exists info. }
    induction editors as [|editor editors IH]; intros p0 w0 Hincl;
      cbn [map fold_left].
    - intros key f' H. split; [|intros ? []]. now exists f'.
    - change (fold_left _ (JsMap.keys (Project.filters p0)) (p0, w0))
        with (Commands.invokeEach (JsMap.keys (Project.filters p0))
                (Filter.processEditor (infoOf editor)) p0 w0).
      assert (In editor (World.visibleTextEditors w)) as Hvis
        by (apply Hincl; now left).
      pose proof (fun uri =>
                    @invokeEach_preserves _ (registered uri)
                      (Filter.processEditor (infoOf editor))
                      (fun f w1 => @Hkeep uri editor f w1 Hvis)
                      (JsMap.keys (Project.filters p0)) p0 w0) as Hpres.
      pose proof (@invokeEach_establishes
                    (registered (TextDocument.uri (World.document editor w)))
                    (Filter.processEditor (infoOf editor))) as Hest.
      specialize (Hest
                    (fun f w1 =>
                       ex_intro _ (infoOf editor)
                         (conj (processEditor_registers (infoOf editor) f w1)
                            (conj Hvis eq_refl)))
                    (JsMap.keys (Project.filters p0)) p0 w0).
      destruct (Commands.invokeEach (JsMap.keys (Project.filters p0))
                  (Filter.processEditor (infoOf editor)) p0 w0) as [p1 w1].
      cbn [fst] in Hpres, Hest.
      assert (incl editors (World.visibleTextEditors w)) as Hincl'
        by (intros e He; apply Hincl; now right).
      specialize (IH p1 w1 Hincl'). cbv zeta in IH.
      intros key f' H. destruct (IH key f' H) as ((f1 & Hf1 & Hreg1) & Hall).
      assert (exists f, JsMap.get key (Project.filters p0) = Some f
                        /\ forall uri, registered uri f -> registered uri f1)
        as (f & Hf & Hreg).
      { destruct (Hpres (TextDocument.uri (World.document editor w)) key f1 Hf1)
          as (f & Hf & _).
        exists f. split; [exact Hf|]. intros uri Hu.
        destruct (Hpres uri key f1 Hf1) as (f0 & Hf0 & HP).
        apply HP. now assert (f0 = f) as -> by congruence. }
      split.
      + exists f. split; [exact Hf|]. auto.
      + intros e [<-|He]; [|now apply Hall].
        apply Hreg1. apply (Hest key f1); [|exact Hf1].
        apply get_Some_neq_None in Hf.
        destruct (in_dec string_dec key (JsMap.keys (Project.filters p0)))
          as [Hin|Hnot]; [exact Hin|].
        apply get_None_keys in Hnot. contradiction. }
  specialize (Hloop (World.visibleTextEditors w) p w (incl_refl _)).
  cbv zeta in Hloop.
  destruct (fold_left _ (map infoOf (World.visibleTextEditors w)) (p, w))
    as [p' w'].
  exists p'. split; [reflexivity|]. intros key f' editor Hget Hvis.
  destruct (Hloop key f' Hget) as [_ Hall].
  destruct (Hall editor Hvis) as (info & H1 & H2 & H3).
  now exists info.
Qed.
End Registration.

Section FlagCommands.
Context {host : Host}.
Implicit Types (p : Project.t) (w : World.t).

Lemma settingsOf_Some p key f :
  JsMap.get key (Project.filters p) = Some f ->
  forall p' s,
    settingsOf p' key = Some s ->
    exists f', JsMap.get key (Project.filters p') = Some f' /\ settings f' = s.
Proof.
  intros _ p' s. unfold settingsOf.
  destruct (JsMap.get key (Project.filters p')) as [f'|]; [|discriminate].
  intros [= <-]. now exists f'.
Qed.

Lemma same_shape_groups (update : Group.t -> Group.t) p id p1 p' :
  Project.groups p1 = groupsAfter update p id ->
  JsMap.keys (Project.filters p1) = JsMap.keys (Project.filters p) ->
  same_shape p1 p' ->
  Project.groups p' = groupsAfter update p id
  /\ JsMap.keys (Project.filters p') = JsMap.keys (Project.filters p).
Proof. intros Hg Hk (Hg' & _ & _ & _ & Hk'). split; congruence. Qed.

(** The state of the selected project after the first part of
    [setVisibility] and [setHighlight], before the refresh. *)
Lemma flag_command_settings
    (g : string * RegExp * bool * bool * bool
         -> string * RegExp * bool * bool * bool)
    (method : Filter.t -> World.t -> Filter.t * World.t)
    (update : Group.t -> Group.t) (id : string) p w :
  (forall f w, settings (fst (method f w)) = g (settings f)) ->
  (forall s, g (g s) = g s) ->
  let '(state1, w1) :=
    if String.prefix "group-" id then
      match JsMap.get id (Project.groups p) with
      | Some group =>
          let p :=
            Project.with_groups
              (JsMap.set id (update group) (Project.groups p)) p in
          let '(p, w) :=
            Commands.invokeEach (Group.filters group) method p w in
          (Commands.mkState (Some p), w)
      | None => (Commands.mkState (Some p), w)
      end
    else if String.prefix "filter-" id then
      let '(p, w) := Commands.invoke id method p w in
      (Commands.mkState (Some p), w)
    else (Commands.mkState (Some p), w) in
  exists p1,
    Commands.selectedProject state1 = Some p1
    /\ Project.groups p1 = groupsAfter update p id
    /\ JsMap.keys (Project.filters p1) = JsMap.keys (Project.filters p)
    /\ forall k,
         settingsOf p1 k
         = option_map
             (fun s => if existsb (String.eqb k) (targetsOf p id)
                       then g s else s)
             (settingsOf p k).
Proof.
  intros Hmethod Hidem. unfold groupsAfter, targetsOf.
  assert (forall k, settingsOf p k
                    = option_map (fun s => s) (settingsOf p k)) as Hid
    by (intros k; now destruct (settingsOf p k)).
  destruct (String.prefix "group-" id).
  - destruct (JsMap.get id (Project.groups p)) as [group|].
    + destruct (@invokeEach_settings _ g method Hmethod Hidem
                  (Group.filters group)
                  (Project.with_groups
                     (JsMap.set id (update group) (Project.groups p)) p) w)
        as [(Hg & _ & _ & _ & Hk) Hset].
      destruct (Commands.invokeEach (Group.filters group) method _ w)
        as [p1 w1].
      exists p1. split; [reflexivity|]. split; [exact Hg|].
      split; [exact Hk|exact Hset].
    + exists p. repeat split. exact Hid.
  - destruct (String.prefix "filter-" id).
    + destruct (@invokeEach_settings _ g method Hmethod Hidem [id] p w)
        as [(Hg & _ & _ & _ & Hk) Hset].
      unfold Commands.invokeEach in Hg, Hk, Hset. cbn [fold_left] in *.
      destruct (Commands.invoke id method p w) as [p1 w1].
      exists p1. split; [reflexivity|]. split; [exact Hg|].
      split; [exact Hk|exact Hset].
    + exists p. repeat split. exact Hid.
Qed.

Lemma set_isShown_settings (value : bool) (f : Filter.t) w :
  settings (fst (Filter.set_isShown value f w))
  = (let '(id, regex, isHighlighted, _, isExclude) := settings f in
     (id, regex, isHighlighted, value, isExclude)).
Proof. reflexivity. Qed.

Lemma set_isHighlighted_settings (value : bool) (f : Filter.t) w :
  settings (fst (Filter.set_isHighlighted value f w))
  = (let '(id, regex, _, isShown, isExclude) := settings f in
     (id, regex, value, isShown, isExclude)).
Proof. reflexivity. Qed.

Lemma set_isExclude_settings (value : bool) (f : Filter.t) w :
  settings (fst (Filter.set_isExclude value f w))
  = (let '(id, regex, isHighlighted, isShown, _) := settings f in
     (id, regex, isHighlighted, isShown, value)).
Proof. reflexivity. Qed.

(** X11. [setVisibility] and [setHighlight] set the flag of exactly the
    filters that the tree item stands for: the members of the group
    when the id is that of a group of the project (the flag of the
    group is set too), the filter itself when it is the id of a
    filter, none otherwise.  No other flag, no pattern, no id, no key
    and no other group changes, also not by the refresh of the editors
    that ends the command. *)
Theorem group_flags_cascade (value : bool) (id : string) p w :
  (let '(state', w') :=
     Commands.setVisibility value id (Commands.mkState (Some p)) w in
   exists p',
     Commands.selectedProject state' = Some p'
     /\ Project.groups p' = groupsAfter (Group.with_isShown value) p id
     /\ JsMap.keys (Project.filters p') = JsMap.keys (Project.filters p)
     /\ forall key f,
          JsMap.get key (Project.filters p) = Some f ->
          exists f',
            JsMap.get key (Project.filters p') = Some f'
            /\ Filter.isShown f'
               = (if existsb (String.eqb key) (targetsOf p id)
                  then value else Filter.isShown f)
            /\ Filter.id f' = Filter.id f
            /\ Filter.regex f' = Filter.regex f
            /\ Filter.isHighlighted f' = Filter.isHighlighted f
            /\ Filter.isExclude f' = Filter.isExclude f)
  /\ (let '(state', w') :=
        Commands.setHighlight value id (Commands.mkState (Some p)) w in
      exists p',
        Commands.selectedProject state' = Some p'
        /\ Project.groups p' = groupsAfter (Group.with_isHighlighted value) p id
        /\ JsMap.keys (Project.filters p') = JsMap.keys (Project.filters p)
        /\ forall key f,
             JsMap.get key (Project.filters p) = Some f ->
             exists f',
               JsMap.get key (Project.filters p') = Some f'
               /\ Filter.isHighlighted f'
                  = (if existsb (String.eqb key) (targetsOf p id)
                     then value else Filter.isHighlighted f)
               /\ Filter.id f' = Filter.id f
               /\ Filter.regex f' = Filter.regex f
               /\ Filter.isShown f' = Filter.isShown f
               /\ Filter.isExclude f' = Filter.isExclude f).
Proof.
  split.
  - unfold Commands.setVisibility. cbn [Commands.selectedProject].
    pose proof (@flag_command_settings
                  (fun '(id, regex, isHighlighted, _, isExclude) =>
                     (id, regex, isHighlighted, value, isExclude))
                  (Filter.set_isShown value)
                  (Group.with_isShown value) id p w
                  (set_isShown_settings value)) as H.
    destruct (if String.prefix "group-" id then _ else _) as [state1 w1].
    destruct H as (p1 & Hsel & Hg & Hk & Hset).
    { now intros [[[[? ?] ?] ?] ?]. }
    destruct state1 as [sel]. cbn in Hsel. subst sel.
    destruct (refreshEditors_settings p1 w1) as (p' & Hsel' & Hshape & Hset').
    destruct (Commands.refreshEditors _ w1) as [state' w'].
    cbn [fst] in Hsel'. exists p'. split; [exact Hsel'|].
    destruct (same_shape_groups _ _ _ Hg Hk Hshape) as [Hg' Hk'].
    split; [exact Hg'|]. split; [exact Hk'|].
    intros key f Hget. specialize (Hset key). specialize (Hset' key).
    rewrite Hset in Hset'. unfold settingsOf at 2 in Hset'.
    rewrite Hget in Hset'. cbn [option_map] in Hset'.
    destruct (settingsOf_Some _ _ Hget _ Hset') as (f' & Hget' & Hs).
    exists f'. split; [exact Hget'|].
    unfold settings in Hs.
    destruct (existsb (String.eqb key) (targetsOf p id));
      injection Hs as -> -> -> -> ->; now repeat split.
  - unfold Commands.setHighlight. cbn [Commands.selectedProject].
    pose proof (@flag_command_settings
                  (fun '(id, regex, _, isShown, isExclude) =>
                     (id, regex, value, isShown, isExclude))
                  (Filter.set_isHighlighted value)
                  (Group.with_isHighlighted value) id p w
                  (set_isHighlighted_settings value)) as H.
    destruct (if String.prefix "group-" id then _ else _) as [state1 w1].
    destruct H as (p1 & Hsel & Hg & Hk & Hset).
    { now intros [[[[? ?] ?] ?] ?]. }
    destruct state1 as [sel]. cbn in Hsel. subst sel.
    destruct (refreshEditors_settings p1 w1) as (p' & Hsel' & Hshape & Hset').
    destruct (Commands.refreshEditors _ w1) as [state' w'].
    cbn [fst] in Hsel'. exists p'. split; [exact Hsel'|].
    destruct (same_shape_groups _ _ _ Hg Hk Hshape) as [Hg' Hk'].
    split; [exact Hg'|]. split; [exact Hk'|].
    intros key f Hget. specialize (Hset key). specialize (Hset' key).
    rewrite Hset in Hset'. unfold settingsOf at 2 in Hset'.
    rewrite Hget in Hset'. cbn [option_map] in Hset'.
    destruct (settingsOf_Some _ _ Hget _ Hset') as (f' & Hget' & Hs).
    exists f'. split; [exact Hget'|].
    unfold settings in Hs.
    destruct (existsb (String.eqb key) (targetsOf p id));
      injection Hs as -> -> -> -> ->; now repeat split.
Qed.
End FlagCommands.

Section EditCommands.
Context {host : Host}.
Implicit Types (p : Project.t) (w : World.t).

Lemma keys_delete (V : Type) (m : JsMap.t V) (k : string) :
  JsMap.keys (JsMap.delete k m)
  = filter (fun k' => negb (String.eqb k k')) (JsMap.keys m).
Proof.
  unfold JsMap.keys, JsMap.delete.
  induction m as [|[k' v] m IH]; cbn; [reflexivity|].
  destruct (String.eqb k k'); cbn; now rewrite IH.
Qed.

Lemma get_map_values (V : Type) (update : string -> V -> V) (m : JsMap.t V)
    (k : string) :
  JsMap.get k (map (fun '(key, v) => (key, update key v)) m)
  = option_map (update k) (JsMap.get k m).
Proof.
  induction m as [|[k' v] m IH]; cbn; [reflexivity|].
  destruct (String.eqb_spec k k') as [->|Hne]; [reflexivity|exact IH].
Qed.

Lemma filters_delete_In (filterId key : string) (g : Group.t) :
  In key (Group.filters (Group.filters_delete filterId g))
  <-> In key (Group.filters g) /\ key <> filterId.
Proof.
  unfold Group.filters_delete. cbn [Group.filters]. rewrite filter_In.
  destruct (String.eqb_spec filterId key) as [->|Hne]; cbn;
    intuition congruence.
Qed.

(** X12. [setExclude] applies to a filter only: for the id of a filter
    of the project it sets [isExclude] of that filter and nothing
    else; for any other id, that of a group included, it does nothing
    at all: there is no refresh, the state and the world are as
    before. *)
Theorem setExclude_applies_to_one_filter (value : bool) (id : string) p w :
  let '(state', w') :=
    Commands.setExclude value id (Commands.mkState (Some p)) w in
  match JsMap.get id (Project.filters p) with
  | None => state' = Commands.mkState (Some p) /\ w' = w
  | Some _ =>
      exists p',
        Commands.selectedProject state' = Some p'
        /\ Project.groups p' = Project.groups p
        /\ JsMap.keys (Project.filters p') = JsMap.keys (Project.filters p)
        /\ forall key f,
             JsMap.get key (Project.filters p) = Some f ->
             exists f',
               JsMap.get key (Project.filters p') = Some f'
               /\ Filter.isExclude f'
                  = (if String.eqb key id then value else Filter.isExclude f)
               /\ Filter.id f' = Filter.id f
               /\ Filter.regex f' = Filter.regex f
               /\ Filter.isHighlighted f' = Filter.isHighlighted f
               /\ Filter.isShown f' = Filter.isShown f
  end.
Proof.
  unfold Commands.setExclude. cbn [Commands.selectedProject].
  destruct (JsMap.get id (Project.filters p)) as [f0|] eqn:Eget; [|now split].
  destruct (@invokeEach_settings _
              (fun '(id, regex, isHighlighted, isShown, _) =>
                 (id, regex, isHighlighted, isShown, value))
              (Filter.set_isExclude value) (set_isExclude_settings value))
    with (keys := [id]) (p := p) (w := w) as [(Hg & _ & _ & _ & Hk) Hset].
  { now intros [[[[? ?] ?] ?] ?]. }
  unfold Commands.invokeEach in Hg, Hk, Hset. cbn [fold_left] in *.
  destruct (Commands.invoke id (Filter.set_isExclude value) p w) as [p1 w1].
  cbn [fst] in *.
  destruct (refreshEditors_settings p1 w1)
    as (p' & Hsel' & (Hg' & _ & _ & _ & Hk') & Hset').
  destruct (Commands.refreshEditors _ w1) as [state' w'].
  cbn [fst] in Hsel'. exists p'. split; [exact Hsel'|].
  split; [congruence|]. split; [congruence|].
  intros key f Hget. specialize (Hset key). specialize (Hset' key).
  rewrite Hset in Hset'. unfold settingsOf at 2 in Hset'.
  rewrite Hget in Hset'. cbn [option_map existsb] in Hset'.
  rewrite orb_false_r in Hset'.
  destruct (settingsOf_Some _ _ Hget _ Hset') as (f' & Hget' & Hs).
  exists f'. split; [exact Hget'|].
  unfold settings in Hs.
  destruct (String.eqb key id); injection Hs as -> -> -> -> ->;
    now repeat split.
Qed.

(** X16. [deleteFilter] of a filter of the project removes it from the
    project and from every group, and nothing else: the other filters
    keep their place and their settings, every group keeps its place
    and its other members.  For an id that is not the key of a filter
    the command does nothing. *)
Theorem deleteFilter_removes_everywhere (treeItemId : string) p w :
  let '(state', w') :=
    Commands.deleteFilter treeItemId (Commands.mkState (Some p)) w in
  match JsMap.get treeItemId (Project.filters p) with
  | None => state' = Commands.mkState (Some p) /\ w' = w
  | Some _ =>
      exists p',
        Commands.selectedProject state' = Some p'
        /\ JsMap.get treeItemId (Project.filters p') = None
        /\ JsMap.keys (Project.filters p')
           = filter (fun key => negb (String.eqb treeItemId key))
               (JsMap.keys (Project.filters p))
        /\ (forall key,
               key <> treeItemId -> settingsOf p' key = settingsOf p key)
        /\ JsMap.keys (Project.groups p') = JsMap.keys (Project.groups p)
        /\ (forall groupId,
               JsMap.get groupId (Project.groups p')
               = option_map (Group.filters_delete treeItemId)
                   (JsMap.get groupId (Project.groups p)))
        /\ (forall groupId group,
               JsMap.get groupId (Project.groups p') = Some group ->
               ~ In treeItemId (Group.filters group))
  end.
Proof.
  unfold Commands.deleteFilter. cbn [Commands.selectedProject].
  destruct (JsMap.get treeItemId (Project.filters p)) as [f0|] eqn:Eget;
    [|now split].
  destruct (Filter.dispose f0 w) as [f1 w1].
  set (p1 := Project.with_groups _ _).
  destruct (refreshEditors_settings p1 w1)
    as (p' & Hsel' & (Hg' & _ & _ & _ & Hk') & Hset').
  destruct (Commands.refreshEditors _ w1) as [state' w'].
  cbn [fst] in Hsel'. exists p'. split; [exact Hsel'|].
  assert (forall groupId,
             JsMap.get groupId (Project.groups p')
             = option_map (Group.filters_delete treeItemId)
                 (JsMap.get groupId (Project.groups p))) as Hgroups.
  { intros groupId. rewrite Hg'. subst p1.
    cbn [Project.groups Project.with_groups Project.with_filters].
    apply (get_map_values (fun _ => Group.filters_delete treeItemId)). }
  split.
  { apply get_None_keys. rewrite Hk'. subst p1.
    cbn [Project.filters Project.with_groups Project.with_filters].
    apply get_None_keys, get_delete_eq. }
  split.
  { rewrite Hk'. subst p1.
    cbn [Project.filters Project.with_groups Project.with_filters].
    apply keys_delete. }
  split.
  { intros key Hne. rewrite Hset'. unfold settingsOf. subst p1.
    cbn [Project.filters Project.with_groups Project.with_filters].
    rewrite get_delete_ne by congruence. reflexivity. }
  split.
  { rewrite Hg'. subst p1.
    cbn [Project.groups Project.with_groups Project.with_filters].
    unfold JsMap.keys. rewrite map_map. apply map_ext. now intros [k g]. }
  split; [exact Hgroups|].
  intros groupId group Hgroup. rewrite Hgroups in Hgroup.
  destruct (JsMap.get groupId (Project.groups p)) as [g|]; [|discriminate].
  injection Hgroup as <-. rewrite filters_delete_In. tauto.
Qed.
End EditCommands.

Section Dispatch.
Context {host : Host}.
Implicit Types (p : Project.t) (w : World.t).

(** X13. The ids that the code generates are dispatched as what they
    are: the id of [new Filter] starts with "filter-" and not with
    "group-", the id of [createGroup] starts with "group-"; so
    [setVisibility] and [setHighlight] on a new filter apply to that
    filter alone, and on a group of the project to the members of the
    group. *)
Theorem generated_ids_are_dispatched (regex : RegExp) (name : string)
    (update : Group.t -> Group.t) p w :
  let filterId := Filter.id (fst (Filter.new regex w)) in
  let groupId := Group.id (fst (createGroup name w)) in
  String.prefix "filter-" filterId = true
  /\ String.prefix "group-" filterId = false
  /\ String.prefix "group-" groupId = true
  /\ filterId <> groupId
  /\ targetsOf p filterId = [filterId]
  /\ groupsAfter update p filterId = Project.groups p
  /\ forall group,
       JsMap.get groupId (Project.groups p) = Some group ->
       targetsOf p groupId = Group.filters group
       /\ groupsAfter update p groupId
          = JsMap.set groupId (update group) (Project.groups p).
Proof.
  cbv zeta. unfold Filter.new, createGroup, generateId, Date_now.
  cbn [fst Filter.id Group.id].
  set (rest := (string_of_Z _ ++ _)%string). clearbody rest.
  assert (String.prefix "filter-" ("filter" ++ "-" ++ rest) = true) as Hf
    by (destruct rest; reflexivity).
  assert (String.prefix "group-" ("filter" ++ "-" ++ rest) = false) as Hfg
    by reflexivity.
  assert (String.prefix "group-" ("group" ++ "-" ++ rest) = true) as Hg
    by (destruct rest; reflexivity).
  split; [exact Hf|]. split; [exact Hfg|]. split; [exact Hg|].
  split; [discriminate|].
  unfold targetsOf, groupsAfter. rewrite Hfg, Hf, Hg.
  split; [reflexivity|]. split; [reflexivity|].
  intros group ->. now split.
Qed.
End Dispatch.

Section FilterCommands.
Context {host : Host}.
Implicit Types (p : Project.t) (w : World.t).

(** X14. [addFilter] with a pattern that compiles, on a group of the
    selected project: the command returns; the project has a new
    filter under the id that [generateId] gave, with the compiled
    pattern, highlighted, shown, not exclude, with a cache that
    satisfies the invariant; the group has the new id among its
    members; every other filter keeps its id, its pattern and its
    flags, and every other group is as before.  (The refresh of the
    editors that ends the command makes every filter process the
    visible editors again: the count, the active editors, the
    decorations and the cache of the other filters are those of that
    refresh.) *)
Theorem addFilter_registers_the_filter (treeItemId regexStr : string)
    (regex : RegExp) (group : Group.t) p w :
  regexStr <> EmptyString ->
  RegExp_new regexStr = inr regex ->
  JsMap.get treeItemId (Project.groups p) = Some group ->
  let newId := fst (generateId "filter" w) in
  let '(outcome, state', w') :=
    Commands.addFilter treeItemId (Some regexStr)
      (Commands.mkState (Some p)) w in
  outcome = Commands.Returned
  /\ exists p' f',
       Commands.selectedProject state' = Some p'
       /\ JsMap.get newId (Project.filters p') = Some f'
       /\ Filter.id f' = newId
       /\ Filter.regex f' = regex
       /\ Filter.isHighlighted f' = true
       /\ Filter.isShown f' = true
       /\ Filter.isExclude f' = false
       /\ cache_ok f'
       /\ (forall key, key <> newId -> settingsOf p' key = settingsOf p key)
       /\ JsMap.get treeItemId (Project.groups p')
          = Some (Group.filters_set newId group)
       /\ In newId (Group.filters (Group.filters_set newId group))
       /\ (forall groupId,
              groupId <> treeItemId ->
              JsMap.get groupId (Project.groups p')
              = JsMap.get groupId (Project.groups p)).
Proof.
  intros Hne Hregex Hgroup newId. unfold Commands.addFilter.
  cbn [Commands.selectedProject].
  destruct regexStr as [|c rest]; [contradiction|]. cbn [truthy].
  rewrite Hgroup, Hregex.
  pose proof (new_cache_ok regex w) as Hok.
  assert (Filter.id (fst (Filter.new regex w)) = newId
          /\ settings (fst (Filter.new regex w))
             = (newId, regex, true, true, false)) as [Hid Hs].
  { subst newId. unfold Filter.new.
    destruct (generateId "filter" w) as [id w0]. now split. }
  destruct (Filter.new regex w) as [f0 w0]. cbn [fst] in Hok, Hid, Hs.
  rewrite Hid. set (p1 := Project.with_filters _ _).
  destruct (refreshEditors_settings p1 w0)
    as (p' & Hsel' & (Hg' & _ & _ & _ & Hk') & Hset').
  pose proof (@refreshEditors_preserves _ cache_ok p1 w0
                (fun editor f w1 H =>
                   proj1 (processEditor_cache_ok editor w1 H)) p' Hsel')
    as Hpres.
  destruct (Commands.refreshEditors _ w0) as [state' w'].
  cbn [fst] in Hsel'. split; [reflexivity|].
  assert (JsMap.get newId (Project.filters p1) = Some f0) as Hget1.
  { subst p1. cbn [Project.filters Project.with_filters Project.with_groups].
    apply get_set_eq. }
  pose proof (Hset' newId) as Hnew. unfold settingsOf at 2 in Hnew.
  rewrite Hget1 in Hnew. cbn [option_map] in Hnew. rewrite Hs in Hnew.
  destruct (settingsOf_Some _ _ Hget1 _ Hnew) as (f' & Hget' & Hs').
  exists p', f'. split; [exact Hsel'|]. split; [exact Hget'|].
  unfold settings in Hs'. injection Hs' as -> -> -> -> ->.
  do 5 (split; [reflexivity|]). split.
  { destruct (Hpres _ _ Hget') as (f & Hf & HP).
    apply HP. now assert (f = f0) as -> by congruence. }
  split.
  { intros key Hkey. rewrite Hset'. unfold settingsOf. subst p1.
    cbn [Project.filters Project.with_filters Project.with_groups].
    rewrite get_set_ne by congruence. reflexivity. }
  split.
  { rewrite Hg'. subst p1.
    cbn [Project.groups Project.with_filters Project.with_groups].
    apply get_set_eq. }
  split.
  { unfold Group.filters_set. cbn [Group.filters].
    destruct (existsb (String.eqb newId) (Group.filters group)) eqn:E.
    - apply existsb_exists in E. destruct E as (k & Hin & Heq).
      apply String.eqb_eq in Heq. rewrite Heq. exact Hin.
    - apply in_or_app. right. now left. }
  intros groupId Hgid. rewrite Hg'. subst p1.
  cbn [Project.groups Project.with_filters Project.with_groups].
  apply get_set_ne. congruence.
Qed.

(** X15. [editFilter] with a new pattern that compiles: the filter has
    the new pattern and the next [regexVersion]; its id and its flags,
    the keys of the project and the groups are as before, and every
    other filter keeps its id, its pattern and its flags; every entry
    of the cache of the filter, after the refresh of the editors that
    ends the command, is the result of a scan under the new pattern.
    (That refresh makes every filter process the visible editors
    again: the count, the active editors, the decorations and the
    cache of the other filters are those of the refresh.) *)
Theorem editFilter_replaces_the_pattern (treeItemId regexStr : string)
    (regex : RegExp) (filter : Filter.t) p w :
  JsMap.get treeItemId (Project.filters p) = Some filter ->
  regexStr <> RegExp_source (Filter.regex filter) ->
  RegExp_new regexStr = inr regex ->
  let '(outcome, state', w') :=
    Commands.editFilter treeItemId (Some regexStr)
      (Commands.mkState (Some p)) w in
  outcome = Commands.Returned
  /\ exists p' f',
       Commands.selectedProject state' = Some p'
       /\ JsMap.get treeItemId (Project.filters p') = Some f'
       /\ Filter.regex f' = regex
       /\ Filter.regexVersion f' = S (Filter.regexVersion filter)
       /\ Filter.id f' = Filter.id filter
       /\ Filter.isHighlighted f' = Filter.isHighlighted filter
       /\ Filter.isShown f' = Filter.isShown filter
       /\ Filter.isExclude f' = Filter.isExclude filter
       /\ cache_ok f'
       /\ (forall key,
              key <> treeItemId -> settingsOf p' key = settingsOf p key)
       /\ Project.groups p' = Project.groups p
       /\ JsMap.keys (Project.filters p') = JsMap.keys (Project.filters p).
Proof.
  intros Hget Hne Hregex. unfold Commands.editFilter.
  cbn [Commands.selectedProject]. rewrite Hget.
  destruct (String.eqb_spec regexStr (RegExp_source (Filter.regex filter)));
    [contradiction|].
  rewrite Hregex.
  pose proof (setRegex_spec regex filter w) as (Hcache & Hr & Hv & _).
  assert (settings (fst (Filter.setRegex regex filter w))
          = (Filter.id filter, regex, Filter.isHighlighted filter,
             Filter.isShown filter, Filter.isExclude filter)) as Hs
    by reflexivity.
  destruct (Filter.setRegex regex filter w) as [f0 w0].
  cbn [fst] in Hcache, Hr, Hv, Hs.
  set (p1 := Project.with_filters _ _).
  destruct (refreshEditors_settings p1 w0)
    as (p' & Hsel' & (Hg' & _ & _ & _ & Hk') & Hset').
  pose proof (@refreshEditors_preserves _
                (fun f => cache_ok f
                          /\ Filter.regexVersion f
                             = S (Filter.regexVersion filter)) p1 w0) as Hpres.
  specialize (Hpres
                (fun editor f w1 H =>
                   conj (proj1 (processEditor_cache_ok editor w1 (proj1 H)))
                     (eq_trans
                        (proj1 (proj2 (proj2 (proj2 (proj2
                           (processEditor_flags editor f w1))))))
                        (proj2 H))) p' Hsel').
  destruct (Commands.refreshEditors _ w0) as [state' w'].
  cbn [fst] in Hsel'. split; [reflexivity|].
  assert (JsMap.get treeItemId (Project.filters p1) = Some f0) as Hget1.
  { subst p1. cbn [Project.filters Project.with_filters]. apply get_set_eq. }
  pose proof (Hset' treeItemId) as Hnew. unfold settingsOf at 2 in Hnew.
  rewrite Hget1 in Hnew. cbn [option_map] in Hnew. rewrite Hs in Hnew.
  destruct (settingsOf_Some _ _ Hget1 _ Hnew) as (f' & Hget' & Hs').
  exists p', f'. split; [exact Hsel'|]. split; [exact Hget'|].
  destruct (Hpres _ _ Hget') as (f & Hf & HP).
  assert (f = f0) as -> by congruence.
  destruct HP as [Hok Hversion].
  { split; [now apply empty_cache_ok|exact Hv]. }
  unfold settings in Hs'. injection Hs' as H1 H2 H3 H4 H5.
  split; [exact H2|]. split; [exact Hversion|]. split; [exact H1|].
  split; [exact H3|]. split; [exact H4|]. split; [exact H5|].
  split; [exact Hok|]. split.
  { intros key Hkey. rewrite Hset'. unfold settingsOf. subst p1.
    cbn [Project.filters Project.with_filters].
    rewrite get_set_ne by congruence. reflexivity. }
  split; [rewrite Hg'; reflexivity|].
  rewrite Hk'. subst p1. cbn [Project.filters Project.with_filters].
  eapply keys_set_present. exact Hget.
Qed.
End FilterCommands.

Section GroupCommands.
Context {host : Host}.
Implicit Types (p : Project.t) (w : World.t).

(** The loop of [deleteGroup] when every filter is stored under its
    id. *)
Lemma deleteGroup_loop (p0 : Project.t) (members : list string) :
  (forall key f,
      JsMap.get key (Project.filters p0) = Some f -> Filter.id f = key) ->
  forall p w,
    let p' :=
      fst (fold_left
             (fun '(p, w) key =>
                match JsMap.get key (Project.filters p0) with
                | Some filter =>
                    let p :=
                      Project.with_filters
                        (JsMap.delete (Filter.id filter) (Project.filters p))
                        p in
                    let '(_, w) := Filter.dispose filter w in
                    (p, w)
                | None => (p, w)
                end)
             members (p, w)) in
    Project.groups p' = Project.groups p
    /\ (forall key,
           JsMap.get key (Project.filters p')
           = if existsb (fun member =>
                           String.eqb key member
                           && match JsMap.get member (Project.filters p0) with
                              | Some _ => true
                              | None => false
                              end) members
             then None else JsMap.get key (Project.filters p)).
Proof.
  intros Hid. induction members as [|member members IH]; intros p w;
    cbn [fold_left existsb].
  - now split.
  - destruct (JsMap.get member (Project.filters p0)) as [f|] eqn:Eget.
    + rewrite (Hid _ _ Eget). destruct (Filter.dispose f w) as [f' w'].
      destruct (IH (Project.with_filters
                      (JsMap.delete member (Project.filters p)) p) w')
        as [Hg Hget].
      split; [exact Hg|]. intros key. rewrite Hget.
      cbn [Project.filters Project.with_filters]. rewrite andb_true_r.
      destruct (existsb _ members); [now rewrite orb_true_r|].
      rewrite orb_false_r.
      destruct (String.eqb_spec key member) as [->|Hne].
      * apply get_delete_eq.
      * apply get_delete_ne. congruence.
    + destruct (IH p w) as [Hg Hget]. split; [exact Hg|].
      intros key. rewrite Hget. now rewrite andb_false_r.
Qed.

(** X17. [deleteGroup], in a project that stores every filter under its
    id, removes the group and the filters that are its members; the
    other groups and the settings of the other filters are as before.
    For an id that is not the key of a group the command does
    nothing. *)
Theorem deleteGroup_removes_its_filters (treeItemId : string) p w :
  (forall key f,
      JsMap.get key (Project.filters p) = Some f -> Filter.id f = key) ->
  let '(state', w') :=
    Commands.deleteGroup treeItemId (Commands.mkState (Some p)) w in
  match JsMap.get treeItemId (Project.groups p) with
  | None => state' = Commands.mkState (Some p) /\ w' = w
  | Some group =>
      exists p',
        Commands.selectedProject state' = Some p'
        /\ JsMap.get treeItemId (Project.groups p') = None
        /\ (forall groupId,
               groupId <> treeItemId ->
               JsMap.get groupId (Project.groups p')
               = JsMap.get groupId (Project.groups p))
        /\ (forall key,
               In key (Group.filters group) ->
               JsMap.get key (Project.filters p') = None)
        /\ (forall key,
               ~ In key (Group.filters group) ->
               settingsOf p' key = settingsOf p key)
  end.
Proof.
  intros Hid. unfold Commands.deleteGroup. cbn [Commands.selectedProject].
  destruct (JsMap.get treeItemId (Project.groups p)) as [group|] eqn:Egroup;
    [|now split].
  destruct (deleteGroup_loop p (Group.filters group) Hid p w) as [Hg Hget].
  destruct (fold_left _ (Group.filters group) (p, w)) as [p1 w1].
  cbn [fst] in Hg, Hget.
  set (p2 := Project.with_groups _ p1).
  destruct (refreshEditors_settings p2 w1)
    as (p' & Hsel' & (Hg' & _ & _ & _ & Hk') & Hset').
  destruct (Commands.refreshEditors _ w1) as [state' w'].
  cbn [fst] in Hsel'. exists p'. split; [exact Hsel'|].
  assert (forall key,
             JsMap.get key (Project.filters p2)
             = if existsb (String.eqb key) (Group.filters group)
               then None else JsMap.get key (Project.filters p)) as Hget2.
  { intros key. subst p2. cbn [Project.filters Project.with_groups].
    rewrite Hget.
    destruct (existsb (String.eqb key) (Group.filters group)) eqn:Emem.
    - apply existsb_exists in Emem. destruct Emem as (member & Hin & Heq).
      apply String.eqb_eq in Heq. subst member.
      destruct (JsMap.get key (Project.filters p)) as [f|] eqn:Ekey.
      + replace (existsb _ (Group.filters group)) with true; [reflexivity|].
        symmetry. apply existsb_exists. exists key. split; [exact Hin|].
        now rewrite String.eqb_refl, Ekey.
      + now destruct (existsb _ _).
    - replace (existsb _ (Group.filters group)) with false; [reflexivity|].
      symmetry. apply not_true_is_false. intros H.
      apply existsb_exists in H. destruct H as (member & Hin & Heq).
      apply andb_true_iff in Heq. destruct Heq as [Heq _].
      assert (existsb (String.eqb key) (Group.filters group) = true);
        [|congruence].
      apply existsb_exists. now exists member. }
  split.
  { rewrite Hg'. subst p2. cbn [Project.groups Project.with_groups].
    apply get_delete_eq. }
  split.
  { intros groupId Hne. rewrite Hg'. subst p2.
    cbn [Project.groups Project.with_groups].
    rewrite get_delete_ne by congruence. now rewrite Hg. }
  split.
  { intros key Hin. apply get_None_keys. rewrite Hk'. apply get_None_keys.
    rewrite Hget2.
    replace (existsb (String.eqb key) (Group.filters group)) with true;
      [reflexivity|].
    symmetry. apply existsb_exists. exists key.
    split; [exact Hin|apply String.eqb_refl]. }
  intros key Hnot. rewrite Hset'. unfold settingsOf. rewrite Hget2.
  replace (existsb (String.eqb key) (Group.filters group)) with false;
    [reflexivity|].
  symmetry. apply not_true_is_false. intros H.
  apply existsb_exists in H. destruct H as (member & Hin & Heq).
  apply String.eqb_eq in Heq. now subst member.
Qed.
End GroupCommands.

(* ================================================================== *)
(** * The consistency of the project *)
(* ================================================================== *)

Section Consistency.
Context {host : Host}.
Implicit Types (p : Project.t) (w : World.t).

Lemma get_keys_iff (V W : Type) (m : JsMap.t V) (m' : JsMap.t W) :
  JsMap.keys m' = JsMap.keys m ->
  forall k, JsMap.get k m' <> None <-> JsMap.get k m <> None.
Proof.
  intros Hk k. pose proof (get_None_keys m k) as H.
  pose proof (get_None_keys m' k) as H'. rewrite Hk in H'.
  destruct (JsMap.get k m), (JsMap.get k m'); split; intros ?; try congruence.
  - exfalso. destruct H' as [H' _]. apply H'; [reflexivity|].
    destruct (in_dec string_dec k (JsMap.keys m)) as [Hin|Hn]; [exact Hin|].
    apply H in Hn. discriminate.
  - exfalso. destruct H as [H _]. apply H; [reflexivity|].
    destruct (in_dec string_dec k (JsMap.keys m)) as [Hin|Hn]; [exact Hin|].
    apply H' in Hn. discriminate.
Qed.

(** A project with the keys of [p], whose filters keep their id and
    the invariant of their cache and whose groups keep their id and
    their members, is consistent when [p] is. *)
Lemma consistent_transfer p p' :
  JsMap.keys (Project.filters p') = JsMap.keys (Project.filters p) ->
  JsMap.keys (Project.groups p') = JsMap.keys (Project.groups p) ->
  (forall k f',
      JsMap.get k (Project.filters p') = Some f' ->
      exists f,
        JsMap.get k (Project.filters p) = Some f
        /\ (Filter.id f = k /\ cache_ok f -> Filter.id f' = k /\ cache_ok f')) ->
  (forall groupId,
      option_map (fun g => (Group.id g, Group.filters g))
        (JsMap.get groupId (Project.groups p'))
      = option_map (fun g => (Group.id g, Group.filters g))
          (JsMap.get groupId (Project.groups p))) ->
  consistent p -> consistent p'.
Proof.
  intros Hk Hgk Hf Hg (Hwf & Hgwf & Hc & Hd & He & Hdis).
  assert (forall groupId group',
             JsMap.get groupId (Project.groups p') = Some group' ->
             exists group,
               JsMap.get groupId (Project.groups p) = Some group
               /\ Group.id group' = Group.id group
               /\ Group.filters group' = Group.filters group) as Hback.
  { intros groupId group' H. specialize (Hg groupId). rewrite H in Hg.
    destruct (JsMap.get groupId (Project.groups p)) as [group|];
      [|discriminate].
    injection Hg as H1 H2. now exists group. }
  assert (forall groupId group,
             JsMap.get groupId (Project.groups p) = Some group ->
             exists group',
               JsMap.get groupId (Project.groups p') = Some group'
               /\ Group.id group' = Group.id group
               /\ Group.filters group' = Group.filters group) as Hforth.
  { intros groupId group H. specialize (Hg groupId). rewrite H in Hg.
    destruct (JsMap.get groupId (Project.groups p')) as [group'|];
      [|discriminate].
    injection Hg as H1 H2. now exists group'. }
  unfold consistent, JsMap.wf. rewrite Hk, Hgk.
  split; [exact Hwf|]. split; [exact Hgwf|]. split; [|split; [|split]].
  - intros key f' H. destruct (Hf key f' H) as (f & Hget & HP).
    apply HP. now apply Hc.
  - intros groupId group' H.
    destruct (Hback _ _ H) as (group & Hget & -> & ->). now apply Hd.
  - intros key. rewrite (get_keys_iff _ _ Hk key), He. split.
    + intros (groupId & group & Hget & Hin).
      destruct (Hforth _ _ Hget) as (group' & Hget' & _ & Hm).
      exists groupId, group'. now rewrite Hm.
    + intros (groupId & group' & Hget' & Hin).
      destruct (Hback _ _ Hget') as (group & Hget & _ & Hm).
      exists groupId, group. now rewrite <- Hm.
  - intros groupId1 group1 groupId2 group2 key H1 H2 Hin1 Hin2.
    destruct (Hback _ _ H1) as (g1 & Hg1 & _ & Hm1).
    destruct (Hback _ _ H2) as (g2 & Hg2 & _ & Hm2).
    rewrite Hm1 in Hin1. rewrite Hm2 in Hin2.
    exact (Hdis _ _ _ _ _ Hg1 Hg2 Hin1 Hin2).
Qed.

Lemma processEditor_keeps (key : string) editor (f : Filter.t) w :
  Filter.id f = key /\ cache_ok f ->
  Filter.id (fst (Filter.processEditor editor f w)) = key
  /\ cache_ok (fst (Filter.processEditor editor f w)).
Proof.
  intros [Hid Hok].
  pose proof (processEditor_flags editor f w) as (H1 & _).
  pose proof (processEditor_cache_ok editor w Hok) as [Hok' _].
  cbv zeta in *. split; [congruence|exact Hok'].
Qed.

Lemma refreshEditors_consistent p w :
  consistent p ->
  consistentState (fst (Commands.refreshEditors (Commands.mkState (Some p)) w)).
Proof.
  intros Hp. unfold consistentState.
  destruct (refreshEditors_settings p w)
    as (p' & Hsel & (Hg & _ & _ & _ & Hk) & _).
  rewrite Hsel. apply (consistent_transfer (p := p)); try assumption.
  - now rewrite Hg.
  - intros k f' Hget.
    destruct (@refreshEditors_preserves _
                (fun f => Filter.id f = k /\ cache_ok f) p w
                (fun editor f0 w0 => @processEditor_keeps k editor f0 w0)
                p' Hsel k f' Hget) as (f & Hf & HP).
    now exists f.
  - intros groupId. now rewrite Hg.
Qed.

Lemma setter_keeps (key : string)
    (method : Filter.t -> World.t -> Filter.t * World.t) :
  (forall f w,
      Filter.id (fst (method f w)) = Filter.id f
      /\ Filter.editorCache (fst (method f w)) = Filter.editorCache f
      /\ Filter.regex (fst (method f w)) = Filter.regex f) ->
  forall f w,
    Filter.id f = key /\ cache_ok f ->
    Filter.id (fst (method f w)) = key /\ cache_ok (fst (method f w)).
Proof.
  intros Hmethod f w [Hid Hok]. destruct (Hmethod f w) as (H1 & H2 & H3).
  split; [congruence|]. exact (cache_ok_ext _ H2 H3 Hok).
Qed.

Lemma view_set (groups : JsMap.t Group.t) (id : string)
    (group group' : Group.t) :
  JsMap.get id groups = Some group ->
  Group.id group' = Group.id group ->
  Group.filters group' = Group.filters group ->
  JsMap.keys (JsMap.set id group' groups) = JsMap.keys groups
  /\ forall groupId,
       option_map (fun g => (Group.id g, Group.filters g))
         (JsMap.get groupId (JsMap.set id group' groups))
       = option_map (fun g => (Group.id g, Group.filters g))
           (JsMap.get groupId groups).
Proof.
  intros Hget Hid Hm. split; [eapply keys_set_present; exact Hget|].
  intros groupId. destruct (String.eqb_spec id groupId) as [<-|Hne].
  - rewrite get_set_eq, Hget. cbn. now rewrite Hid, Hm.
  - now rewrite get_set_ne.
Qed.

(** The first part of [setVisibility] and [setHighlight]. *)
Lemma flag_command_consistent
    (method : Filter.t -> World.t -> Filter.t * World.t)
    (update : Group.t -> Group.t) (id : string) p w :
  (forall f w,
      Filter.id (fst (method f w)) = Filter.id f
      /\ Filter.editorCache (fst (method f w)) = Filter.editorCache f
      /\ Filter.regex (fst (method f w)) = Filter.regex f) ->
  (forall g, Group.id (update g) = Group.id g
             /\ Group.filters (update g) = Group.filters g) ->
  consistent p ->
  consistentState
    (fst (if String.prefix "group-" id then
            match JsMap.get id (Project.groups p) with
            | Some group =>
                let p :=
                  Project.with_groups
                    (JsMap.set id (update group) (Project.groups p)) p in
                let '(p, w) :=
                  Commands.invokeEach (Group.filters group) method p w in
                (Commands.mkState (Some p), w)
            | None => (Commands.mkState (Some p), w)
            end
          else if String.prefix "filter-" id then
            let '(p, w) := Commands.invoke id method p w in
            (Commands.mkState (Some p), w)
          else (Commands.mkState (Some p), w))).
Proof.
  intros Hmethod Hupdate Hp.
  assert (forall keys p0 w0,
             JsMap.keys (Project.filters p0) = JsMap.keys (Project.filters p) ->
             JsMap.keys (Project.groups p0) = JsMap.keys (Project.groups p) ->
             (forall k f', JsMap.get k (Project.filters p0) = Some f' ->
                           JsMap.get k (Project.filters p) = Some f') ->
             (forall groupId,
                 option_map (fun g => (Group.id g, Group.filters g))
                   (JsMap.get groupId (Project.groups p0))
                 = option_map (fun g => (Group.id g, Group.filters g))
                     (JsMap.get groupId (Project.groups p))) ->
             consistent (fst (Commands.invokeEach keys method p0 w0))) as Hloop.
  { intros keys p0 w0 Hk Hgk Hf Hg.
    pose proof (fun k => @invokeEach_preserves _
                           (fun f => Filter.id f = k /\ cache_ok f) method
                           (@setter_keeps k method Hmethod) keys p0 w0 k)
      as Hpres.
    assert (same_shape p0 (fst (Commands.invokeEach keys method p0 w0)))
      as (Hg' & _ & _ & _ & Hk').
    { clear. revert p0 w0. unfold Commands.invokeEach.
      induction keys as [|key keys IH]; intros p0 w0; cbn [fold_left];
        [apply same_shape_refl|].
      pose proof (invoke_shape key method p0 w0) as H.
      destruct (Commands.invoke key method p0 w0) as [p1 w1].
      eapply same_shape_trans; [exact H|apply IH]. }
    destruct (Commands.invokeEach keys method p0 w0) as [p1 w1].
    cbn [fst] in *.
    apply (consistent_transfer (p := p)); try congruence.
    intros k f' Hget. destruct (Hpres k f' Hget) as (f & Hf0 & HP).
    exists f. split; [now apply Hf|exact HP]. }
  unfold consistentState.
  destruct (String.prefix "group-" id).
  - destruct (JsMap.get id (Project.groups p)) as [group|] eqn:Eget;
      [|exact Hp].
    destruct (Hupdate group) as [Hid Hm].
    destruct (@view_set (Project.groups p) id group (update group)
                Eget Hid Hm) as [Hgk Hview].
    specialize (Hloop (Group.filters group)
                  (Project.with_groups
                     (JsMap.set id (update group) (Project.groups p)) p) w).
    destruct (Commands.invokeEach _ method _ w) as [p1 w1].
    cbn [fst Commands.selectedProject] in *. apply Hloop; auto.
  - destruct (String.prefix "filter-" id); [|exact Hp].
    specialize (Hloop [id] p w). unfold Commands.invokeEach in Hloop.
    cbn [fold_left] in Hloop.
    destruct (Commands.invoke id method p w) as [p1 w1].
    cbn [fst Commands.selectedProject] in *. apply Hloop; auto.
Qed.

Lemma refresh_after (state1 : Commands.State) w1 :
  consistentState state1 ->
  consistentState (fst (Commands.refreshEditors state1 w1)).
Proof.
  destruct state1 as [[p1|]]; [apply refreshEditors_consistent|].
  intros _. exact I.
Qed.

Lemma set_isShown_frame (value : bool) (f : Filter.t) w :
  Filter.id (fst (Filter.set_isShown value f w)) = Filter.id f
  /\ Filter.editorCache (fst (Filter.set_isShown value f w))
     = Filter.editorCache f
  /\ Filter.regex (fst (Filter.set_isShown value f w)) = Filter.regex f.
Proof. now repeat split. Qed.

Lemma set_isHighlighted_frame (value : bool) (f : Filter.t) w :
  Filter.id (fst (Filter.set_isHighlighted value f w)) = Filter.id f
  /\ Filter.editorCache (fst (Filter.set_isHighlighted value f w))
     = Filter.editorCache f
  /\ Filter.regex (fst (Filter.set_isHighlighted value f w)) = Filter.regex f.
Proof. now repeat split. Qed.

Lemma set_isExclude_frame (value : bool) (f : Filter.t) w :
  Filter.id (fst (Filter.set_isExclude value f w)) = Filter.id f
  /\ Filter.editorCache (fst (Filter.set_isExclude value f w))
     = Filter.editorCache f
  /\ Filter.regex (fst (Filter.set_isExclude value f w)) = Filter.regex f.
Proof. now repeat split. Qed.
End Consistency.

Section ConsistencyOfCommands.
Context {host : Host}.
Implicit Types (p : Project.t) (w : World.t).

Lemma filters_set_In (filterId key : string) (g : Group.t) :
  In key (Group.filters (Group.filters_set filterId g))
  <-> In key (Group.filters g) \/ key = filterId.
Proof.
  unfold Group.filters_set. cbn [Group.filters].
  destruct (existsb (String.eqb filterId) (Group.filters g)) eqn:E.
  - split; [auto|]. intros [H| ->]; [exact H|].
    apply existsb_exists in E. destruct E as (k & Hin & Heq).
    apply String.eqb_eq in Heq. now subst k.
  - rewrite in_app_iff. cbn. intuition congruence.
Qed.

Lemma filters_set_NoDup (filterId : string) (g : Group.t) :
  NoDup (Group.filters g) ->
  NoDup (Group.filters (Group.filters_set filterId g)).
Proof.
  intros Hnd. unfold Group.filters_set. cbn [Group.filters].
  destruct (existsb (String.eqb filterId) (Group.filters g)) eqn:E;
    [exact Hnd|].
  apply NoDup_app; [exact Hnd|repeat constructor; intros []|].
  intros x Hx [<-|[]].
  assert (existsb (String.eqb filterId) (Group.filters g) = true);
    [|congruence].
  apply existsb_exists. exists filterId.
  split; [exact Hx|apply String.eqb_refl].
Qed.

(** The project of [addFilter] before the refresh. *)
Lemma addFilter_consistent (treeItemId : string) (group : Group.t)
    (f : Filter.t) p :
  consistent p ->
  JsMap.get treeItemId (Project.groups p) = Some group ->
  JsMap.get (Filter.id f) (Project.filters p) = None ->
  cache_ok f ->
  consistent
    (Project.with_filters
       (JsMap.set (Filter.id f) f
          (Project.filters
             (Project.with_groups
                (JsMap.set treeItemId (Group.filters_set (Filter.id f) group)
                   (Project.groups p)) p)))
       (Project.with_groups
          (JsMap.set treeItemId (Group.filters_set (Filter.id f) group)
             (Project.groups p)) p)).
Proof.
  intros (Hwf & Hgwf & Hc & Hd & He & Hdis) Hgroup Hfresh Hok.
  set (newId := Filter.id f) in *.
  assert (forall groupId g,
             JsMap.get groupId (Project.groups p) = Some g ->
             ~ In newId (Group.filters g)) as Hnew.
  { intros groupId g Hg Hin.
    assert (JsMap.get newId (Project.filters p) <> None) as H; [|congruence].
    apply He. now exists groupId, g. }
  unfold consistent.
  cbn [Project.filters Project.groups Project.with_filters Project.with_groups].
  split; [now apply set_wf|]. split; [now apply set_wf|].
  split; [|split; [|split]].
  - intros key f' H. destruct (String.eqb_spec newId key) as [<-|Hne].
    + rewrite get_set_eq in H. injection H as <-. now split.
    + rewrite get_set_ne in H by exact Hne. now apply Hc.
  - intros groupId g H. destruct (String.eqb_spec treeItemId groupId) as [<-|Hne].
    + rewrite get_set_eq in H. injection H as <-.
      destruct (Hd _ _ Hgroup) as [Hid Hnd].
      split; [exact Hid|now apply filters_set_NoDup].
    + rewrite get_set_ne in H by exact Hne. now apply Hd.
  - intros key. split.
    + intros H. destruct (String.eqb_spec newId key) as [<-|Hne].
      * exists treeItemId, (Group.filters_set newId group).
        rewrite get_set_eq. split; [reflexivity|].
        apply filters_set_In. now right.
      * rewrite get_set_ne in H by exact Hne. apply He in H.
        destruct H as (groupId & g & Hg & Hin).
        destruct (String.eqb_spec treeItemId groupId) as [<-|Hgne].
        -- exists treeItemId, (Group.filters_set newId group).
           rewrite get_set_eq. split; [reflexivity|].
           apply filters_set_In. left. congruence.
        -- exists groupId, g. now rewrite get_set_ne.
    + intros (groupId & g & Hg & Hin).
      destruct (String.eqb_spec newId key) as [<-|Hne];
        [now rewrite get_set_eq|].
      rewrite get_set_ne by exact Hne. apply He.
      destruct (String.eqb_spec treeItemId groupId) as [<-|Hgne].
      * rewrite get_set_eq in Hg. injection Hg as <-.
        apply filters_set_In in Hin. destruct Hin as [Hin|Heq]; [|congruence].
        now exists treeItemId, group.
      * rewrite get_set_ne in Hg by exact Hgne. now exists groupId, g.
  - assert (forall groupId g key,
               JsMap.get groupId
                 (JsMap.set treeItemId (Group.filters_set newId group)
                    (Project.groups p)) = Some g ->
               In key (Group.filters g) ->
               (key = newId /\ groupId = treeItemId)
               \/ (key <> newId
                   /\ exists g0,
                        JsMap.get groupId (Project.groups p) = Some g0
                        /\ In key (Group.filters g0))) as Hcases.
    { intros groupId g key Hg Hin.
      destruct (String.eqb_spec treeItemId groupId) as [<-|Hgne].
      - rewrite get_set_eq in Hg. injection Hg as <-.
        apply filters_set_In in Hin. destruct Hin as [Hin|Heq]; [|now left].
        right. split; [|now exists group].
        intros ->. exact (Hnew _ _ Hgroup Hin).
      - rewrite get_set_ne in Hg by exact Hgne.
        right. split; [|now exists g].
        intros ->. exact (Hnew _ _ Hg Hin). }
    intros groupId1 group1 groupId2 group2 key H1 H2 Hin1 Hin2.
    destruct (Hcases _ _ _ H1 Hin1) as [[Hk1 Hg1]|(Hk1 & g1 & Hg1 & Hi1)];
      destruct (Hcases _ _ _ H2 Hin2) as [[Hk2 Hg2]|(Hk2 & g2 & Hg2 & Hi2)];
      try congruence.
    exact (Hdis _ _ _ _ _ Hg1 Hg2 Hi1 Hi2).
Qed.

(** The project of [deleteFilter] before the refresh. *)
Lemma deleteFilter_consistent (treeItemId : string) p :
  consistent p ->
  consistent
    (Project.with_groups
       (map (fun '(key, group) => (key, Group.filters_delete treeItemId group))
          (Project.groups
             (Project.with_filters
                (JsMap.delete treeItemId (Project.filters p)) p)))
       (Project.with_filters (JsMap.delete treeItemId (Project.filters p)) p)).
Proof.
  intros (Hwf & Hgwf & Hc & Hd & He & Hdis).
  assert (forall groupId,
             JsMap.get groupId
               (map (fun '(key, group) =>
                       (key, Group.filters_delete treeItemId group))
                  (Project.groups p))
             = option_map (Group.filters_delete treeItemId)
                 (JsMap.get groupId (Project.groups p))) as Hgroups
    by (intros groupId;
        apply (get_map_values (fun _ => Group.filters_delete treeItemId))).
  assert (forall groupId g',
             JsMap.get groupId
               (map (fun '(key, group) =>
                       (key, Group.filters_delete treeItemId group))
                  (Project.groups p)) = Some g' ->
             exists g,
               JsMap.get groupId (Project.groups p) = Some g
               /\ g' = Group.filters_delete treeItemId g) as Hback.
  { intros groupId g' H. rewrite Hgroups in H.
    destruct (JsMap.get groupId (Project.groups p)) as [g|]; [|discriminate].
    injection H as <-. now exists g. }
  unfold consistent.
  cbn [Project.filters Project.groups Project.with_filters Project.with_groups].
  split; [now apply delete_wf|]. split; [|split; [|split; [|split]]].
  - unfold JsMap.wf, JsMap.keys. rewrite map_map.
    erewrite map_ext; [exact Hgwf|]. now intros [k g].
  - intros key f H. destruct (String.eqb_spec treeItemId key) as [<-|Hne].
    + now rewrite get_delete_eq in H.
    + rewrite get_delete_ne in H by exact Hne. now apply Hc.
  - intros groupId g' H. destruct (Hback _ _ H) as (g & Hg & ->).
    destruct (Hd _ _ Hg) as [Hid Hnd]. split; [exact Hid|].
    now apply NoDup_filter.
  - intros key. split.
    + intros H. destruct (String.eqb_spec treeItemId key) as [<-|Hne];
        [now rewrite get_delete_eq in H|].
      rewrite get_delete_ne in H by exact Hne. apply He in H.
      destruct H as (groupId & g & Hg & Hin).
      exists groupId, (Group.filters_delete treeItemId g).
      rewrite Hgroups, Hg. split; [reflexivity|].
      apply filters_delete_In. split; [exact Hin|congruence].
    + intros (groupId & g' & Hg' & Hin).
      destruct (Hback _ _ Hg') as (g & Hg & ->).
      apply filters_delete_In in Hin. destruct Hin as [Hin Hne].
      rewrite get_delete_ne by congruence. apply He. now exists groupId, g.
  - intros groupId1 group1 groupId2 group2 key H1 H2 Hin1 Hin2.
    destruct (Hback _ _ H1) as (g1 & Hg1 & ->).
    destruct (Hback _ _ H2) as (g2 & Hg2 & ->).
    apply filters_delete_In in Hin1. apply filters_delete_In in Hin2.
    exact (Hdis _ _ _ _ _ Hg1 Hg2 (proj1 Hin1) (proj1 Hin2)).
Qed.

Lemma deleteGroup_loop_wf (p0 : Project.t) (members : list string) :
  forall p w,
    JsMap.wf (Project.filters p) ->
    JsMap.wf
      (Project.filters
         (fst (fold_left
                 (fun '(p, w) key =>
                    match JsMap.get key (Project.filters p0) with
                    | Some filter =>
                        let p :=
                          Project.with_filters
                            (JsMap.delete (Filter.id filter)
                               (Project.filters p)) p in
                        let '(_, w) := Filter.dispose filter w in
                        (p, w)
                    | None => (p, w)
                    end)
                 members (p, w)))).
Proof.
  induction members as [|member members IH]; intros p w Hwf; cbn [fold_left];
    [exact Hwf|].
  destruct (JsMap.get member (Project.filters p0)) as [f|]; [|now apply IH].
  destruct (Filter.dispose f w) as [f' w']. apply IH.
  cbn [Project.filters Project.with_filters]. now apply delete_wf.
Qed.

(** The project of [deleteGroup] before the refresh. *)
Lemma deleteGroup_consistent (treeItemId : string) (group : Group.t) p p1 :
  consistent p ->
  JsMap.get treeItemId (Project.groups p) = Some group ->
  JsMap.wf (Project.filters p1) ->
  Project.groups p1 = Project.groups p ->
  (forall key,
      JsMap.get key (Project.filters p1)
      = if existsb (String.eqb key) (Group.filters group)
        then None else JsMap.get key (Project.filters p)) ->
  consistent
    (Project.with_groups (JsMap.delete treeItemId (Project.groups p1)) p1).
Proof.
  intros (Hwf & Hgwf & Hc & Hd & He & Hdis) Hgroup Hwf1 Hg1 Hget.
  assert (forall key,
             existsb (String.eqb key) (Group.filters group) = true
             <-> In key (Group.filters group)) as Hmem.
  { intros key. rewrite existsb_exists. split.
    - intros (k & Hin & Heq). apply String.eqb_eq in Heq. now subst k.
    - intros Hin. exists key. split; [exact Hin|apply String.eqb_refl]. }
  unfold consistent.
  cbn [Project.filters Project.groups Project.with_filters Project.with_groups].
  rewrite Hg1. split; [exact Hwf1|]. split; [now apply delete_wf|].
  split; [|split; [|split]].
  - intros key f H. rewrite Hget in H.
    destruct (existsb (String.eqb key) (Group.filters group));
      [discriminate|now apply Hc].
  - intros groupId g H. destruct (String.eqb_spec treeItemId groupId) as [<-|Hne].
    + now rewrite get_delete_eq in H.
    + rewrite get_delete_ne in H by exact Hne. now apply Hd.
  - intros key. rewrite Hget. split.
    + intros H.
      destruct (existsb (String.eqb key) (Group.filters group)) eqn:E;
        [congruence|].
      apply He in H. destruct H as (groupId & g & Hg & Hin).
      exists groupId, g. split; [|exact Hin].
      rewrite get_delete_ne; [exact Hg|]. intros <-.
      assert (g = group) as -> by congruence.
      apply Hmem in Hin. congruence.
    + intros (groupId & g & Hg & Hin).
      destruct (String.eqb_spec treeItemId groupId) as [<-|Hne];
        [now rewrite get_delete_eq in Hg|].
      rewrite get_delete_ne in Hg by exact Hne.
      destruct (existsb (String.eqb key) (Group.filters group)) eqn:E.
      * apply Hmem in E. exfalso. apply Hne.
        exact (Hdis _ _ _ _ _ Hgroup Hg E Hin).
      * apply He. now exists groupId, g.
  - intros groupId1 group1 groupId2 group2 key H1 H2 Hin1 Hin2.
    destruct (String.eqb_spec treeItemId groupId1) as [<-|Hne1];
      [now rewrite get_delete_eq in H1|].
    destruct (String.eqb_spec treeItemId groupId2) as [<-|Hne2];
      [now rewrite get_delete_eq in H2|].
    rewrite get_delete_ne in H1 by exact Hne1.
    rewrite get_delete_ne in H2 by exact Hne2.
    exact (Hdis _ _ _ _ _ H1 H2 Hin1 Hin2).
Qed.

(** The project of [addGroup]. *)
Lemma addGroup_consistent (group : Group.t) p :
  consistent p ->
  Group.filters group = [] ->
  JsMap.get (Group.id group) (Project.groups p) = None ->
  consistent
    (Project.with_groups
       (JsMap.set (Group.id group) group (Project.groups p)) p).
Proof.
  intros (Hwf & Hgwf & Hc & Hd & He & Hdis) Hempty Hfresh.
  unfold consistent.
  cbn [Project.filters Project.groups Project.with_filters Project.with_groups].
  split; [exact Hwf|]. split; [now apply set_wf|].
  split; [exact Hc|]. split; [|split].
  - intros groupId g H.
    destruct (String.eqb_spec (Group.id group) groupId) as [<-|Hne].
    + rewrite get_set_eq in H. injection H as <-.
      split; [reflexivity|]. rewrite Hempty. constructor.
    + rewrite get_set_ne in H by exact Hne. now apply Hd.
  - intros key. rewrite He. split.
    + intros (groupId & g & Hg & Hin). exists groupId, g.
      split; [|exact Hin]. rewrite get_set_ne; [exact Hg|]. congruence.
    + intros (groupId & g & Hg & Hin).
      destruct (String.eqb_spec (Group.id group) groupId) as [<-|Hne].
      * rewrite get_set_eq in Hg. injection Hg as <-.
        rewrite Hempty in Hin. destruct Hin.
      * rewrite get_set_ne in Hg by exact Hne. now exists groupId, g.
  - intros groupId1 group1 groupId2 group2 key H1 H2 Hin1 Hin2.
    destruct (String.eqb_spec (Group.id group) groupId1) as [<-|Hne1].
    { rewrite get_set_eq in H1. injection H1 as <-.
      rewrite Hempty in Hin1. destruct Hin1. }
    destruct (String.eqb_spec (Group.id group) groupId2) as [<-|Hne2].
    { rewrite get_set_eq in H2. injection H2 as <-.
      rewrite Hempty in Hin2. destruct Hin2. }
    rewrite get_set_ne in H1 by exact Hne1.
    rewrite get_set_ne in H2 by exact Hne2.
    exact (Hdis _ _ _ _ _ H1 H2 Hin1 Hin2).
Qed.

(** A project in which the object under [key] has been replaced by
    one with the same id. *)
Lemma replace_consistent (key : string) (f f' : Filter.t) p :
  consistent p ->
  JsMap.get key (Project.filters p) = Some f ->
  Filter.id f' = Filter.id f ->
  cache_ok f' ->
  consistent
    (Project.with_filters (JsMap.set key f' (Project.filters p)) p).
Proof.
  intros Hp Hget Hid Hok.
  apply (consistent_transfer (p := p)); try assumption;
    cbn [Project.filters Project.groups Project.with_filters]; try reflexivity.
  - eapply keys_set_present. exact Hget.
  - intros k f0 H. destruct (String.eqb_spec key k) as [<-|Hne].
    + rewrite get_set_eq in H. injection H as <-. exists f.
      split; [exact Hget|]. intros [H1 _]. split; [congruence|exact Hok].
    + rewrite get_set_ne in H by exact Hne. now exists f0.
Qed.

(** X18. The commands keep the project consistent: when every filter
    is stored under its id, with a cache that satisfies the invariant,
    and is a member of exactly one group, and every group is stored
    under its id and has filters of the project as members, each once,
    then the same holds after any command, provided the id that
    [generateId] gives to a new filter or group is not in use. *)
Theorem commands_keep_the_project_consistent (c : Command)
    (state : Commands.State) w :
  consistentState state ->
  freshId c state w ->
  consistentState (fst (run c state w)).
Proof.
  intros Hstate Hfresh. destruct state as [[p|]].
  2:{ destruct c; cbn; try exact I.
      - now destruct name as [name|]; [destruct (createGroup name w)|]. }
  unfold consistentState in Hstate. cbn [Commands.selectedProject] in Hstate.
  destruct c; cbn [run].
  - now apply refreshEditors_consistent.
  - unfold Commands.setVisibility. cbn [Commands.selectedProject].
    pose proof (@flag_command_consistent _ (Filter.set_isShown isShown)
                  (Group.with_isShown isShown) id p w
                  (set_isShown_frame isShown)
                  (fun g => conj eq_refl eq_refl) Hstate) as H.
    destruct (if String.prefix "group-" id then _ else _) as [state1 w1].
    now apply refresh_after.
  - unfold Commands.setHighlight. cbn [Commands.selectedProject].
    pose proof (@flag_command_consistent _
                  (Filter.set_isHighlighted isHighlighted)
                  (Group.with_isHighlighted isHighlighted) id p w
                  (set_isHighlighted_frame isHighlighted)
                  (fun g => conj eq_refl eq_refl) Hstate) as H.
    destruct (if String.prefix "group-" id then _ else _) as [state1 w1].
    now apply refresh_after.
  - unfold Commands.setExclude. cbn [Commands.selectedProject].
    destruct (JsMap.get id (Project.filters p)) as [f|] eqn:Eget;
      [|exact Hstate].
    assert (consistent
              (fst (Commands.invoke id (Filter.set_isExclude isExclude) p w)))
      as H.
    { pose proof (invoke_get id (Filter.set_isExclude isExclude) p w id) as Hg.
      unfold Commands.invoke, Project.call in *. rewrite Eget in *.
      rewrite String.eqb_refl in Hg.
      destruct (Filter.set_isExclude isExclude f w) as [f' w'] eqn:E.
      cbn [fst] in *.
      apply (@replace_consistent id f f' p); try assumption.
      - change f' with (fst (f', w')). rewrite <- E. reflexivity.
      - apply (cache_ok_ext (this := f)).
        + change f' with (fst (f', w')). rewrite <- E. reflexivity.
        + change f' with (fst (f', w')). rewrite <- E. reflexivity.
        + destruct Hstate as (_ & _ & Hc & _). now apply (Hc id f). }
    destruct (Commands.invoke id (Filter.set_isExclude isExclude) p w)
      as [p1 w1].
    now apply refreshEditors_consistent.
  - unfold Commands.addFilter. cbn [Commands.selectedProject].
    destruct (truthy regexStr) as [s|]; [|exact Hstate].
    destruct (JsMap.get treeItemId (Project.groups p)) as [group|] eqn:Egroup;
      [|exact Hstate].
    destruct (RegExp_new s) as [error|regex]; [exact Hstate|].
    cbn [freshId Commands.selectedProject] in Hfresh.
    pose proof (new_cache_ok regex w) as Hok.
    assert (Filter.id (fst (Filter.new regex w)) = fst (generateId "filter" w))
      as Hid.
    { unfold Filter.new. now destruct (generateId "filter" w). }
    destruct (Filter.new regex w) as [f w0]. cbn [fst] in Hok, Hid.
    rewrite <- Hid in Hfresh.
    pose proof (@addFilter_consistent treeItemId group f p Hstate Egroup
                  Hfresh Hok) as H.
    apply refreshEditors_consistent with (w := w0) in H.
    destruct (Commands.refreshEditors _ w0) as [state' w']. exact H.
  - unfold Commands.editFilter. cbn [Commands.selectedProject].
    destruct (JsMap.get treeItemId (Project.filters p)) as [f|] eqn:Eget;
      [|exact Hstate].
    destruct regexStr as [s|]; [|exact Hstate].
    destruct (String.eqb s (RegExp_source (Filter.regex f))); [exact Hstate|].
    destruct (RegExp_new s) as [error|regex]; [exact Hstate|].
    pose proof (setRegex_spec regex f w) as (Hcache & _).
    assert (Filter.id (fst (Filter.setRegex regex f w)) = Filter.id f) as Hid
      by reflexivity.
    destruct (Filter.setRegex regex f w) as [f' w0]. cbn [fst] in Hcache, Hid.
    pose proof (@replace_consistent treeItemId f f' p Hstate Eget Hid
                  (empty_cache_ok _ Hcache)) as H.
    apply refreshEditors_consistent with (w := w0) in H.
    destruct (Commands.refreshEditors _ w0) as [state' w']. exact H.
  - unfold Commands.deleteFilter. cbn [Commands.selectedProject].
    destruct (JsMap.get treeItemId (Project.filters p)) as [f|];
      [|exact Hstate].
    destruct (Filter.dispose f w) as [f' w0].
    pose proof (@deleteFilter_consistent treeItemId p Hstate) as H.
    apply refreshEditors_consistent with (w := w0) in H.
    destruct (Commands.refreshEditors _ w0) as [state' w']. exact H.
  - unfold Commands.addGroup. destruct name as [name|]; [|exact Hstate].
    cbn [freshId Commands.selectedProject] in Hfresh.
    unfold createGroup.
    destruct (generateId "group" w) as [id w0]. cbn [fst] in Hfresh.
    cbn [fst Commands.selectedProject]. unfold consistentState.
    cbn [Commands.selectedProject].
    now apply (@addGroup_consistent (Group.mk [] true true name id) p).
  - unfold Commands.editGroup. cbn [Commands.selectedProject].
    destruct (JsMap.get treeItemId (Project.groups p)) as [group|] eqn:Egroup;
      [|exact Hstate].
    destruct name as [name|]; [|exact Hstate].
    unfold consistentState. cbn [fst Commands.selectedProject].
    destruct (@view_set (Project.groups p) treeItemId group
                (Group.with_name name group) Egroup eq_refl eq_refl)
      as [Hk Hview].
    apply (consistent_transfer (p := p)); try assumption; try reflexivity.
    intros k f' H. now exists f'.
  - unfold Commands.deleteGroup. cbn [Commands.selectedProject].
    destruct (JsMap.get treeItemId (Project.groups p)) as [group|] eqn:Egroup;
      [|exact Hstate].
    assert (forall key f,
               JsMap.get key (Project.filters p) = Some f -> Filter.id f = key)
      as Hid by (intros key f H; now apply Hstate).
    destruct (deleteGroup_loop p (Group.filters group) Hid p w) as [Hg Hget].
    pose proof (deleteGroup_loop_wf p (Group.filters group) p w
                  (proj1 Hstate)) as Hwf1.
    destruct (fold_left _ (Group.filters group) (p, w)) as [p1 w1].
    cbn [fst] in Hg, Hget, Hwf1.
    assert (consistent
              (Project.with_groups
                 (JsMap.delete treeItemId (Project.groups p1)) p1)) as H.
    { apply (@deleteGroup_consistent treeItemId group p p1);
        try assumption.
      intros key. rewrite Hget.
      destruct (existsb (String.eqb key) (Group.filters group)) eqn:Emem.
      - apply existsb_exists in Emem. destruct Emem as (member & Hin & Heq).
        apply String.eqb_eq in Heq. subst member.
        destruct (JsMap.get key (Project.filters p)) as [f|] eqn:Ekey;
          [|now destruct (existsb _ _)].
        replace (existsb _ (Group.filters group)) with true; [reflexivity|].
        symmetry. apply existsb_exists. exists key. split; [exact Hin|].
        now rewrite String.eqb_refl, Ekey.
      - replace (existsb _ (Group.filters group)) with false; [reflexivity|].
        symmetry. apply not_true_is_false. intros H.
        apply existsb_exists in H. destruct H as (member & Hin & Heq).
        apply andb_true_iff in Heq. destruct Heq as [Heq _].
        assert (existsb (String.eqb key) (Group.filters group) = true);
          [|congruence].
        apply existsb_exists. now exists member. }
    apply refreshEditors_consistent with (w := w1) in H.
    destruct (Commands.refreshEditors _ w1) as [state' w']. exact H.
Qed.
End ConsistencyOfCommands.

(* ================================================================== *)
(** * What is saved *)
(* ================================================================== *)

Section Persistence.
Context {host : Host}.
Implicit Types (p : Project.t) (w : World.t) (this : Filter.t).

Lemma decorating_refl w : decorating w w.
Proof. exists []. split; [now rewrite app_nil_r|constructor]. Qed.

Lemma decorating_trans w1 w2 w3 :
  decorating w1 w2 -> decorating w2 w3 -> decorating w1 w3.
Proof.
  intros (evs & Ht & Hq) (evs' & Ht' & Hq'). exists (evs ++ evs'). split.
  - rewrite Ht', Ht. now rewrite app_assoc.
  - apply Forall_app. now split.
Qed.

Lemma decorating_emit (ev : Event) w :
  isDecoration ev = true -> decorating w (World.emit ev w).
Proof. intros H. exists [ev]. split; [reflexivity|]. now repeat constructor. Qed.

Lemma advanced_decorating w w' : advanced w w' -> decorating w w'.
Proof.
  intros (_ & _ & _ & _ & Ht). exists [].
  split; [now rewrite app_nil_r|constructor].
Qed.

Lemma applyDecorationsToEditor_decorating (editorInfo : EditorInfo.t)
    (matchedRanges : list Range) this w :
  decorating w (Filter.applyDecorationsToEditor editorInfo matchedRanges this w).
Proof.
  unfold Filter.applyDecorationsToEditor.
  destruct (negb (Filter.decoration this)); [apply decorating_refl|].
  destruct (_ && _); now apply decorating_emit.
Qed.

Lemma applyDecorationsToAllEditors_decorating this w :
  decorating w (Filter.applyDecorationsToAllEditors this w).
Proof.
  unfold Filter.applyDecorationsToAllEditors.
  generalize (JsMap.entries (Filter.activeEditors this)). intros entries.
  assert (forall w0, decorating w w0 ->
            decorating w
              (fold_left
                 (fun w1 '(uri, editorInfo) =>
                    Filter.applyDecorationsToEditor editorInfo
                      match JsMap.get uri (Filter.editorDecorations this) with
                      | Some d => d
                      | None => []
                      end this w1)
                 entries w0)) as H; [|apply H, decorating_refl].
  induction entries as [|[uri editorInfo] entries IH]; intros w0 H0;
    cbn [fold_left]; [exact H0|].
  apply IH. eapply decorating_trans; [exact H0|].
  apply applyDecorationsToEditor_decorating.
Qed.

Lemma updateDecoration_decorating this w :
  decorating w (snd (Filter.updateDecoration this w)).
Proof.
  unfold Filter.updateDecoration, Filter.createDecoration. cbn [snd].
  eapply decorating_trans; [|apply applyDecorationsToAllEditors_decorating].
  eapply decorating_trans; [|now apply decorating_emit].
  destruct (Filter.decoration this);
    [now apply decorating_emit|apply decorating_refl].
Qed.

Lemma clearProcessing_decorating (editorUri : option string) this w :
  decorating w (snd (Filter.clearProcessing editorUri this w)).
Proof.
  unfold Filter.clearProcessing.
  destruct (truthy editorUri) as [u|]; cbn [snd].
  - destruct (Filter.decoration this); [|apply decorating_refl].
    destruct (JsMap.get u (Filter.activeEditors this));
      [now apply decorating_emit|apply decorating_refl].
  - destruct (Filter.decoration this); [|apply decorating_refl].
    exists (map (fun editorInfo =>
                   SetDecorations (EditorInfo.editor editorInfo)
                     (Filter.id this) [])
              (JsMap.values (Filter.activeEditors this))).
    split; [apply clearAll_trace|].
    apply Forall_forall. intros ev Hev. apply in_map_iff in Hev.
    now destruct Hev as (editorInfo & <- & _).
Qed.

Lemma dispose_decorating this w : decorating w (snd (Filter.dispose this w)).
Proof.
  unfold Filter.dispose.
  pose proof (clearProcessing_decorating None this w) as H.
  destruct (Filter.clearProcessing None this w) as [this1 w1].
  cbn [snd] in H.
  destruct (Filter.decoration (Filter.clearCache None this1)); cbn [snd];
    [|exact H].
  eapply decorating_trans; [exact H|]. now apply decorating_emit.
Qed.

Lemma processEditor_decorating (editorInfo : EditorInfo.t) this w :
  decorating w (snd (Filter.processEditor editorInfo this w)).
Proof.
  unfold Filter.processEditor.
  set (started := if negb (Filter.decoration this)
                  then Filter.createDecoration this w else (this, w)).
  assert (decorating w (snd started)) as Hq.
  { subst started. destruct (negb _); [|apply decorating_refl].
    now apply decorating_emit. }
  destruct started as [this0 w0]. cbn [snd] in Hq.
  set (active := Filter.with_activeEditors _ this0).
  pose proof (getCachedAnalysisOrCompute_advanced editorInfo active w0) as Ha.
  destruct (Filter.getCachedAnalysisOrCompute editorInfo active w0)
    as [[cacheEntry this1] w1]. cbn [fst snd] in *.
  eapply decorating_trans; [exact Hq|].
  eapply decorating_trans; [apply advanced_decorating; exact Ha|].
  apply applyDecorationsToEditor_decorating.
Qed.

Lemma invoke_decorating key method p w :
  (forall f w0, decorating w0 (snd (method f w0))) ->
  decorating w (snd (Commands.invoke key method p w)).
Proof.
  intros Hmethod. unfold Commands.invoke, Project.call.
  destruct (JsMap.get key (Project.filters p)) as [f|];
    [|apply decorating_refl].
  specialize (Hmethod f w). destruct (method f w) as [f' w']. exact Hmethod.
Qed.

Lemma invokeEach_decorating method (keys : list string) :
  (forall f w0, decorating w0 (snd (method f w0))) ->
  forall p w, decorating w (snd (Commands.invokeEach keys method p w)).
Proof.
  intros Hmethod. unfold Commands.invokeEach.
  induction keys as [|key keys IH]; intros p w; cbn [fold_left];
    [apply decorating_refl|].
  pose proof (@invoke_decorating key method p w Hmethod) as H.
  destruct (Commands.invoke key method p w) as [p1 w1].
  eapply decorating_trans; [exact H|apply IH].
Qed.

Lemma refreshEditors_decorating (state : Commands.State) w :
  decorating w (snd (Commands.refreshEditors state w)).
Proof.
  unfold Commands.refreshEditors, Commands.applyFilterHighlights.
  destruct (Commands.selectedProject state) as [p|]; [|apply decorating_refl].
  destruct (Nat.eqb (JsMap.size (Project.filters p)) 0);
    [apply decorating_refl|].
  generalize (map (fun editor => Commands.editorInfoOf editor w)
                (World.visibleTextEditors w)).
  intros editors.
  assert (forall p0 w0,
             decorating w0
               (snd (fold_left
                       (fun '(p, w) editor =>
                          fold_left
                            (fun '(p, w) key =>
                               let '(_, p, w) :=
                                 Project.call tt key
                                   (fun filter w =>
                                      let '(filter, w) :=
                                        Filter.processEditor editor filter w in
                                      (tt, filter, w)) p w in
                               (p, w))
                            (JsMap.keys (Project.filters p)) (p, w))
                       editors (p0, w0)))) as H.
  { induction editors as [|editor editors IH]; intros p0 w0; cbn [fold_left];
      [apply decorating_refl|].
    change (fold_left _ (JsMap.keys (Project.filters p0)) (p0, w0))
      with (Commands.invokeEach (JsMap.keys (Project.filters p0))
              (Filter.processEditor editor) p0 w0).
    pose proof (@invokeEach_decorating (Filter.processEditor editor)
                  (JsMap.keys (Project.filters p0))
                  (processEditor_decorating editor) p0 w0) as H1.
    destruct (Commands.invokeEach _ (Filter.processEditor editor) p0 w0)
      as [p1 w1].
    eapply decorating_trans; [exact H1|apply IH]. }
  specialize (H p w). destruct (fold_left _ editors (p, w)) as [p' w'].
  exact H.
Qed.

Lemma decorating_not_saved w w' :
  decorating w w' ->
  exists events,
    World.trace w' = World.trace w ++ events /\ ~ In SaveSettings events.
Proof.
  intros (events & Ht & Hall). exists events. split; [exact Ht|].
  intros Hin. rewrite Forall_forall in Hall. apply Hall in Hin. discriminate.
Qed.

Lemma decorating_then_saved w w' :
  decorating w w' ->
  exists events,
    World.trace (Commands.saveSettings w')
    = World.trace w ++ events ++ [SaveSettings]
    /\ ~ In SaveSettings events.
Proof.
  intros H. destruct (decorating_not_saved H) as (events & Ht & Hnot).
  exists events. split; [|exact Hnot].
  unfold Commands.saveSettings. cbn. rewrite Ht. now rewrite app_assoc.
Qed.

Lemma flag_command_decorating
    (method : Filter.t -> World.t -> Filter.t * World.t)
    (update : Group.t -> Group.t) (id : string) (state : Commands.State) w :
  (forall f w0, decorating w0 (snd (method f w0))) ->
  decorating w
    (snd (match Commands.selectedProject state with
          | None => (state, w)
          | Some p =>
              if String.prefix "group-" id then
                match JsMap.get id (Project.groups p) with
                | Some group =>
                    let p :=
                      Project.with_groups
                        (JsMap.set id (update group) (Project.groups p)) p in
                    let '(p, w) :=
                      Commands.invokeEach (Group.filters group) method p w in
                    (Commands.mkState (Some p), w)
                | None => (state, w)
                end
              else if String.prefix "filter-" id then
                let '(p, w) := Commands.invoke id method p w in
                (Commands.mkState (Some p), w)
              else (state, w)
          end)).
Proof.
  intros Hmethod.
  destruct (Commands.selectedProject state) as [p|]; [|apply decorating_refl].
  destruct (String.prefix "group-" id).
  - destruct (JsMap.get id (Project.groups p)) as [group|];
      [|apply decorating_refl].
    pose proof (@invokeEach_decorating method (Group.filters group) Hmethod
                  (Project.with_groups
                     (JsMap.set id (update group) (Project.groups p)) p) w)
      as H.
    cbv zeta. destruct (Commands.invokeEach _ method _ w) as [p1 w1]. exact H.
  - destruct (String.prefix "filter-" id); [|apply decorating_refl].
    pose proof (@invoke_decorating id method p w Hmethod) as H.
    destruct (Commands.invoke id method p w) as [p1 w1]. exact H.
Qed.

Lemma unchanged_not_saved (state : Commands.State) w :
  state = state
  /\ exists events,
       World.trace w = World.trace w ++ events /\ ~ In SaveSettings events.
Proof.
  split; [reflexivity|]. exists []. split; [now rewrite app_nil_r|intros []].
Qed.

Lemma generateId_trace (category : string) w :
  World.trace (snd (generateId category w)) = World.trace w.
Proof. reflexivity. Qed.

(** When a command returns: a command that adds, edits or deletes a
    filter or a group has either left the state as it is and not
    saved, or saved the settings once, as the last thing before it
    returns; the other commands have not saved. *)
Lemma commands_save_before_they_return (c : Command)
    (state : Commands.State) w :
  let '(state', w') := run c state w in
  if structural c then
    (state' = state
     /\ exists events,
          World.trace w' = World.trace w ++ events
          /\ ~ In SaveSettings events)
    \/ exists events,
         World.trace w' = World.trace w ++ events ++ [SaveSettings]
         /\ ~ In SaveSettings events
  else
    exists events,
      World.trace w' = World.trace w ++ events /\ ~ In SaveSettings events.
Proof.
  destruct c; cbn [run structural].
  - pose proof (refreshEditors_decorating state w) as H.
    destruct (Commands.refreshEditors state w) as [state' w'].
    now apply decorating_not_saved.
  - unfold Commands.setVisibility.
    pose proof (@flag_command_decorating (Filter.set_isShown isShown)
                  (Group.with_isShown isShown) id state w
                  (fun f w0 => applyDecorationsToAllEditors_decorating _ w0))
      as H.
    destruct (match Commands.selectedProject state with
              | None => _ | Some p => _ end) as [state1 w1].
    pose proof (refreshEditors_decorating state1 w1) as H1.
    destruct (Commands.refreshEditors state1 w1) as [state' w'].
    apply decorating_not_saved. eapply decorating_trans; eassumption.
  - unfold Commands.setHighlight.
    pose proof (@flag_command_decorating
                  (Filter.set_isHighlighted isHighlighted)
                  (Group.with_isHighlighted isHighlighted) id state w
                  (fun f w0 => updateDecoration_decorating _ w0)) as H.
    destruct (match Commands.selectedProject state with
              | None => _ | Some p => _ end) as [state1 w1].
    pose proof (refreshEditors_decorating state1 w1) as H1.
    destruct (Commands.refreshEditors state1 w1) as [state' w'].
    apply decorating_not_saved. eapply decorating_trans; eassumption.
  - unfold Commands.setExclude.
    destruct (Commands.selectedProject state) as [p|];
      [|apply decorating_not_saved, decorating_refl].
    destruct (JsMap.get id (Project.filters p));
      [|apply decorating_not_saved, decorating_refl].
    pose proof (@invoke_decorating id (Filter.set_isExclude isExclude) p w
                  (fun f w0 => updateDecoration_decorating _ w0)) as H.
    destruct (Commands.invoke id (Filter.set_isExclude isExclude) p w)
      as [p1 w1].
    pose proof (refreshEditors_decorating (Commands.mkState (Some p1)) w1)
      as H1.
    destruct (Commands.refreshEditors _ w1) as [state' w'].
    apply decorating_not_saved. eapply decorating_trans; eassumption.
  - unfold Commands.addFilter.
    destruct (Commands.selectedProject state) as [p|];
      [|left; apply unchanged_not_saved].
    destruct (truthy regexStr) as [s|]; [|left; apply unchanged_not_saved].
    destruct (JsMap.get treeItemId (Project.groups p)) as [group|];
      [|left; apply unchanged_not_saved].
    destruct (RegExp_new s) as [error|regex]; [left; apply unchanged_not_saved|].
    assert (World.trace (snd (Filter.new regex w)) = World.trace w) as Hnew
      by reflexivity.
    destruct (Filter.new regex w) as [f w0]. cbn [snd] in Hnew.
    set (state1 := Commands.mkState _).
    pose proof (refreshEditors_decorating state1 w0) as H1.
    destruct (Commands.refreshEditors state1 w0) as [state' w'].
    right. rewrite <- Hnew. now apply decorating_then_saved.
  - unfold Commands.editFilter.
    destruct (Commands.selectedProject state) as [p|];
      [|left; apply unchanged_not_saved].
    destruct (JsMap.get treeItemId (Project.filters p)) as [f|];
      [|left; apply unchanged_not_saved].
    destruct regexStr as [s|]; [|left; apply unchanged_not_saved].
    destruct (String.eqb s (RegExp_source (Filter.regex f)));
      [left; apply unchanged_not_saved|].
    destruct (RegExp_new s) as [error|regex].
    + left. split; [reflexivity|].
      exists [ShowErrorMessage ("Invalid Regex: " ++ error)].
      split; [reflexivity|]. intros [H|[]]. discriminate.
    + pose proof (updateDecoration_decorating
                    (Filter.clearCache None
                       (Filter.with_regexVersion
                          (S (Filter.regexVersion (Filter.with_regex regex f)))
                          (Filter.with_regex regex f))) w) as H.
      change (Filter.updateDecoration _ w) with (Filter.setRegex regex f w)
        in H.
      destruct (Filter.setRegex regex f w) as [f' w0]. cbn [snd] in H.
      set (state1 := Commands.mkState _).
      pose proof (refreshEditors_decorating state1 w0) as H1.
      destruct (Commands.refreshEditors state1 w0) as [state' w'].
      right. apply decorating_then_saved.
      eapply decorating_trans; eassumption.
  - unfold Commands.deleteFilter.
    destruct (Commands.selectedProject state) as [p|];
      [|left; apply unchanged_not_saved].
    destruct (JsMap.get treeItemId (Project.filters p)) as [f|];
      [|left; apply unchanged_not_saved].
    pose proof (dispose_decorating f w) as H.
    destruct (Filter.dispose f w) as [f' w0]. cbn [snd] in H.
    set (state1 := Commands.mkState _).
    pose proof (refreshEditors_decorating state1 w0) as H1.
    destruct (Commands.refreshEditors state1 w0) as [state' w'].
    right. apply decorating_then_saved. eapply decorating_trans; eassumption.
  - unfold Commands.addGroup. destruct name as [name|];
      [|left; apply unchanged_not_saved].
    unfold createGroup.
    pose proof (generateId_trace "group" w) as Hid.
    destruct (generateId "group" w) as [id w0]. cbn [snd] in Hid.
    right. rewrite <- Hid. unfold Commands.updateFilterTreeView.
    destruct state as [[p|]]; cbn [Commands.selectedProject].
    + exists [UpdateFilterTreeView]. split.
      * unfold Commands.saveSettings. cbn. now rewrite <- app_assoc.
      * intros [H|[]]. discriminate.
    + exists []. split; [reflexivity|intros []].
  - unfold Commands.editGroup.
    destruct (Commands.selectedProject state) as [p|];
      [|left; apply unchanged_not_saved].
    destruct (JsMap.get treeItemId (Project.groups p)) as [group|];
      [|left; apply unchanged_not_saved].
    destruct name as [name|]; [|left; apply unchanged_not_saved].
    right. exists [UpdateFilterTreeView]. split.
    + unfold Commands.saveSettings, Commands.updateFilterTreeView. cbn.
      now rewrite <- app_assoc.
    + intros [H|[]]. discriminate.
  - unfold Commands.deleteGroup.
    destruct (Commands.selectedProject state) as [p|];
      [|left; apply unchanged_not_saved].
    destruct (JsMap.get treeItemId (Project.groups p)) as [group|];
      [|left; apply unchanged_not_saved].
    assert (forall members p0 w0,
               decorating w0
                 (snd (fold_left
                         (fun '(p1, w1) key =>
                            match JsMap.get key (Project.filters p) with
                            | Some filter =>
                                let p2 :=
                                  Project.with_filters
                                    (JsMap.delete (Filter.id filter)
                                       (Project.filters p1)) p1 in
                                let '(_, w2) := Filter.dispose filter w1 in
                                (p2, w2)
                            | None => (p1, w1)
                            end)
                         members (p0, w0)))) as Hloop.
    { induction members as [|member members IH]; intros p0 w0;
        cbn [fold_left]; [apply decorating_refl|].
      destruct (JsMap.get member (Project.filters p)) as [f|]; [|apply IH].
      pose proof (dispose_decorating f w0) as H.
      destruct (Filter.dispose f w0) as [f' w1].
      eapply decorating_trans; [exact H|apply IH]. }
    specialize (Hloop (Group.filters group) p w).
    destruct (fold_left _ (Group.filters group) (p, w)) as [p1 w1].
    cbn [snd] in Hloop.
    set (state1 := Commands.mkState _).
    pose proof (refreshEditors_decorating state1 w1) as H1.
    destruct (Commands.refreshEditors state1 w1) as [state' w'].
    right. apply decorating_then_saved. eapply decorating_trans; eassumption.
Qed.

Lemma fromRefresh_nil : fromRefresh [].
Proof. intros callback []. Qed.

(** The functions of [EventLoop] are those of [Commands]: they leave
    the same state and the same world, and the callbacks that they
    leave are callbacks of [refreshEditors]. *)
Lemma refreshEditors_scheduled (state : Commands.State) w :
  exists callbacks,
    EventLoop.refreshEditors state w
    = (Commands.refreshEditors state w, callbacks)
    /\ fromRefresh callbacks.
Proof.
  unfold EventLoop.refreshEditors, Commands.refreshEditors.
  destruct (Commands.selectedProject state) as [p|];
    [|exists []; split; [reflexivity|apply fromRefresh_nil]].
  destruct (Nat.eqb (JsMap.size (Project.filters p)) 0);
    [exists []; split; [reflexivity|apply fromRefresh_nil]|].
  cbv zeta.
  destruct (Commands.applyFilterHighlights _ p w) as [p1 w1].
  eexists. split; [reflexivity|].
  intros callback [<-|[]]. eexists. reflexivity.
Qed.

Lemma scheduled_run (c : Command) (state : Commands.State) w :
  exists callbacks,
    scheduled c state w = (run c state w, callbacks)
    /\ fromRefresh callbacks.
Proof.
  assert (forall result : Commands.State * World.t,
             exists callbacks : list EventLoop.Callback,
               (result, @nil EventLoop.Callback) = (result, callbacks)
               /\ fromRefresh callbacks) as Hnone.
  { intros result. exists []. split; [reflexivity|apply fromRefresh_nil]. }
  destruct c; cbn [scheduled run].
  - apply refreshEditors_scheduled.
  - unfold EventLoop.setVisibility, Commands.setVisibility.
    destruct (match Commands.selectedProject state with
              | None => _ | Some p => _ end) as [state1 w1].
    apply refreshEditors_scheduled.
  - unfold EventLoop.setHighlight, Commands.setHighlight.
    destruct (match Commands.selectedProject state with
              | None => _ | Some p => _ end) as [state1 w1].
    apply refreshEditors_scheduled.
  - unfold EventLoop.setExclude, Commands.setExclude.
    destruct (Commands.selectedProject state) as [p|]; [|apply Hnone].
    destruct (JsMap.get id (Project.filters p)); [|apply Hnone].
    destruct (Commands.invoke id (Filter.set_isExclude isExclude) p w)
      as [p1 w1].
    apply refreshEditors_scheduled.
  - unfold EventLoop.addFilter, Commands.addFilter.
    destruct (Commands.selectedProject state) as [p|]; [|apply Hnone].
    destruct (truthy regexStr) as [s|]; [|apply Hnone].
    destruct (JsMap.get treeItemId (Project.groups p)) as [group|];
      [|apply Hnone].
    destruct (RegExp_new s) as [error|regex]; [apply Hnone|].
    destruct (Filter.new regex w) as [f w0].
    set (state1 := Commands.mkState _).
    destruct (refreshEditors_scheduled state1 w0) as (callbacks & -> & H).
    destruct (Commands.refreshEditors state1 w0) as [state' w'].
    exists callbacks. now split.
  - unfold EventLoop.editFilter, Commands.editFilter.
    destruct (Commands.selectedProject state) as [p|]; [|apply Hnone].
    destruct (JsMap.get treeItemId (Project.filters p)) as [f|];
      [|apply Hnone].
    destruct regexStr as [s|]; [|apply Hnone].
    destruct (String.eqb s (RegExp_source (Filter.regex f))); [apply Hnone|].
    destruct (RegExp_new s) as [error|regex]; [apply Hnone|].
    destruct (Filter.setRegex regex f w) as [f' w0].
    set (state1 := Commands.mkState _).
    destruct (refreshEditors_scheduled state1 w0) as (callbacks & -> & H).
    destruct (Commands.refreshEditors state1 w0) as [state' w'].
    exists callbacks. now split.
  - unfold EventLoop.deleteFilter, Commands.deleteFilter.
    destruct (Commands.selectedProject state) as [p|]; [|apply Hnone].
    destruct (JsMap.get treeItemId (Project.filters p)) as [f|];
      [|apply Hnone].
    destruct (Filter.dispose f w) as [f' w0].
    set (state1 := Commands.mkState _).
    destruct (refreshEditors_scheduled state1 w0) as (callbacks & -> & H).
    destruct (Commands.refreshEditors state1 w0) as [state' w'].
    exists callbacks. now split.
  - apply Hnone.
  - apply Hnone.
  - unfold EventLoop.deleteGroup, Commands.deleteGroup.
    destruct (Commands.selectedProject state) as [p|]; [|apply Hnone].
    destruct (JsMap.get treeItemId (Project.groups p)) as [group|];
      [|apply Hnone].
    destruct (fold_left _ (Group.filters group) (p, w)) as [p1 w1].
    set (state1 := Commands.mkState _).
    destruct (refreshEditors_scheduled state1 w1) as (callbacks & -> & H).
    destruct (Commands.refreshEditors state1 w1) as [state' w'].
    exists callbacks. now split.
Qed.

Lemma refreshFocusModeEditors_trace (editors : list EditorInfo.t) :
  forall w,
    exists events,
      World.trace (EventLoop.refreshFocusModeEditors editors w)
      = World.trace w ++ events
      /\ ofViews events.
Proof.
  unfold EventLoop.refreshFocusModeEditors.
  induction editors as [|editorInfo editors IH]; intros w; cbn [fold_left].
  - exists []. split; [now rewrite app_nil_r|constructor].
  - destruct (EditorMetaData.isFocusMode (EditorInfo.metaData editorInfo)).
    + destruct (IH (World.emit (Refresh (EditorInfo.editor editorInfo)) w))
        as (events & -> & Hev).
      exists (Refresh (EditorInfo.editor editorInfo) :: events). split.
      * cbn [World.emit World.trace]. now rewrite <- app_assoc.
      * constructor; [right; eexists; reflexivity|exact Hev].
    + apply IH.
Qed.

Lemma refreshEditorsThen_trace (editorInfos : list EditorInfo.t)
    (state : Commands.State) w :
  exists events,
    World.trace (EventLoop.refreshEditorsThen editorInfos state w)
    = World.trace w ++ events
    /\ ofViews events.
Proof.
  unfold EventLoop.refreshEditorsThen, Commands.updateFilterTreeView.
  destruct (refreshFocusModeEditors_trace editorInfos w)
    as (events & Htrace & Hev).
  destruct (Commands.selectedProject state).
  - exists (events ++ [UpdateFilterTreeView]). split.
    + cbn [World.emit World.trace]. rewrite Htrace. now rewrite <- app_assoc.
    + apply Forall_app. split; [exact Hev|]. constructor; [now left|constructor].
  - exists events. now split.
Qed.

Lemma settle_trace (callbacks : list EventLoop.Callback)
    (state : Commands.State) :
  fromRefresh callbacks ->
  forall w,
    exists events,
      World.trace (EventLoop.settle callbacks state w) = World.trace w ++ events
      /\ ofViews events.
Proof.
  unfold EventLoop.settle.
  induction callbacks as [|callback callbacks IH]; intros Hfrom w;
    cbn [fold_left].
  - exists []. split; [now rewrite app_nil_r|constructor].
  - destruct (Hfrom callback) as (editorInfos & ->); [now left|].
    destruct (refreshEditorsThen_trace editorInfos state w)
      as (events1 & H1 & Hev1).
    destruct (IH (fun cb Hcb => Hfrom cb (or_intror Hcb))
                (EventLoop.refreshEditorsThen editorInfos state w))
      as (events2 & H2 & Hev2).
    exists (events1 ++ events2). split.
    + rewrite H2, H1. now rewrite <- app_assoc.
    + apply Forall_app. now split.
Qed.

(** X19. What the settings store is saved, what they do not store is
    not.  When a command that adds, edits or deletes a filter or a
    group returns, it has either left the state as it is and not
    saved, or saved the settings once, as the last thing before it
    returns; [setVisibility], [setHighlight], [setExclude] and
    [refreshEditors] have not saved when they return.  What the
    command has left to the event loop, the callback of its
    [refreshEditors], runs after the return and so after the save: it
    refreshes focus documents and updates the tree of the filters,
    and it does not save.  The state and the world at the return are
    those of [run]. *)
Theorem structural_commands_save_settings (c : Command) (state : Commands.State) w :
  let '(state', w', callbacks) := scheduled c state w in
  (state', w') = run c state w
  /\ (if structural c then
        (state' = state
         /\ exists events,
              World.trace w' = World.trace w ++ events
              /\ ~ In SaveSettings events)
        \/ exists events,
             World.trace w' = World.trace w ++ events ++ [SaveSettings]
             /\ ~ In SaveSettings events
      else
        exists events,
          World.trace w' = World.trace w ++ events /\ ~ In SaveSettings events)
  /\ exists later,
       World.trace (EventLoop.settle callbacks state' w')
       = World.trace w' ++ later
       /\ Forall (fun ev =>
                    ev = UpdateFilterTreeView \/ exists editor, ev = Refresh editor)
            later.
Proof.
  destruct (scheduled_run c state w) as (callbacks & -> & Hfrom).
  pose proof (commands_save_before_they_return c state w) as Hsaved.
  destruct (run c state w) as [state' w'].
  split; [reflexivity|]. split; [exact Hsaved|].
  now apply settle_trace.
Qed.
End Persistence.
(* ================================================================== *)
(** * Worked examples *)
(* ================================================================== *)

(** The compositions of section 8 of the specification. *)
Example composition_mixed :
  fst (fst (FocusProvider.getVisibleLines Example.uri Example.document
              Example.mixed Example.world)) = [1].
Proof. vm_compute. reflexivity. Qed.

Example composition_include_only :
  fst (fst (FocusProvider.getVisibleLines Example.uri Example.document
              Example.includeOnly Example.world)) = [1; 2].
Proof. vm_compute. reflexivity. Qed.

Example composition_exclude_only :
  fst (fst (FocusProvider.getVisibleLines Example.uri Example.document
              Example.excludeOnly Example.world)) = [0; 3].
Proof. vm_compute. reflexivity. Qed.

Example composition_nothing_shown :
  fst (fst (FocusProvider.getVisibleLines Example.uri Example.document
              Example.hidden Example.world)) = [0; 1; 2; 3]
  /\ fst (fst (FocusProvider.getVisibleLines (host := ToyHost.host) Example.uri
                 Example.document None Example.world)) = [0; 1; 2; 3].
Proof. split; vm_compute; reflexivity. Qed.

(** The filters answer the lines 1 and 2 of the document they have
    analysed; the document that is rendered has lost line 2, and the
    focus text has the header and line 1 only. *)
Example stale_lines_are_skipped :
  fst (fst (FocusProvider.getVisibleLines Example.uri Example.shrunk
              Example.includeOnly Example.world)) = [1; 2]
  /\ fst (fst (FocusProvider.generateFilteredContent Example.uri Example.shrunk
                 Example.includeOnly Example.world))
     = Some (Example.nl ++ "a b")%string.
Proof. split; vm_compute; reflexivity. Qed.

(** The large-file cap of section 8: ten thousand matching lines give
    ten thousand line numbers and five hundred ranges. *)
Example large_file_cap :
  let e :=
    fst (Filter.computeOptimizedAnalysis Example.largeEditorInfo
           (Example.filter "f" "e" false)
           (ToyHost.world Example.manyLines)) in
  length (EditorCacheEntry.matchedLineNumbers e) = 100 * 100
  /\ EditorCacheEntry.count e = 100 * 100
  /\ length (EditorCacheEntry.matchedRanges e) = 500.
Proof. vm_compute. repeat split. Qed.

(** The eviction on eleven entries removes the oldest one. *)
Example eviction_drops_oldest :
  map fst (Filter.editorCache (Filter.enforceMaxCacheSize Example.crowded))
  = ["11"; "10"; "9"; "8"; "7"; "6"; "5"; "4"; "3"; "2"]%string.
Proof. vm_compute. reflexivity. Qed.

(* ================================================================== *)
(** * The theorems at concrete inputs *)
(* ================================================================== *)

Section Witnesses.
Local Existing Instance ToyHost.host.

Lemma example_filter_cache_ok (id pattern : string) (exclude : bool) :
  cache_ok (Example.filter id pattern exclude).
Proof.
  unfold Example.filter. apply processEditor_cache_ok.
  apply empty_cache_ok. reflexivity.
Qed.

(** C1 on the mixed composition: a positive filter on line 1 and an
    exclude filter on the lines 1 and 2. *)
Lemma getVisibleLines_positive_witness :
  (exists key f,
      In (key, f) (filtersOf Example.mixed)
      /\ Filter.isShown f = true /\ Filter.isExclude f = false)
  /\ (let positiveFilters :=
        keysWhere (fun f => Filter.isShown f && negb (Filter.isExclude f))
          Example.mixed in
      let '(matched, this1, w1) :=
        matchedLinesOfEach Example.uri positiveFilters Example.mixed
          Example.world in
      let '(visibleLines, this2, w2) :=
        FocusProvider.getVisibleLines Example.uri Example.document
          Example.mixed Example.world in
      StronglySorted lt visibleLines
      /\ (forall n, In n visibleLines
                    <-> exists lineNumbers,
                          In lineNumbers matched /\ In n lineNumbers)
      /\ this2 = this1 /\ w2 = w1).
Proof.
  assert (exists key f,
             In (key, f) (filtersOf Example.mixed)
             /\ Filter.isShown f = true /\ Filter.isExclude f = false) as H.
  { exists "f1"%string, (Example.filter "f1" "a" false).
    split; [now left|]. split; reflexivity. }
  split; [exact H|].
  exact (getVisibleLines_positive Example.uri Example.document Example.mixed
           Example.world H).
Defined.

(** C2 on the project whose only shown filter excludes. *)
Lemma getVisibleLines_exclude_only_witness :
  (forall key f,
      In (key, f) (filtersOf Example.excludeOnly) ->
      Filter.isShown f = true -> Filter.isExclude f = true)
  /\ (let excludeFilters :=
        keysWhere (fun f => Filter.isShown f && Filter.isExclude f)
          Example.excludeOnly in
      let '(excluded, this1, w1) :=
        matchedLinesOfEach Example.uri excludeFilters Example.excludeOnly
          Example.world in
      let '(visibleLines, this2, w2) :=
        FocusProvider.getVisibleLines Example.uri Example.document
          Example.excludeOnly Example.world in
      StronglySorted lt visibleLines
      /\ (forall n, In n visibleLines
                    <-> n < TextDocument.lineCount Example.document
                        /\ forall lineNumbers,
                             In lineNumbers excluded -> ~ In n lineNumbers)
      /\ ((forall key f,
              In (key, f) (filtersOf Example.excludeOnly) ->
              Filter.isShown f = false) ->
          visibleLines = seq 0 (TextDocument.lineCount Example.document))
      /\ this2 = this1 /\ w2 = w1).
Proof.
  assert (forall key f,
             In (key, f) (filtersOf Example.excludeOnly) ->
             Filter.isShown f = true -> Filter.isExclude f = true) as H.
  { intros key f [Hin|[]] _. injection Hin as _ <-. reflexivity. }
  split; [exact H|].
  exact (getVisibleLines_exclude_only Example.uri Example.document
           Example.excludeOnly Example.world H).
Defined.

(** C3 on the filter for "a", asked again one reading after its
    analysis. *)
Lemma cache_hit_returns_stored_witness :
  let this := Example.filter "f1"%string "a"%string false in
  let w := Example.world in
  cache_ok this
  /\ JsMap.get Example.uri (Filter.editorCache this) = Some Example.entry
  /\ fingerprintOf Example.document Example.entry
  /\ (clock (World.tick w) <= clock (S (World.tick w)))%Z
  /\ (clock (S (World.tick w)) - EditorCacheEntry.lastAnalyzed Example.entry
      <= maxAgeOf false)%Z
  /\ (let '(result, this', w') :=
        Filter.getCachedAnalysisOrCompute Example.editorInfo this w in
      result = Example.entry
      /\ JsMap.get Example.uri (Filter.editorCache this') = Some Example.entry
      /\ World.tests w' = World.tests w
      /\ exists scanned,
           md5 scanned = md5 Example.text
           /\ byteLength scanned = byteLength Example.text
           /\ EditorCacheEntry.matchedLineNumbers Example.entry
              = matchingLines (Filter.regex this) scanned
           /\ (scanned = Example.text ->
               EditorCacheEntry.matchedLineNumbers Example.entry
               = EditorCacheEntry.matchedLineNumbers
                   (fst (Filter.computeAnalysis Example.editorInfo this w))
               /\ EditorCacheEntry.matchedLineNumbers Example.entry
                  = EditorCacheEntry.matchedLineNumbers
                      (fst (Filter.computeOptimizedAnalysis
                              Example.editorInfo this w)))).
Proof.
  cbv zeta.
  assert (cache_ok (Example.filter "f1"%string "a"%string false)) as Hok
    by apply example_filter_cache_ok.
  assert (JsMap.get Example.uri
            (Filter.editorCache (Example.filter "f1"%string "a"%string false))
          = Some Example.entry) as Hget by (vm_compute; reflexivity).
  assert (fingerprintOf Example.document Example.entry) as Hfp
    by (repeat split).
  assert (clock (World.tick Example.world)
          <= clock (S (World.tick Example.world)))%Z as Hmono
    by (vm_compute; discriminate).
  assert (clock (S (World.tick Example.world))
          - EditorCacheEntry.lastAnalyzed Example.entry
          <= maxAgeOf false)%Z as Hage
    by (vm_compute; discriminate).
  split; [exact Hok|]. split; [exact Hget|]. split; [exact Hfp|].
  split; [exact Hmono|]. split; [exact Hage|].
  exact (cache_hit_returns_stored Example.editorInfo Example.world
           Hok Hget Hfp Hmono Hage).
Defined.

(** C5 as stated fails.  The entry of a large file, two hundred
    seconds old and so beyond the half TTL, is still in the cache after
    a call for another document: the sweep removes at the whole TTL
    only. *)
Lemma sweep_keeps_large_entry :
  let '(captured, this1, _) :=
    Filter.getCachedAnalysisOrCompute Example.largeEditorInfo
      (fst (Filter.new ("a"%string : RegExp) Example.world))
      Example.world in
  let '(_, this2, _) :=
    Filter.getCachedAnalysisOrCompute Example.otherEditorInfo this1
      Example.laterWorld in
  EditorMetaData.isLargeFile (EditorInfo.metaData Example.largeEditorInfo) = true
  /\ (clock (World.tick Example.laterWorld)
      - EditorCacheEntry.lastAnalyzed captured
      = 200000)%Z
  /\ (Filter.cacheMaxAge / 2
      < clock (World.tick Example.laterWorld)
        - EditorCacheEntry.lastAnalyzed captured)%Z
  /\ JsMap.get Example.uri (Filter.editorCache this2) = Some captured.
Proof. vm_compute. repeat split. Qed.

(** C5 as the code has it, on the same call. *)
Lemma sweep_removes_expired_witness :
  let this :=
    snd (fst (Filter.getCachedAnalysisOrCompute Example.largeEditorInfo
                (fst (Filter.new ("a"%string : RegExp) Example.world))
                Example.world)) in
  let w := Example.laterWorld in
  let editorInfo := Example.otherEditorInfo in
  JsMap.wf (Filter.editorCache this)
  /\ (let document := World.document (EditorInfo.editor editorInfo) w in
      let isLargeFile :=
        EditorMetaData.isLargeFile (EditorInfo.metaData editorInfo) in
      let now := clock (World.tick w) in
      let swept := fst (Filter.cleanupExpiredCache this w) in
      let '(result, this', w') :=
        Filter.getCachedAnalysisOrCompute editorInfo this w in
      (forall uri e,
          JsMap.get uri (Filter.editorCache swept) = Some e
          <-> JsMap.get uri (Filter.editorCache this) = Some e
              /\ (now - EditorCacheEntry.lastAnalyzed e
                  <= Filter.cacheMaxAge)%Z)
      /\ (forall uri e,
             uri <> TextDocument.uri document ->
             JsMap.get uri (Filter.editorCache this') = Some e ->
             JsMap.get uri (Filter.editorCache this) = Some e
             /\ (now - EditorCacheEntry.lastAnalyzed e
                 <= Filter.cacheMaxAge)%Z)
      /\ (forall e,
             JsMap.get (TextDocument.uri document) (Filter.editorCache this)
             = Some e ->
             (maxAgeOf isLargeFile
              < clock (S (World.tick w)) - EditorCacheEntry.lastAnalyzed e)%Z ->
             World.tests w'
             = length (split_newline (TextDocument.getText document))
               + World.tests w)).
Proof.
  cbv zeta.
  assert (JsMap.wf
            (Filter.editorCache
               (snd (fst (Filter.getCachedAnalysisOrCompute
                            Example.largeEditorInfo
                            (fst (Filter.new ("a"%string : RegExp)
                                    Example.world))
                            Example.world))))) as Hwf.
  { apply getCachedAnalysisOrCompute_cache_ok, new_cache_ok. }
  split; [exact Hwf|].
  exact (@sweep_removes_expired _ Example.otherEditorInfo _ Example.laterWorld
           Hwf).
Defined.


(** C9 on the pattern "(" of the small host. *)
Lemma invalid_pattern_rejected_witness :
  let error :=
    "SyntaxError: Invalid regular expression: /(/: Unterminated group"%string in
  RegExp_new "("%string = inl error
  /\ (forall p filter,
         Commands.selectedProject Example.state = Some p ->
         JsMap.get "f1"%string (Project.filters p) = Some filter ->
         exists regex,
           RegExp_new (RegExp_source (Filter.regex filter))
           = inr regex)
  /\ (exists regex, RegExp_new EmptyString = inr regex)
  /\ ((forall p filter,
          Commands.selectedProject Example.state = Some p ->
          JsMap.get "f1"%string (Project.filters p) = Some filter ->
          Commands.editFilter "f1"%string (Some "("%string) Example.state Example.world
          = (Commands.Returned, Example.state,
             World.emit (ShowErrorMessage ("Invalid Regex: " ++ error)%string)
               Example.world))
      /\ (forall p group,
             Commands.selectedProject Example.state = Some p ->
             JsMap.get "group-1"%string (Project.groups p) = Some group ->
             Commands.addFilter "group-1"%string (Some "("%string) Example.state
               Example.world
             = (Commands.Thrown error, Example.state, Example.world))
      /\ snd (fst (Commands.editFilter "f1"%string (Some "("%string) Example.state
                     Example.world)) = Example.state
      /\ snd (fst (Commands.addFilter "group-1"%string (Some "("%string) Example.state
                     Example.world)) = Example.state).
Proof.
  cbv zeta.
  assert (RegExp_new "("%string
          = inl "SyntaxError: Invalid regular expression: /(/: Unterminated group"%string)
    as Hbad by reflexivity.
  assert (forall p filter,
             Commands.selectedProject Example.state = Some p ->
             JsMap.get "f1"%string (Project.filters p) = Some filter ->
             exists regex,
               RegExp_new (RegExp_source (Filter.regex filter))
               = inr regex) as Hsource.
  { intros p filter Hp Hf. injection Hp as <-. vm_compute in Hf.
    injection Hf as <-. eexists. reflexivity. }
  assert (exists regex, RegExp_new EmptyString = inr regex)
    as Hempty by (eexists; reflexivity).
  split; [exact Hbad|]. split; [exact Hsource|]. split; [exact Hempty|].
  exact (@invalid_pattern_rejected _ _ _ "f1"%string "group-1"%string
           Example.state Example.world Hbad Hsource Hempty).
Defined.

(** X1 on the filter for "a" and a second document. *)
Lemma returned_entry_is_stored_witness :
  let this := Example.filter "f1"%string "a"%string false in
  let w := Example.laterWorld in
  let editorInfo := Example.otherEditorInfo in
  cache_ok this
  /\ (forall i j, i <= j -> (clock i <= clock j)%Z)
  /\ (forall uri e,
         JsMap.get uri (Filter.editorCache this) = Some e ->
         (EditorCacheEntry.lastAnalyzed e <= clock (World.tick w))%Z)
  /\ (let document := World.document (EditorInfo.editor editorInfo) w in
      let '(result, this', w') :=
        Filter.getCachedAnalysisOrCompute editorInfo this w in
      JsMap.get (TextDocument.uri document) (Filter.editorCache this')
      = Some result).
Proof.
  cbv zeta.
  assert (cache_ok (Example.filter "f1"%string "a"%string false)) as Hok
    by apply example_filter_cache_ok.
  assert (forall i j, i <= j -> (clock i <= clock j)%Z) as Hmono
    by (intros i j Hij;
        change (1000 * Z.of_nat i <= 1000 * Z.of_nat j)%Z; lia).
  assert (forall uri e,
             JsMap.get uri
               (Filter.editorCache (Example.filter "f1"%string "a"%string false))
             = Some e ->
             (EditorCacheEntry.lastAnalyzed e
              <= clock (World.tick Example.laterWorld))%Z) as Hpast.
  { intros uri e H. apply get_In in H. vm_compute in H.
    destruct H as [H|[]]. injection H as <- <-. vm_compute. discriminate. }
  split; [exact Hok|]. split; [exact Hmono|]. split; [exact Hpast|].
  exact (@returned_entry_is_stored _ Example.otherEditorInfo _
           Example.laterWorld Hok Hmono Hpast).
Defined.

(** X2 on a new filter. *)
Lemma reachable_cache_ok_witness :
  reachable (fst (Filter.new ("a"%string : RegExp) Example.world))
  /\ cache_ok (fst (Filter.new ("a"%string : RegExp) Example.world)).
Proof.
  assert (reachable (fst (Filter.new ("a"%string : RegExp) Example.world)))
    as H by apply reach_new.
  split; [exact H|]. exact (reachable_cache_ok H).
Defined.

Lemma answers_are_fresh_scans_witness :
  Filter.editorCache Sample.fresh = []
  /\ Forall (fun q => versioned Sample.content (queryWorld q))
       [Process Example.editorInfo Example.world]
  /\ versioned Sample.content Example.world
  /\ EditorCacheEntry.matchedLineNumbers
       (fst (fst (Filter.getCachedAnalysisOrCompute Example.editorInfo
                    (fold_left afterQuery
                       [Process Example.editorInfo Example.world] Sample.fresh)
                    Example.world)))
     = matchingLines (Filter.regex Sample.fresh)
         (TextDocument.getText
            (World.document (EditorInfo.editor Example.editorInfo)
               Example.world)).
Proof.
  assert (Filter.editorCache Sample.fresh = []) as Hempty by reflexivity.
  assert (versioned Sample.content Example.world) as Hv
    by (intros editor; reflexivity).
  assert (Forall (fun q => versioned Sample.content (queryWorld q))
            [Process Example.editorInfo Example.world]) as Hall
    by (repeat constructor; exact Hv).
  split; [exact Hempty|]. split; [exact Hall|]. split; [exact Hv|].
  exact (proj1 (@answers_are_fresh_scans _ Sample.content Sample.fresh
                  [Process Example.editorInfo Example.world] Hempty Hall
                  Example.editorInfo Example.world Hv)).
Defined.

Lemma removeEditor_forgets_witness :
  Example.uri <> EmptyString
  /\ JsMap.get Example.uri
       (Filter.editorCache
          (fst (Filter.removeEditor Example.uri
                  (Example.filter "f1"%string "a"%string false)
                  Example.world)))
     = None.
Proof.
  assert (Example.uri <> EmptyString) as Hne by discriminate.
  split; [exact Hne|].
  pose proof (@removeEditor_forgets _ Example.uri
                (Example.filter "f1"%string "a"%string false) Example.world
                Hne) as H.
  destruct (Filter.removeEditor Example.uri
              (Example.filter "f1"%string "a"%string false) Example.world)
    as [this' w'].
  exact (proj1 (proj2 (proj2 H))).
Defined.

Lemma getVisibleLines_changes_caches_only_witness :
  JsMap.wf (Project.filters Sample.project)
  /\ World.trace
       (snd (FocusProvider.getVisibleLines Example.uri Example.document
               (Some Sample.project) Example.world))
     = World.trace Example.world.
Proof.
  assert (JsMap.wf (Project.filters Sample.project)) as Hwf.
  { change (NoDup ["f1"%string; "f2"%string]).
    repeat constructor; cbn; intuition discriminate. }
  split; [exact Hwf|].
  pose proof (@getVisibleLines_changes_caches_only _ Example.uri
                Example.document Sample.project Example.world Hwf) as H.
  destruct (FocusProvider.getVisibleLines Example.uri Example.document
              (Some Sample.project) Example.world) as [[visibleLines this'] w'].
  destruct H as (p' & _ & _ & _ & _ & _ & Htrace & _). exact Htrace.
Defined.

Lemma unprocessed_document_shows_all_or_nothing_witness :
  Sample.unseen <> EmptyString
  /\ (forall key f,
         JsMap.get key (Project.filters Sample.project) = Some f ->
         JsMap.get Sample.unseen (Filter.activeEditors f) = None)
  /\ FocusProvider.getVisibleLines Sample.unseen Example.document
       (Some Sample.project) Example.world
     = (match fst (FocusProvider.getActiveFilters (Some Sample.project)) with
        | [] => seq 0 (TextDocument.lineCount Example.document)
        | _ :: _ => []
        end, Some Sample.project, Example.world).
Proof.
  assert (Sample.unseen <> EmptyString) as Hne by discriminate.
  assert (forall key f,
             JsMap.get key (Project.filters Sample.project) = Some f ->
             JsMap.get Sample.unseen (Filter.activeEditors f) = None) as Hnone.
  { intros key f H. apply get_In in H.
    destruct H as [H|[H|[]]]; injection H as <- <-; reflexivity. }
  split; [exact Hne|]. split; [exact Hnone|].
  exact (@unprocessed_document_shows_all_or_nothing _ Sample.unseen
           Example.document Sample.project Example.world Hne Hnone).
Defined.

Lemma focus_lines_show_their_originals_witness :
  Forall (fun n => n < TextDocument.lineCount Example.document)
    (fst (fst (FocusProvider.getVisibleLines Example.uri Example.document
                 Example.mixed Example.world)))
  /\ exists texts,
       fst (fst (FocusProvider.generateFilteredContent Example.uri
                   Example.document Example.mixed Example.world))
       = Some (JsArray.join (String newline EmptyString)
                 (EmptyString :: texts))
       /\ length texts
          = length (fst (fst (FocusProvider.getVisibleLines Example.uri
                                Example.document Example.mixed
                                Example.world))).
Proof.
  assert (Forall (fun n => n < TextDocument.lineCount Example.document)
            (fst (fst (FocusProvider.getVisibleLines Example.uri
                         Example.document Example.mixed Example.world))))
    as Hall by (vm_compute; repeat constructor).
  split; [exact Hall|].
  pose proof (@focus_lines_show_their_originals _ Example.uri
                Example.document Example.mixed Example.world Hall) as H.
  destruct (FocusProvider.getVisibleLines Example.uri Example.document
              Example.mixed Example.world) as [[visibleLines this1] w1].
  destruct (FocusProvider.generateFilteredContent Example.uri
              Example.document Example.mixed Example.world)
    as [[content this2] w2].
  destruct H as (texts & Hcontent & Hlength & _).
  exists texts. split; [exact Hcontent|exact Hlength].
Defined.

Lemma addFilter_registers_the_filter_witness :
  "a"%string <> EmptyString
  /\ RegExp_new "a"%string = inr "a"%string
  /\ JsMap.get "group-1"%string (Project.groups Sample.emptyProject)
     = Some (Group.mk [] true true "group"%string "group-1"%string)
  /\ fst (fst (Commands.addFilter "group-1"%string (Some "a"%string)
                 (Commands.mkState (Some Sample.emptyProject))
                 Example.world))
     = Commands.Returned.
Proof.
  assert ("a"%string <> EmptyString) as Hne by discriminate.
  assert (RegExp_new "a"%string = inr "a"%string) as Hregex by reflexivity.
  assert (JsMap.get "group-1"%string (Project.groups Sample.emptyProject)
          = Some (Group.mk [] true true "group"%string "group-1"%string))
    as Hgroup by reflexivity.
  split; [exact Hne|]. split; [exact Hregex|]. split; [exact Hgroup|].
  pose proof (@addFilter_registers_the_filter _ "group-1"%string "a"%string
                "a"%string _ Sample.emptyProject Example.world Hne Hregex
                Hgroup) as H.
  cbv zeta in H.
  destruct (Commands.addFilter "group-1"%string (Some "a"%string)
              (Commands.mkState (Some Sample.emptyProject)) Example.world)
    as [[outcome state'] w'].
  exact (proj1 H).
Defined.

Lemma editFilter_replaces_the_pattern_witness :
  JsMap.get "f1"%string (Project.filters Sample.project)
  = Some (Example.filter "f1"%string "a"%string false)
  /\ "b"%string
     <> RegExp_source
          (Filter.regex (Example.filter "f1"%string "a"%string false))
  /\ RegExp_new "b"%string = inr "b"%string
  /\ fst (fst (Commands.editFilter "f1"%string (Some "b"%string)
                 (Commands.mkState (Some Sample.project)) Example.world))
     = Commands.Returned.
Proof.
  assert (JsMap.get "f1"%string (Project.filters Sample.project)
          = Some (Example.filter "f1"%string "a"%string false)) as Hget
    by reflexivity.
  assert ("b"%string
          <> RegExp_source
               (Filter.regex (Example.filter "f1"%string "a"%string false)))
    as Hne by (intros H; vm_compute in H; discriminate H).
  assert (RegExp_new "b"%string = inr "b"%string) as Hregex by reflexivity.
  split; [exact Hget|]. split; [exact Hne|]. split; [exact Hregex|].
  pose proof (@editFilter_replaces_the_pattern _ "f1"%string "b"%string
                "b"%string _ Sample.project Example.world Hget Hne Hregex)
    as H.
  destruct (Commands.editFilter "f1"%string (Some "b"%string)
              (Commands.mkState (Some Sample.project)) Example.world)
    as [[outcome state'] w'].
  exact (proj1 H).
Defined.

Lemma deleteGroup_removes_its_filters_witness :
  (forall key f,
      JsMap.get key (Project.filters Sample.project) = Some f ->
      Filter.id f = key)
  /\ exists p',
       Commands.selectedProject
         (fst (Commands.deleteGroup "group-1"%string
                 (Commands.mkState (Some Sample.project)) Example.world))
       = Some p'
       /\ JsMap.get "f1"%string (Project.filters p') = None.
Proof.
  assert (forall key f,
             JsMap.get key (Project.filters Sample.project) = Some f ->
             Filter.id f = key) as Hid.
  { intros key f H. apply get_In in H.
    destruct H as [H|[H|[]]]; injection H as <- <-; reflexivity. }
  split; [exact Hid|].
  pose proof (@deleteGroup_removes_its_filters _ "group-1"%string
                Sample.project Example.world Hid) as H.
  destruct (Commands.deleteGroup "group-1"%string
              (Commands.mkState (Some Sample.project)) Example.world)
    as [state' w'].
  change (JsMap.get "group-1"%string (Project.groups Sample.project))
    with (Some (Group.mk ["f1"%string; "f2"%string] true true "group"%string
                  "group-1"%string)) in H.
  destruct H as (p' & Hsel & _ & _ & Hgone & _).
  exists p'. split; [exact Hsel|]. apply Hgone. now left.
Defined.

Lemma commands_keep_the_project_consistent_witness :
  let state := Commands.mkState (Some Sample.emptyProject) in
  let c := AddFilter "group-1"%string (Some "a"%string) in
  consistentState state
  /\ freshId c state Example.world
  /\ consistentState (fst (run c state Example.world)).
Proof.
  cbv zeta.
  assert (consistentState (Commands.mkState (Some Sample.emptyProject)))
    as Hstate.
  { unfold consistentState, consistent. cbn [Commands.selectedProject].
    change (Project.filters Sample.emptyProject) with (@nil (string * @Filter.t ToyHost.host)).
    change (Project.groups Sample.emptyProject)
      with [("group-1"%string,
             Group.mk [] true true "group"%string "group-1"%string)].
    assert (forall groupId group,
               JsMap.get groupId
                 [("group-1"%string,
                   Group.mk [] true true "group"%string "group-1"%string)]
               = Some group ->
               groupId = "group-1"%string
               /\ group = Group.mk [] true true "group"%string "group-1"%string)
      as Hgroup.
    { intros groupId group H. cbn [JsMap.get] in H.
      destruct (String.eqb_spec groupId "group-1"); [|discriminate].
      injection H as <-. now split. }
    split; [constructor|]. split; [repeat constructor; intros []|].
    split; [intros key f H; discriminate H|]. split; [|split].
    - intros groupId group H. destruct (Hgroup _ _ H) as [-> ->].
      split; [reflexivity|constructor].
    - intros key. split; [intros H; now contradiction H|].
      intros (groupId & group & H & Hin).
      destruct (Hgroup _ _ H) as [_ ->]. destruct Hin.
    - intros groupId1 group1 groupId2 group2 key H1 _ Hin1 _.
      destruct (Hgroup _ _ H1) as [_ ->]. destruct Hin1. }
  assert (freshId (AddFilter "group-1"%string (Some "a"%string))
            (Commands.mkState (Some Sample.emptyProject)) Example.world)
    as Hfresh by reflexivity.
  split; [exact Hstate|]. split; [exact Hfresh|].
  exact (@commands_keep_the_project_consistent _
           (AddFilter "group-1"%string (Some "a"%string))
           (Commands.mkState (Some Sample.emptyProject)) Example.world
           Hstate Hfresh).
Defined.

Lemma processEditor_highlights_matching_lines_witness :
  Filter.editorCache Sample.fresh = []
  /\ Forall (fun q => versioned Sample.content (queryWorld q))
       [Process Example.editorInfo Example.world]
  /\ versioned Sample.content Example.world
  /\ (let '(this', w') :=
        Filter.processEditor Example.editorInfo
          (fold_left afterQuery
             [Process Example.editorInfo Example.world] Sample.fresh)
          Example.world in
      exists events ranges stored,
        World.trace w'
        = World.trace Example.world ++ events
          ++ [SetDecorations (EditorInfo.editor Example.editorInfo)
                (Filter.id Sample.fresh) ranges]
        /\ (events = [] \/ events = [CreateDecoration (Filter.id Sample.fresh)])
        /\ (ranges = [] \/ ranges = stored)
        /\ JsMap.get (EditorInfo.uri Example.editorInfo)
             (Filter.editorDecorations this')
           = Some stored
        /\ (stored
            = map Filter.wholeLineRange
                (matchingLines (Filter.regex Sample.fresh)
                   (TextDocument.getText
                      (World.document (EditorInfo.editor Example.editorInfo)
                         Example.world)))
            \/ stored
               = firstn Filter.maxRanges
                   (map Filter.wholeLineRange
                      (matchingLines (Filter.regex Sample.fresh)
                         (TextDocument.getText
                            (World.document
                               (EditorInfo.editor Example.editorInfo)
                               Example.world)))))).
Proof.
  assert (Filter.editorCache Sample.fresh = []) as Hempty by reflexivity.
  assert (versioned Sample.content Example.world) as Hv
    by (intros editor; reflexivity).
  assert (Forall (fun q => versioned Sample.content (queryWorld q))
            [Process Example.editorInfo Example.world]) as Hall
    by (repeat constructor; exact Hv).
  split; [exact Hempty|]. split; [exact Hall|]. split; [exact Hv|].
  exact (@processEditor_highlights_matching_lines _ Sample.content Sample.fresh
           [Process Example.editorInfo Example.world] Hempty Hall
           Example.editorInfo Example.world Hv).
Defined.
End Witnesses.
